(** * dcrd block-chain core: a shallow embedding of [blockchain/chain.go]

    The Go methods on [*BlockChain] are embedded as Rocq functions over
    explicit state.  Immutable node identity (hash, parent link, height,
    cumulative work) is an inductive value; everything the Go code mutates
    through a pointer (status bits, transient stake fields, the two orphan
    maps, the chain view, the best-state snapshot, the durable store and
    the notification sink) is held in maps or records that are threaded
    through the calls.  Two node pointers are equal when they denote the
    same entry, that is when the immutable data agree. *)

From stdpp Require Import gmap list fin_maps strings.
From Stdlib Require Import ZArith Lia.

Local Open Scope Z_scope.

(** ** Hashes and block-index entries *)

(** A [chainhash.Hash] is a 32-byte opaque identifier; only equality is
    ever used, so it is represented by its integer value. *)
Abbreviation Hash := Z (only parsing).

Definition zeroHash : Hash := 0.

(** [blockNode]: the immutable part of a block-index entry.  The [parent]
    back pointer is nil only for the genesis entry. *)
#[warnings="-register-all"]
Inductive blockNode : Type :=
  BlockNode { hash : Hash;
              parent : option blockNode;
              height : Z;
              workSum : Z;
              bits : Z;
              sbits : Z }.

(** Pointer comparison [n == m] of two index entries. *)
Fixpoint node_eqb (n m : blockNode) : bool :=
  match n, m with
  | BlockNode h1 p1 ht1 w1 b1 s1, BlockNode h2 p2 ht2 w2 b2 s2 =>
      Z.eqb h1 h2 && Z.eqb ht1 ht2 && Z.eqb w1 w2 && Z.eqb b1 b2 &&
      Z.eqb s1 s2 &&
      match p1, p2 with
      | Some a, Some b => node_eqb a b
      | None, None => true
      | _, _ => false
      end
  end.

Definition onode_eqb (n m : option blockNode) : bool :=
  match n, m with
  | Some a, Some b => node_eqb a b
  | None, None => true
  | _, _ => false
  end.

(** [ancestors n] is [n.parent, n.parent.parent, ...] up to genesis. *)
Fixpoint ancestors (n : blockNode) : list blockNode :=
  match parent n with
  | Some p => p :: ancestors p
  | None => []
  end.

(** ** Validation status

    Modelled from the spec: the status bit-set of blockindex.go, a file
    that is not embedded here.  The spec gives the four members
    {HaveData, ValidateFailed, InvalidAncestor, Valid}; each is one bit and
    [SetStatusFlags] OR-merges. *)
Definition blockStatus : Type := Z.

Definition statusDataStored : blockStatus := 1.
Definition statusValid : blockStatus := 2.
Definition statusValidateFailed : blockStatus := 4.
Definition statusInvalidAncestor : blockStatus := 8.

Definition hasFlag (s flag : blockStatus) : bool :=
  negb (Z.eqb (Z.land s flag) 0).

Definition HaveData (s : blockStatus) : bool := hasFlag s statusDataStored.
Definition KnownValid (s : blockStatus) : bool := hasFlag s statusValid.
Definition KnownInvalid (s : blockStatus) : bool :=
  negb (Z.eqb (Z.land s (Z.lor statusValidateFailed statusInvalidAncestor)) 0).

(** ** Block index

    Modelled from the spec: the [blockIndex] type of blockindex.go.  It
    maps hash to entry, keeps per height the entries of that height
    ([chainTips]), and tracks the dirty set of entries whose status changed
    since the last flush.  The status of an entry lives here, keyed by the
    entry's hash, because every holder of the pointer sees one status. *)
Record blockIndex : Type :=
  BlockIndex { entries : gmap Z blockNode;
               status : gmap Z blockStatus;
               modified : gset Z;
               chainTips : gmap Z (list blockNode) }.

Definition LookupNode (bi : blockIndex) (h : Hash) : option blockNode :=
  entries bi !! h.

Definition NodeStatus (bi : blockIndex) (n : blockNode) : blockStatus :=
  default 0 (status bi !! hash n).

Definition SetStatusFlags (bi : blockIndex) (n : blockNode) (flags : blockStatus)
  : blockIndex :=
  {| entries := entries bi;
     status := <[hash n := Z.lor (NodeStatus bi n) flags]> (status bi);
     modified := {[hash n]} ∪ modified bi;
     chainTips := chainTips bi |}.

(** Modelled from the spec: [add_node] of the block index, which inserts
    the entry under its hash and records it among the entries of its
    height; it fails with DuplicateBlock when the hash is present. *)
Definition addNode (bi : blockIndex) (n : blockNode) : option blockIndex :=
  match entries bi !! hash n with
  | Some _ => None
  | None =>
      Some {| entries := <[hash n := n]> (entries bi);
              status := status bi;
              modified := modified bi;
              chainTips := <[height n := default [] (chainTips bi !! height n) ++ [n]]>
                             (chainTips bi) |}
  end.

(** ** Chain view

    Modelled from the spec: the [chainView] type of chainview.go, a dense
    array indexed by height whose slot [h] holds the main-branch entry of
    height [h]. *)
Abbreviation chainView := (list blockNode) (only parsing).

Definition Tip (c : chainView) : option blockNode := last c.

Definition Genesis (c : chainView) : option blockNode := head c.

Definition NodeByHeight (c : chainView) (h : Z) : option blockNode :=
  if Z.ltb h 0 then None else c !! Z.to_nat h.

(** [contains(node)] is true iff [view[node.height] == node]. *)
Definition Contains (c : chainView) (n : blockNode) : bool :=
  match NodeByHeight c (height n) with
  | Some m => node_eqb m n
  | None => false
  end.

(** [next(node)]: the successor on the view, nil past the tip or when the
    node is not on the view. *)
Definition Next (c : chainView) (n : option blockNode) : option blockNode :=
  match n with
  | Some n => if Contains c n then NodeByHeight c (height n + 1) else None
  | None => None
  end.

(** [find_fork(node)]: walk [node] upward until [contains(ancestor)]. *)
Fixpoint FindFork (c : chainView) (n : blockNode) : option blockNode :=
  if Contains c n then Some n
  else match parent n with
       | Some p => FindFork c p
       | None => None
       end.

(** The entries walked from [n] upward before the first one that is on the
    view, nearest first. *)
Fixpoint sidePath (c : chainView) (n : blockNode) : list blockNode :=
  if Contains c n then []
  else n :: match parent n with
            | Some p => sidePath c p
            | None => []
            end.

(** [set_tip(node)]: truncate the array and repopulate it by walking the
    ancestors of [node] until one is already contained. *)
Definition SetTip (c : chainView) (n : option blockNode) : chainView :=
  match n with
  | None => []
  | Some n =>
      match FindFork c n with
      | Some f => take (S (Z.to_nat (height f))) c ++ reverse (sidePath c n)
      | None => reverse (sidePath c n)
      end
  end.

(** ** Reorganization lists ([getReorganizeNodes])

    A Go [list.List] is a Rocq list: [PushFront] is cons and [PushBack] is
    append at the end. *)

(** The loop [for n := node; n != nil && n != forkNode; n = n.parent] that
    collects the nodes to attach.  The result is [None] when a known
    invalid node stops the walk; the nodes collected so far have then been
    flagged. *)
Fixpoint collectAttach (bi : blockIndex) (forkNode : option blockNode)
  (n : blockNode) (attachNodes : list blockNode)
  : blockIndex * option (list blockNode) :=
  if onode_eqb (Some n) forkNode then (bi, Some attachNodes)
  else if KnownInvalid (NodeStatus bi n) then
    (foldl (fun bi' dn => SetStatusFlags bi' dn statusInvalidAncestor)
           bi attachNodes, None)
  else match parent n with
       | Some p =>
           collectAttach bi forkNode p (n :: attachNodes)
       | None => (bi, Some (n :: attachNodes))
       end.

(** The loop [for n := tip; n != nil && n != forkNode; n = n.parent] that
    collects the nodes to detach. *)
Fixpoint collectDetach (forkNode : option blockNode) (n : blockNode)
  : list blockNode :=
  if onode_eqb (Some n) forkNode then []
  else n :: match parent n with
            | Some p => collectDetach forkNode p
            | None => []
            end.

(** [getReorganizeNodes] returns the index (whose statuses it may have
    changed) with the pair (detachNodes, attachNodes), in that order.  The
    outer [None] is the nil dereference of [NodeStatus(node.parent)] for a
    node without parent. *)
Definition getReorganizeNodes (bi : blockIndex) (c : chainView)
  (node : option blockNode)
  : option (blockIndex * (list blockNode * list blockNode)) :=
  match node with
  | None => Some (bi, ([], []))
  | Some node =>
      match parent node with
      | None => None
      | Some p =>
          if KnownInvalid (NodeStatus bi p) then
            Some (SetStatusFlags bi node statusInvalidAncestor, ([], []))
          else
            let forkNode := FindFork c node in
            match collectAttach bi forkNode node [] with
            | (bi', None) => Some (bi', ([], []))
            | (bi', Some attachNodes) =>
                let detachNodes :=
                  match Tip c with
                  | Some t => collectDetach forkNode t
                  | None => []
                  end in
                Some (bi', (detachNodes, attachNodes))
            end
      end
  end.

(** ** Errors and results

    A Go function of this file ends in one of three ways: it returns a
    value, it returns an error, or it panics ([panicf], or a run-time panic
    such as a nil dereference). *)
Inductive ErrorCode : Type :=
  | ErrForceReorgWrongChain
  | ErrForceReorgMissingChild
  | ErrKnownInvalidBlock
  | ErrOtherRule (code : Z).

Inductive error : Type :=
  | RuleError (c : ErrorCode)
  | errNotInMainChain (h : Hash)
  | VoteVersionError (version : Z)
  | HashError (h : Hash)
  | fmtError (tag : Z)
  | otherError (tag : Z).

Inductive panicMsg : Type :=
  | panicNotExtendingBestChain
  | panicStxoCount
  | panicNotEndOfBestChain
  | panicDetachNotBestChain
  | panicForkPointMismatch
  | panicDetachHashMismatch
  | panicParentHashMismatch
  | panicRuntime.

Inductive result (A : Type) : Type :=
  | Ok (a : A)
  | Err (e : error)
  | Panic (m : panicMsg).
Arguments Ok {A} a.
Arguments Err {A} e.
Arguments Panic {A} m.

(** What a collaborator of this file hands back: a value, an error, or a
    panic of its own. *)
Inductive outcome (A : Type) : Type :=
  | Done (a : A)
  | Failed (e : error)
  | Crashed.
Arguments Done {A} a.
Arguments Failed {A} e.
Arguments Crashed {A}.

Definition isRuleError (e : error) : bool :=
  match e with RuleError _ => true | _ => false end.

(** ** Constants of chain.go *)
Definition maxOrphanBlocks : Z := 500.
Definition minMemoryNodes : Z := 2880.
Definition minMemoryStakeNodes : Z := 288.
Definition mainchainBlockCacheSize : Z := 12.

(** ** [TipGeneration] *)

(** The hashes of [index.chainTips[bestChain.Tip().height]], in order.
    [None] is the nil dereference on an empty view. *)
Definition TipGeneration (bi : blockIndex) (c : chainView) : option (list Hash) :=
  match Tip c with
  | None => None
  | Some t => Some (map hash (default [] (chainTips bi !! height t)))
  end.

(** ** [pruneStakeNodes]

    The transient stake fields of an entry ([stakeNode], [newTickets],
    [ticketsVoted], [ticketsRevoked]) are assigned through the node
    pointer, so they are kept in a store keyed by the entry's hash; nil is
    [None]. *)
Record stakeData : Type :=
  StakeData { stakeNode : option Z;
              newTickets : option (list Hash);
              ticketsVoted : option (list Hash);
              ticketsRevoked : option (list Hash) }.

Definition prunedStakeData : stakeData :=
  {| stakeNode := None; newTickets := None;
     ticketsVoted := None; ticketsRevoked := None |}.

(** [for i := 0; i < k && n != nil; i++ { n = n.parent }] *)
Fixpoint walkBack (k : nat) (n : option blockNode) : option blockNode :=
  match k with
  | O => n
  | S k' => match n with
            | Some m => walkBack k' (parent m)
            | None => None
            end
  end.

(** One iteration of the pruning loop over [deleteNodes]. *)
Definition pruneOne (tipHeight : Z) (st : gmap Z stakeData) (node : blockNode)
  : gmap Z stakeData :=
  if Z.gtb (height node) (tipHeight - minMemoryNodes)
  then <[hash node := prunedStakeData]> st
  else st.

Definition pruneStakeNodes (c : chainView) (st : gmap Z stakeData)
  : gmap Z stakeData :=
  match walkBack (Z.to_nat (minMemoryStakeNodes - 1)) (Tip c), Tip c with
  | Some pruneToNode, Some tip =>
      match parent pruneToNode with
      | None => st
      | Some _ =>
          (* every ancestor of pruneToNode, pushed to the front in turn *)
          let deleteNodes :=
            foldl (fun l n => n :: l) [] (ancestors pruneToNode) in
          foldl (pruneOne (height tip)) st deleteNodes
      end
  | _, _ => st
  end.

(** ** [HeightRange]

    Heights are int64 in the source.  No operation below can leave the
    int64 range on the comparisons' taken branches ([endHeight -
    startHeight] is computed with [0 <= startHeight <= endHeight], and
    [latestHeight + 1] is a slice length), so they are plain integers. *)

(** The loop [for i := startHeight; i < endHeight; i++] that fills
    [hashes] backwards while walking parents; [None] is the nil
    dereference of [iterNode.hash]. *)
Fixpoint fillHashes (k : nat) (i endHeight : Z) (iterNode : option blockNode)
  (hashes : list Hash) : option (list Hash) :=
  match k with
  | O => Some hashes
  | S k' =>
      match iterNode with
      | None => None
      | Some n =>
          fillHashes k' (i + 1) endHeight (parent n)
            (<[Z.to_nat (endHeight - i - 1) := hash n]> hashes)
      end
  end.

Definition HeightRange (c : chainView) (startHeight endHeight : Z)
  : result (list Hash) :=
  if Z.ltb startHeight 0 then Err (fmtError 1)
  else if Z.ltb endHeight startHeight then Err (fmtError 2)
  else if Z.eqb startHeight endHeight then Ok []
  else match Tip c with
       | None => Panic panicRuntime
       | Some tip =>
           let latestHeight := height tip in
           if Z.gtb startHeight latestHeight then Ok []
           else
             let endHeight :=
               if Z.gtb endHeight (latestHeight + 1) then latestHeight + 1
               else endHeight in
             let n := Z.to_nat (endHeight - startHeight) in
             match fillHashes n startHeight endHeight
                     (NodeByHeight c (endHeight - 1))
                     (replicate n zeroHash) with
             | Some hashes => Ok hashes
             | None => Panic panicRuntime
             end
       end.

(** ** [locateInventory] *)

(** The loop over the locator: the first hash whose entry is known and on
    the main chain replaces the genesis fallback. *)
Fixpoint firstMainChain (bi : blockIndex) (c : chainView)
  (locator : list Hash) (fallback : option blockNode) : option blockNode :=
  match locator with
  | [] => fallback
  | h :: rest =>
      match LookupNode bi h with
      | Some node => if Contains c node then Some node
                     else firstMainChain bi c rest fallback
      | None => firstMainChain bi c rest fallback
      end
  end.

Definition uint32 (z : Z) : Z := z mod 2 ^ 32.

(** [None] is the nil dereference of [Tip().height] on an empty view. *)
Definition locateInventory (bi : blockIndex) (c : chainView)
  (locator : list Hash) (hashStop : Hash) (maxEntries : Z)
  : option (option blockNode * Z) :=
  let stopNode := LookupNode bi hashStop in
  match locator with
  | [] => match stopNode with
          | None => Some (None, 0)
          | Some s => Some (Some s, 1)
          end
  | _ :: _ =>
      let startNode := firstMainChain bi c locator (Genesis c) in
      match Next c startNode with
      | None => Some (None, 0)
      | Some startNode =>
          match Tip c with
          | None => None
          | Some tip =>
              let total := uint32 (height tip - height startNode + 1) in
              let total :=
                match stopNode with
                | Some s =>
                    if Contains c s && Z.geb (height s) (height startNode)
                    then uint32 (height s - height startNode + 1)
                    else total
                | None => total
                end in
              let total := if Z.gtb total maxEntries then maxEntries else total in
              Some (Some startNode, total)
          end
      end
  end.

(** ** [GetVoteInfo] *)

Record ConsensusDeployment : Type :=
  { voteId : string; voteMask : Z }.

Record ThresholdStateTuple : Type :=
  { State : Z; Choice : Z }.

Record VoteInfo : Type :=
  { Agendas : list ConsensusDeployment;
    AgendaStatus : list ThresholdStateTuple }.

Section VoteInfo.

(** [chainParams.Deployments], a Go map from version to deployments. *)
Variable Deployments : gmap Z (list ConsensusDeployment).

(** [NextThresholdState] lives in thresholdstate.go, a file that is not
    embedded here; it is a parameter. *)
Variable NextThresholdState : Hash -> Z -> string -> result ThresholdStateTuple.

(** The loop [for _, deployment := range deployments]. *)
Fixpoint voteInfoLoop (h : Hash) (version : Z)
  (deployments : list ConsensusDeployment) (vi : VoteInfo) : result VoteInfo :=
  match deployments with
  | [] => Ok vi
  | deployment :: rest =>
      match NextThresholdState h version (voteId deployment) with
      | Ok st =>
          voteInfoLoop h version rest
            {| Agendas := Agendas vi ++ [deployment];
               AgendaStatus := AgendaStatus vi ++ [st] |}
      | Err e => Err e
      | Panic m => Panic m
      end
  end.

Definition GetVoteInfo (h : Hash) (version : Z) : result VoteInfo :=
  let '(deployments, ok) :=
    match Deployments !! version with
    | Some d => (d, true)
    | None => ([], false)
    end in
  if negb ok then Err (VoteVersionError version)
  else if negb ok then Err (HashError h)
  else voteInfoLoop h version deployments
         {| Agendas := []; AgendaStatus := [] |}.

End VoteInfo.

(** ** Blocks *)

Inductive TxType : Type :=
  | TxTypeRegular | TxTypeSStx | TxTypeSSGen | TxTypeSSRtx.

(** A transaction: its inputs (opaque outpoints) and the tag that
    [stake.DetermineTxType] computes for it. *)
Record MsgTx : Type :=
  { TxIn : list Z; DetermineTxType : TxType }.

Record Block : Type :=
  { blockHash : Hash;
    PrevBlock : Hash;
    blockHeight : Z;
    blockSize : Z;
    VoteBits : Z;
    Transactions : list MsgTx;
    STransactions : list MsgTx }.

(** ** Orphan pool

    Times are integers (nanoseconds).  The clock is read once per call:
    the instants the Go code obtains from [time.Now()] within one call of
    [addOrphanBlock] are taken to be the same instant [now]. *)
Record orphanBlock : Type :=
  { block : Block; expiration : Z }.

Record orphanPool : Type :=
  { orphans : gmap Z orphanBlock;
    prevOrphans : gmap Z (list orphanBlock);
    oldestOrphan : option orphanBlock }.

Definition hour : Z := 3600 * 1000000000.

(** The indexing loop of [removeOrphanBlock], which drops from the slice
    every entry whose block hash is [orphanHash]. *)
Fixpoint dropByHash (orphanHash : Hash) (l : list orphanBlock)
  : list orphanBlock :=
  match l with
  | [] => []
  | o :: rest =>
      if Z.eqb (blockHash (block o)) orphanHash
      then dropByHash orphanHash rest
      else o :: dropByHash orphanHash rest
  end.

Definition removeOrphanBlock (p : orphanPool) (orphan : orphanBlock)
  : orphanPool :=
  let orphanHash := blockHash (block orphan) in
  let prevHash := PrevBlock (block orphan) in
  let bucket := dropByHash orphanHash (default [] (prevOrphans p !! prevHash)) in
  let prev := <[prevHash := bucket]> (prevOrphans p) in
  {| orphans := delete orphanHash (orphans p);
     prevOrphans :=
       if Nat.eqb (length bucket) 0 then delete prevHash prev else prev;
     oldestOrphan := oldestOrphan p |}.

(** One iteration of [for _, oBlock := range b.orphans], at key [k].  A key
    whose entry was removed before being reached produces no iteration. *)
Definition expireStep (now : Z) (p : orphanPool) (k : Hash) : orphanPool :=
  match orphans p !! k with
  | None => p
  | Some oBlock =>
      if Z.gtb now (expiration oBlock) then removeOrphanBlock p oBlock
      else
        let replace :=
          match oldestOrphan p with
          | None => true
          | Some old => Z.ltb (expiration oBlock) (expiration old)
          end in
        if replace
        then {| orphans := orphans p; prevOrphans := prevOrphans p;
                oldestOrphan := Some oBlock |}
        else p
  end.

(** [addOrphanBlock].  [order] is the order in which the Go run time
    happens to range over the keys of [b.orphans].  [None] is the nil
    dereference in [removeOrphanBlock(nil)]. *)
Definition addOrphanBlock (p : orphanPool) (now : Z) (order : list Hash)
  (blk : Block) : option orphanPool :=
  let p1 := foldl (expireStep now) p order in
  let p2 :=
    if Z.gtb (Z.of_nat (size (orphans p1)) + 1) maxOrphanBlocks then
      match oldestOrphan p1 with
      | None => None
      | Some old =>
          let q := removeOrphanBlock p1 old in
          Some {| orphans := orphans q; prevOrphans := prevOrphans q;
                  oldestOrphan := None |}
      end
    else Some p1 in
  match p2 with
  | None => None
  | Some p2 =>
      let oBlock := {| block := blk; expiration := now + hour |} in
      let prevHash := PrevBlock blk in
      Some {| orphans := <[blockHash blk := oBlock]> (orphans p2);
              prevOrphans :=
                <[prevHash := default [] (prevOrphans p2 !! prevHash) ++ [oBlock]]>
                  (prevOrphans p2);
              oldestOrphan := oldestOrphan p2 |}
  end.

(** ** Tip engine: state *)

(** A spent-output record of the spend journal; opaque to this file. *)
Definition spentTxOut : Type := Z.

(** Modelled from the spec: the UTXO view of utxoviewpoint.go, an overlay
    that carries the hash of the block it represents and a stake viewpoint
    tag.  Its entries are only touched by the external transaction
    primitives. *)
Record UtxoViewpoint : Type :=
  { viewBestHash : Hash;
    viewStakeViewpoint : Z;
    viewEntries : gmap Z Z }.

Definition ViewpointPrevValidInitial : Z := 0.

Definition NewUtxoViewpoint : UtxoViewpoint :=
  {| viewBestHash := zeroHash; viewStakeViewpoint := 0; viewEntries := ∅ |}.

Definition SetBestHash (v : UtxoViewpoint) (h : Hash) : UtxoViewpoint :=
  {| viewBestHash := h; viewStakeViewpoint := viewStakeViewpoint v;
     viewEntries := viewEntries v |}.

Definition SetStakeViewpoint (v : UtxoViewpoint) (t : Z) : UtxoViewpoint :=
  {| viewBestHash := viewBestHash v; viewStakeViewpoint := t;
     viewEntries := viewEntries v |}.

Record BestState : Type :=
  { bsHash : Hash;
    bsPrevHash : Hash;
    bsHeight : Z;
    bsBits : Z;
    bsNextPoolSize : Z;
    bsNextStakeDiff : Z;
    bsBlockSize : Z;
    bsNumTxns : Z;
    bsTotalTxns : Z;
    bsMedianTime : Z;
    bsTotalSubsidy : Z;
    bsNextWinningTickets : list Hash;
    bsMissedTickets : list Hash;
    bsNextFinalState : Z }.

(** [newBestState] *)
Definition newBestState (node : blockNode) (blockSize numTxns totalTxns : Z)
  (medianTime totalSubsidy nextPoolSize nextStakeDiff : Z)
  (nextWinners missed : list Hash) (nextFinalState : Z) : BestState :=
  let prevHash :=
    match parent node with
    | Some p => hash p
    | None => zeroHash
    end in
  {| bsHash := hash node; bsPrevHash := prevHash; bsHeight := height node;
     bsBits := bits node; bsNextPoolSize := nextPoolSize;
     bsNextStakeDiff := nextStakeDiff; bsBlockSize := blockSize;
     bsNumTxns := numTxns; bsTotalTxns := totalTxns;
     bsMedianTime := medianTime; bsTotalSubsidy := totalSubsidy;
     bsNextWinningTickets := nextWinners; bsMissedTickets := missed;
     bsNextFinalState := nextFinalState |}.

(** The durable store is the history of the operations committed to it.
    A [db.Update] transaction appends its operations as one batch or, when
    it fails, none of them. *)
Inductive dbOp : Type :=
  | dbPutBestState (s : BestState) (work : Z)
  | dbPutUtxoView (v : UtxoViewpoint)
  | dbPutSpendJournalEntry (h : Hash) (stxos : list spentTxOut)
  | dbRemoveSpendJournalEntry (h : Hash)
  | WriteConnectedBestNode (stake : Z) (h : Hash)
  | WriteDisconnectedBestNode (stake : Z) (h : Hash) (undo : Z)
  | indexManagerConnectBlock (h : Hash)
  | indexManagerDisconnectBlock (h : Hash)
  | dbPutBlockIndex (dirty : gset Z).

Inductive Notification : Type :=
  | NTBlockConnected (blk parent : Hash)
  | NTBlockDisconnected (blk parent : Hash)
  | NTReorganization (oldHash : Hash) (oldHeight : Z) (newHash : Hash) (newHeight : Z)
  | NTChainReorgStarted
  | NTChainReorgDone
  | NTSpentAndMissedTickets (h : Hash) (ht diff : Z) (spent missed : list Hash)
  | NTNewTickets (h : Hash) (ht diff : Z) (new : list Hash).

Record BlockChain : Type :=
  { index : blockIndex;
    bestChain : chainView;
    pool : orphanPool;
    mainchainBlockCache : gmap Z Block;
    stateSnapshot : BestState;
    nodeStake : gmap Z stakeData;
    db : list dbOp;
    notified : list Notification }.

Definition withIndex (b : BlockChain) (bi : blockIndex) : BlockChain :=
  {| index := bi; bestChain := bestChain b; pool := pool b;
     mainchainBlockCache := mainchainBlockCache b;
     stateSnapshot := stateSnapshot b; nodeStake := nodeStake b;
     db := db b; notified := notified b |}.

Definition withBestChain (b : BlockChain) (c : chainView) : BlockChain :=
  {| index := index b; bestChain := c; pool := pool b;
     mainchainBlockCache := mainchainBlockCache b;
     stateSnapshot := stateSnapshot b; nodeStake := nodeStake b;
     db := db b; notified := notified b |}.

Definition withCache (b : BlockChain) (m : gmap Z Block) : BlockChain :=
  {| index := index b; bestChain := bestChain b; pool := pool b;
     mainchainBlockCache := m;
     stateSnapshot := stateSnapshot b; nodeStake := nodeStake b;
     db := db b; notified := notified b |}.

Definition withSnapshot (b : BlockChain) (s : BestState) : BlockChain :=
  {| index := index b; bestChain := bestChain b; pool := pool b;
     mainchainBlockCache := mainchainBlockCache b;
     stateSnapshot := s; nodeStake := nodeStake b;
     db := db b; notified := notified b |}.

Definition withNodeStake (b : BlockChain) (m : gmap Z stakeData) : BlockChain :=
  {| index := index b; bestChain := bestChain b; pool := pool b;
     mainchainBlockCache := mainchainBlockCache b;
     stateSnapshot := stateSnapshot b; nodeStake := m;
     db := db b; notified := notified b |}.

Definition withDb (b : BlockChain) (d : list dbOp) : BlockChain :=
  {| index := index b; bestChain := bestChain b; pool := pool b;
     mainchainBlockCache := mainchainBlockCache b;
     stateSnapshot := stateSnapshot b; nodeStake := nodeStake b;
     db := d; notified := notified b |}.

Definition withNotified (b : BlockChain) (l : list Notification) : BlockChain :=
  {| index := index b; bestChain := bestChain b; pool := pool b;
     mainchainBlockCache := mainchainBlockCache b;
     stateSnapshot := stateSnapshot b; nodeStake := nodeStake b;
     db := db b; notified := l |}.

(** ** A state-and-failure monad for the methods on [*BlockChain] *)
Definition M (A : Type) : Type := BlockChain -> BlockChain * result A.

Definition ret {A : Type} (a : A) : M A := fun b => (b, Ok a).

Definition bind {A B : Type} (m : M A) (k : A -> M B) : M B :=
  fun b =>
    match m b with
    | (b', Ok a) => k a b'
    | (b', Err e) => (b', Err e)
    | (b', Panic p) => (b', Panic p)
    end.

Definition fail {A : Type} (e : error) : M A := fun b => (b, Err e).
Definition panicf {A : Type} (p : panicMsg) : M A := fun b => (b, Panic p).
Definition get : M BlockChain := fun b => (b, Ok b).
Definition modify (f : BlockChain -> BlockChain) : M unit := fun b => (f b, Ok tt).
Definition liftR {A : Type} (r : outcome A) : M A :=
  fun b => (b, match r with
               | Done a => Ok a
               | Failed e => Err e
               | Crashed => Panic panicRuntime
               end).

Notation "x <-- m ;; k" := (bind m (fun x => k))
  (at level 100, m at next level, right associativity).
Notation "m ;;; k" := (bind m (fun _ => k))
  (at level 100, right associativity).

(** [x.f] on a possibly nil pointer. *)
Definition deref {A : Type} (o : option A) : M A :=
  match o with
  | Some a => ret a
  | None => panicf panicRuntime
  end.

Definition sendNotification (n : Notification) : M unit :=
  modify (fun b => withNotified b (notified b ++ [n])).

(** ** Tip engine: collaborators

    The validator, the transaction primitives of the UTXO view, the stake
    subsystem, the subsidy calculator and the reads of the durable store
    live in other files; the engine is parametrised over them. *)
Record Collaborators : Type :=
  { headerApprovesParent : Block -> bool;
    dbFetchBlockByNode : blockNode -> outcome Block;
    dbFetchSpendJournalEntry : list dbOp -> Block -> Block -> outcome (list spentTxOut);
    fetchInputUtxos : list dbOp -> UtxoViewpoint -> Block -> Block -> outcome UtxoViewpoint;
    disconnectTransactions :
      UtxoViewpoint -> Block -> Block -> list spentTxOut -> outcome UtxoViewpoint;
    (* the flag says whether an stxos accumulator was passed *)
    connectTransactions :
      UtxoViewpoint -> Block -> Block -> bool -> outcome (UtxoViewpoint * list spentTxOut);
    checkConnectBlock :
      blockIndex -> chainView -> blockNode -> Block -> Block -> UtxoViewpoint -> bool ->
      outcome (UtxoViewpoint * list spentTxOut);
    checkBlockSanity : Block -> option error;
    checkBlockContext : blockIndex -> Block -> option blockNode -> option error;
    viewCommit : UtxoViewpoint -> UtxoViewpoint;
    (* index.flush and maybeFetchTicketInfo: the error a flush would meet *)
    flushFailure : blockIndex -> option error;
    (* the error a db.Update of the given batch would meet *)
    updateFailure : list dbOp -> list dbOp -> option error;
    fetchStakeNode : blockNode -> outcome Z;
    calcNextRequiredStakeDifficulty : blockNode -> outcome Z;
    CalcPastMedianTime : blockNode -> Z;
    CalculateAddedSubsidy : Block -> Block -> Z;
    PoolSize : Z -> Z;
    Winners : Z -> list Hash;
    MissedTickets : Z -> list Hash;
    FinalState : Z -> Z;
    SpentByBlock : Z -> list Hash;
    MissedByBlock : Z -> list Hash;
    NewTickets : Z -> list Hash;
    UndoData : Z -> Z;
    hasIndexManager : bool;
    StakeEnabledHeight : Z;
    LatestCheckpointHeight : Z }.

Definition uint64 (z : Z) : Z := z mod 2 ^ 64.
Definition int64 (z : Z) : Z := (z + 2 ^ 63) mod 2 ^ 64 - 2 ^ 63.

Section Engine.

Variable E : Collaborators.

(** [countSpentOutputs]; [None] is the run-time panic of
    [parent.Transactions()[1:]] on a parent without transactions. *)
Definition countSpentOutputs (blk parent : Block) : option Z :=
  let regular :=
    if headerApprovesParent E blk then
      match Transactions parent with
      | [] => None
      | _ :: txs =>
          Some (foldl (fun numSpent tx => numSpent + Z.of_nat (length (TxIn tx)))
                      0 txs)
      end
    else Some 0 in
  match regular with
  | None => None
  | Some numSpent =>
      Some (foldl (fun numSpent stx =>
                     match DetermineTxType stx with
                     | TxTypeSSGen | TxTypeSSRtx => numSpent + 1
                     | _ => numSpent + Z.of_nat (length (TxIn stx))
                     end)
                  numSpent (STransactions blk))
  end.

(** [countNumberOfTransactions] *)
Definition countNumberOfTransactions (blk parent : Block) : Z :=
  let numTxns :=
    if headerApprovesParent E blk
    then uint64 (0 + Z.of_nat (length (Transactions parent)))
    else 0 in
  uint64 (numTxns + Z.of_nat (length (STransactions blk))).

(** [fetchMainChainBlockByNode] *)
Definition fetchMainChainBlockByNode (node : option blockNode) : M Block :=
  node <-- deref node ;;
  b <-- get ;;
  if negb (Contains (bestChain b) node) then fail (errNotInMainChain (hash node))
  else match mainchainBlockCache b !! hash node with
       | Some blk => ret blk
       | None => liftR (dbFetchBlockByNode E node)
       end.

(** [fetchBlockByNode] *)
Definition fetchBlockByNode (node : blockNode) : M Block :=
  b <-- get ;;
  match mainchainBlockCache b !! hash node with
  | Some blk => ret blk
  | None =>
      match orphans (pool b) !! hash node with
      | Some orphan => ret (block orphan)
      | None => liftR (dbFetchBlockByNode E node)
      end
  end.

(** [flushBlockIndex]: on success the dirty entries are written and the
    dirty set is cleared. *)
Definition flushBlockIndex : M unit :=
  b <-- get ;;
  match flushFailure E (index b) with
  | Some e => fail e
  | None =>
      modify (fun b =>
        withDb (withIndex b {| entries := entries (index b);
                               status := status (index b);
                               modified := ∅;
                               chainTips := chainTips (index b) |})
               (db b ++ [dbPutBlockIndex (modified (index b))]))
  end.

(** [flushBlockIndexWarnOnly]: a failure is logged and dropped. *)
Definition flushBlockIndexWarnOnly : M unit :=
  fun b =>
    match flushBlockIndex b with
    | (b', Err _) => (b', Ok tt)
    | r => r
    end.

(** [db.Update]: the batch commits atomically, or nothing is written. *)
Definition dbUpdate (batch : list dbOp) : M unit :=
  b <-- get ;;
  match updateFailure E (db b) batch with
  | Some e => fail e
  | None => modify (fun b => withDb b (db b ++ batch))
  end.

Definition setStatusFlags (n : blockNode) (flags : blockStatus) : M unit :=
  modify (fun b => withIndex b (SetStatusFlags (index b) n flags)).

(** [node.stakeNode = ...; node.newTickets = nil; ...] through a pointer *)
Definition dropStakeData (n : blockNode) : M unit :=
  modify (fun b => withNodeStake b (<[hash n := prunedStakeData]> (nodeStake b))).

(** [fetchStakeNode] returns the stake node and leaves it in the entry. *)
Definition fetchStake (n : blockNode) : M Z :=
  sn <-- liftR (fetchStakeNode E n) ;;
  modify (fun b =>
    let old := default prunedStakeData (nodeStake b !! hash n) in
    withNodeStake b (<[hash n := {| stakeNode := Some sn;
                                    newTickets := newTickets old;
                                    ticketsVoted := ticketsVoted old;
                                    ticketsRevoked := ticketsRevoked old |}]>
                       (nodeStake b))) ;;;
  ret sn.

(** [pushMainChainBlockCache] *)
Definition pushMainChainBlockCache (blk : Block) : M unit :=
  modify (fun b =>
    let curHeight := blockHeight blk in
    let m := <[blockHash blk := blk]> (mainchainBlockCache b) in
    withCache b
      (filter (fun kv => ¬ (blockHeight (snd kv) <= curHeight - mainchainBlockCacheSize)) m)).

(** [dropMainChainBlockCache] *)
Definition dropMainChainBlockCache (blk : Block) : M unit :=
  modify (fun b => withCache b (delete (blockHash blk) (mainchainBlockCache b))).

(** [connectBlock].  The view is mutated through its pointer, so the
    committed view is returned. *)
Definition connectBlock (node : blockNode) (blk parentBlock : Block)
  (view : UtxoViewpoint) (stxos : list spentTxOut) : M UtxoViewpoint :=
  b <-- get ;;
  let prevHash := PrevBlock blk in
  tip <-- deref (Tip (bestChain b)) ;;
  if negb (Z.eqb prevHash (hash tip)) then panicf panicNotExtendingBestChain
  else
    match countSpentOutputs blk parentBlock with
    | None => panicf panicRuntime
    | Some counted =>
        if negb (Z.eqb (Z.of_nat (length stxos)) counted)
        then panicf panicStxoCount
        else
          flushBlockIndex ;;;
          stakeNode <-- fetchStake node ;;
          b <-- get ;;
          let curTotalTxns := bsTotalTxns (stateSnapshot b) in
          let curTotalSubsidy := bsTotalSubsidy (stateSnapshot b) in
          let numTxns := countNumberOfTransactions blk parentBlock in
          let subsidy := CalculateAddedSubsidy E blk parentBlock in
          nextStakeDiff <-- liftR (calcNextRequiredStakeDifficulty E node) ;;
          let state :=
            newBestState node (blockSize blk) numTxns
              (uint64 (curTotalTxns + numTxns)) (CalcPastMedianTime E node)
              (int64 (curTotalSubsidy + subsidy))
              (uint32 (PoolSize E stakeNode)) nextStakeDiff
              (Winners E stakeNode) (MissedTickets E stakeNode)
              (FinalState E stakeNode) in
          dbUpdate ([dbPutBestState state (workSum node);
                     dbPutUtxoView view;
                     dbPutSpendJournalEntry (blockHash blk) stxos;
                     WriteConnectedBestNode stakeNode (hash node)]
                    ++ (if hasIndexManager E
                        then [indexManagerConnectBlock (blockHash blk)]
                        else [])) ;;;
          let view := viewCommit E view in
          modify (fun b => withBestChain b (SetTip (bestChain b) (Some node))) ;;;
          modify (fun b => withSnapshot b state) ;;;
          sendNotification (NTBlockConnected (blockHash blk) (blockHash parentBlock)) ;;;
          (if Z.geb (height node) (StakeEnabledHeight E) then
             nextStakeDiff <-- liftR (calcNextRequiredStakeDifficulty E node) ;;
             sendNotification
               (NTSpentAndMissedTickets (hash node) (height node) nextStakeDiff
                  (SpentByBlock E stakeNode) (MissedByBlock E stakeNode)) ;;;
             sendNotification
               (NTNewTickets (hash node) (height node) nextStakeDiff
                  (NewTickets E stakeNode))
           else ret tt) ;;;
          (if Z.ltb (height node) (LatestCheckpointHeight E) then
             b <-- get ;;
             tip <-- deref (Tip (bestChain b)) ;;
             parent <-- deref (parent tip) ;;
             dropStakeData parent
           else ret tt) ;;;
          pushMainChainBlockCache blk ;;;
          ret view
    end.

(** [disconnectBlock] *)
Definition disconnectBlock (node : blockNode) (blk parentBlock : Block)
  (view : UtxoViewpoint) : M UtxoViewpoint :=
  b <-- get ;;
  tip <-- deref (Tip (bestChain b)) ;;
  if negb (Z.eqb (hash node) (hash tip)) then panicf panicNotEndOfBestChain
  else
    flushBlockIndex ;;;
    childStakeNode <-- fetchStake node ;;
    prevNode <-- deref (parent node) ;;
    parentStakeNode <-- fetchStake prevNode ;;
    b <-- get ;;
    let curTotalTxns := bsTotalTxns (stateSnapshot b) in
    let curTotalSubsidy := bsTotalSubsidy (stateSnapshot b) in
    let parentBlockSize := blockSize parentBlock in
    let numTxns := countNumberOfTransactions blk parentBlock in
    let newTotalTxns := uint64 (curTotalTxns - numTxns) in
    let subsidy := CalculateAddedSubsidy E blk parentBlock in
    let newTotalSubsidy := int64 (curTotalSubsidy - subsidy) in
    let state :=
      newBestState prevNode parentBlockSize numTxns newTotalTxns
        (CalcPastMedianTime E prevNode) newTotalSubsidy
        (uint32 (PoolSize E parentStakeNode)) (sbits node)
        (Winners E parentStakeNode) (MissedTickets E parentStakeNode)
        (FinalState E parentStakeNode) in
    dbUpdate ([dbPutBestState state (workSum node);
               dbPutUtxoView view;
               dbRemoveSpendJournalEntry (blockHash blk);
               WriteDisconnectedBestNode parentStakeNode (hash prevNode)
                 (UndoData E childStakeNode)]
              ++ (if hasIndexManager E
                  then [indexManagerDisconnectBlock (blockHash blk)]
                  else [])) ;;;
    let view := viewCommit E view in
    modify (fun b => withBestChain b (SetTip (bestChain b) (Some prevNode))) ;;;
    modify (fun b => withSnapshot b state) ;;;
    sendNotification (NTBlockDisconnected (blockHash blk) (blockHash parentBlock)) ;;;
    dropMainChainBlockCache blk ;;;
    ret view.

(** *** [reorganizeChain] *)

(** The loop variables of the first pass over [detachNodes]. *)
Record detachState : Type :=
  { dView : UtxoViewpoint;
    nextBlockToDetach : option Block;
    detachBlocks : list Block;
    detachSpentTxOuts : list (list spentTxOut);
    dNewBest : option blockNode }.

(** The loop variables of the first pass over [attachNodes]. *)
Record attachState : Type :=
  { aView : UtxoViewpoint;
    attachBlocks : list Block;
    aNewBest : option blockNode }.

(** Phase 1, first loop: unspend the blocks back to the fork point on the
    scratch view, caching blocks and spend-journal entries. *)
Fixpoint detachCheck (nodes : list blockNode) (st : detachState) : M detachState :=
  match nodes with
  | [] => ret st
  | n :: rest =>
      blk <-- match nextBlockToDetach st with
              | Some blk => ret blk
              | None => fetchMainChainBlockByNode (Some n)
              end ;;
      if negb (Z.eqb (hash n) (blockHash blk)) then panicf panicDetachHashMismatch
      else
        parentBlock <-- fetchMainChainBlockByNode (parent n) ;;
        b <-- get ;;
        stxos <-- liftR (dbFetchSpendJournalEntry E (db b) blk parentBlock) ;;
        match countSpentOutputs blk parentBlock with
        | None => panicf panicRuntime
        | Some counted =>
            if negb (Z.eqb (Z.of_nat (length stxos)) counted)
            then panicf panicStxoCount
            else
              view <-- liftR (disconnectTransactions E (dView st) blk parentBlock stxos) ;;
              detachCheck rest
                {| dView := view;
                   nextBlockToDetach := Some parentBlock;
                   detachBlocks := detachBlocks st ++ [blk];
                   detachSpentTxOuts := detachSpentTxOuts st ++ [stxos];
                   dNewBest := parent n |}
        end
  end.

(** [for de := e.Next(); de != nil; de = de.Next()] flagging descendants *)
Definition markInvalidAncestors (rest : list blockNode) : M unit :=
  modify (fun b =>
    withIndex b (foldl (fun bi dn => SetStatusFlags bi dn statusInvalidAncestor)
                       (index b) rest)).

(** Phase 1, second loop: check that each block to attach connects,
    without connecting it. *)
Fixpoint attachCheck (forkBlock : option Block) (nodes : list blockNode)
  (st : attachState) : M attachState :=
  match nodes with
  | [] => ret st
  | n :: rest =>
      blk <-- fetchBlockByNode n ;;
      parentBlock <-- deref (match last (attachBlocks st) with
                             | Some prev => Some prev
                             | None => forkBlock
                             end) ;;
      nparent <-- deref (parent n) ;;
      if negb (Z.eqb (hash nparent) (blockHash parentBlock))
      then panicf panicParentHashMismatch
      else
        let blocks := attachBlocks st ++ [blk] in
        b <-- get ;;
        if KnownValid (NodeStatus (index b) n) then
          r <-- liftR (connectTransactions E (aView st) blk parentBlock false) ;;
          attachCheck forkBlock rest
            {| aView := fst r; attachBlocks := blocks; aNewBest := Some n |}
        else
          match checkConnectBlock E (index b) (bestChain b) n blk parentBlock
                  (aView st) false with
          | Failed e =>
              (if isRuleError e then
                 setStatusFlags n statusValidateFailed ;;;
                 markInvalidAncestors rest
               else ret tt) ;;;
              fail e
          | Crashed => panicf panicRuntime
          | Done r =>
              setStatusFlags n statusValid ;;;
              attachCheck forkBlock rest
                {| aView := fst r; attachBlocks := blocks; aNewBest := Some n |}
          end
  end.

(** Phase 2, first loop: disconnect the blocks, one store transaction each. *)
Fixpoint detachCommit (i : nat) (nodes : list blockNode) (ds : detachState)
  (view : UtxoViewpoint) : M UtxoViewpoint :=
  match nodes with
  | [] => ret view
  | n :: rest =>
      blk <-- deref (detachBlocks ds !! i) ;;
      parentBlock <-- deref (if Nat.ltb i (length (detachBlocks ds) - 1)
                             then detachBlocks ds !! S i
                             else nextBlockToDetach ds) ;;
      nparent <-- deref (parent n) ;;
      if negb (Z.eqb (hash nparent) (blockHash parentBlock))
      then panicf panicParentHashMismatch
      else
        b <-- get ;;
        view <-- liftR (fetchInputUtxos E (db b) view blk parentBlock) ;;
        stxos <-- deref (detachSpentTxOuts ds !! i) ;;
        view <-- liftR (disconnectTransactions E view blk parentBlock stxos) ;;
        view <-- disconnectBlock n blk parentBlock view ;;
        detachCommit (S i) rest ds view
  end.

(** Phase 2, second loop: connect the blocks of the new branch. *)
Fixpoint attachCommit (i : nat) (forkBlock : option Block) (nodes : list blockNode)
  (blocks : list Block) (view : UtxoViewpoint) : M UtxoViewpoint :=
  match nodes with
  | [] => ret view
  | n :: rest =>
      blk <-- deref (blocks !! i) ;;
      parentBlock <-- deref (match i with
                             | O => forkBlock
                             | S j => blocks !! j
                             end) ;;
      nparent <-- deref (parent n) ;;
      if negb (Z.eqb (hash nparent) (blockHash parentBlock))
      then panicf panicParentHashMismatch
      else
        match countSpentOutputs blk parentBlock with
        | None => panicf panicRuntime
        | Some _ =>
            r <-- liftR (connectTransactions E view blk parentBlock true) ;;
            view <-- connectBlock n blk parentBlock (fst r) (snd r) ;;
            attachCommit (S i) forkBlock rest blocks view
        end
  end.

(** The start of the dry run: the sanity checks on the two lists, the
    first checking loop and the load of the fork block. *)
Definition reorganizeSetup (detachNodes attachNodes : list blockNode)
  : M (blockNode * detachState * option Block) :=
  b <-- get ;;
  tip <-- deref (Tip (bestChain b)) ;;
  (match head detachNodes with
   | Some firstDetachNode =>
       if negb (Z.eqb (hash firstDetachNode) (hash tip))
       then panicf panicDetachNotBestChain else ret tt
   | None => ret tt
   end) ;;;
  (match head attachNodes, last detachNodes with
   | Some firstAttachNode, Some lastDetachNode =>
       ap <-- deref (parent firstAttachNode) ;;
       dp <-- deref (parent lastDetachNode) ;;
       if negb (Z.eqb (hash ap) (hash dp))
       then panicf panicForkPointMismatch else ret tt
   | _, _ => ret tt
   end) ;;;
  let oldBest := tip in
  let view :=
    SetStakeViewpoint (SetBestHash NewUtxoViewpoint (hash oldBest))
      ViewpointPrevValidInitial in
  ds <-- detachCheck detachNodes
           {| dView := view; nextBlockToDetach := None; detachBlocks := [];
              detachSpentTxOuts := []; dNewBest := Some tip |} ;;
  forkBlock <-- (match attachNodes with
                 | [] => ret None
                 | _ :: _ =>
                     blk <-- fetchMainChainBlockByNode (dNewBest ds) ;;
                     ret (Some blk)
                 end) ;;
  ret (oldBest, ds, forkBlock).

(** The scratch state with which the second checking loop starts. *)
Definition attachStart (ds : detachState) : attachState :=
  {| aView := dView ds; attachBlocks := []; aNewBest := dNewBest ds |}.

(** Everything up to the end of the dry run.  Nothing of it touches the
    store, and neither [disconnectBlock] nor [connectBlock] is called. *)
Definition reorganizePhase1 (detachNodes attachNodes : list blockNode)
  : M (blockNode * blockNode * detachState * option Block * list Block) :=
  s <-- reorganizeSetup detachNodes attachNodes ;;
  let '(oldBest, ds, forkBlock) := s in
  ats <-- attachCheck forkBlock attachNodes (attachStart ds) ;;
  newBest <-- deref (aNewBest ats) ;;
  ret (oldBest, newBest, ds, forkBlock, attachBlocks ats).

(** The commit: notifications, then the disconnects and the connects.  The
    deferred [NTChainReorgDone] is sent however the commit ends. *)
Definition reorganizePhase2 (detachNodes attachNodes : list blockNode)
  (p : blockNode * blockNode * detachState * option Block * list Block) : M unit :=
  let '(oldBest, newBest, ds, forkBlock, blocks) := p in
  sendNotification
    (NTReorganization (hash oldBest) (height oldBest) (hash newBest) (height newBest)) ;;;
  sendNotification NTChainReorgStarted ;;;
  fun b =>
    let body :=
      let view :=
        SetStakeViewpoint (SetBestHash NewUtxoViewpoint (hash oldBest))
          ViewpointPrevValidInitial in
      view <-- detachCommit 0 detachNodes ds view ;;
      view <-- attachCommit 0 forkBlock attachNodes blocks view ;;
      ret tt in
    let '(b', r) := body b in
    (withNotified b' (notified b' ++ [NTChainReorgDone]), r).

Definition reorganizeChain (detachNodes attachNodes : list blockNode) : M unit :=
  if Nat.eqb (length detachNodes) 0 && Nat.eqb (length attachNodes) 0 then ret tt
  else
    p <-- reorganizePhase1 detachNodes attachNodes ;;
    reorganizePhase2 detachNodes attachNodes p.

(** *** [forceHeadReorganization] *)

(** The first part of [forceHeadReorganization]: the three precondition
    checks and, for a target that is not yet known valid, its validation
    against a scratch view.  It yields the target entry. *)
Definition forceHeadValidate (formerBest newBest : Hash) : M blockNode :=
  if Z.eqb formerBest newBest then fail (fmtError 3)
  else
    b <-- get ;;
    formerBestNode <-- deref (Tip (bestChain b)) ;;
    if negb (Z.eqb (hash formerBestNode) formerBest)
    then fail (RuleError ErrForceReorgWrongChain)
    else
      match LookupNode (index b) newBest with
      | None => fail (RuleError ErrForceReorgMissingChild)
      | Some newBestNode =>
          if negb (onode_eqb (parent newBestNode) (parent formerBestNode))
          then fail (RuleError ErrForceReorgMissingChild)
          else
            let newBestNodeStatus := NodeStatus (index b) newBestNode in
            if KnownInvalid newBestNodeStatus
            then fail (RuleError ErrKnownInvalidBlock)
            else
              (if negb (KnownValid newBestNodeStatus) then
                 newBestBlock <-- fetchBlockByNode newBestNode ;;
                 commonParent <-- deref (parent formerBestNode) ;;
                 let view :=
                   SetStakeViewpoint
                     (SetBestHash NewUtxoViewpoint (hash commonParent))
                     ViewpointPrevValidInitial in
                 formerBestBlock <-- fetchBlockByNode formerBestNode ;;
                 commonParentBlock <-- fetchMainChainBlockByNode (parent formerBestNode) ;;
                 stxos <-- liftR (dbFetchSpendJournalEntry E (db b) formerBestBlock
                                    commonParentBlock) ;;
                 match countSpentOutputs formerBestBlock commonParentBlock with
                 | None => panicf panicRuntime
                 | Some counted =>
                     if negb (Z.eqb (Z.of_nat (length stxos)) counted)
                     then panicf panicStxoCount
                     else
                       view <-- liftR (disconnectTransactions E view formerBestBlock
                                         commonParentBlock stxos) ;;
                       match checkBlockSanity E newBestBlock with
                       | Some e => fail e
                       | None =>
                           match checkBlockContext E (index b) newBestBlock
                                   (parent newBestNode) with
                           | Some e => fail e
                           | None =>
                               match checkConnectBlock E (index b) (bestChain b)
                                       newBestNode newBestBlock commonParentBlock
                                       view false with
                               | Failed e =>
                                   (if isRuleError e
                                    then setStatusFlags newBestNode statusValidateFailed
                                    else ret tt) ;;;
                                   fail e
                               | Crashed => panicf panicRuntime
                               | Done _ => setStatusFlags newBestNode statusValid
                               end
                           end
                       end
                 end
               else ret tt) ;;;
              ret newBestNode
      end.

(** [err := b.reorganizeChain(..., ...); b.flushBlockIndexWarnOnly();
    return err], with the two arguments named as [reorganizeChain] names
    its parameters. *)
Definition reorganizeAndFlush (detachNodes attachNodes : list blockNode) : M unit :=
  fun b =>
    match reorganizeChain detachNodes attachNodes b with
    | (b', Panic m) => (b', Panic m)
    | (b', err) => (fst (flushBlockIndexWarnOnly b'), err)
    end.

(** The last four lines of [forceHeadReorganization].  The two results of
    [getReorganizeNodes] are bound, in this order, to the local names
    [attach] and [detach], which are then passed, in this order, to
    [reorganizeChain]. *)
Definition forceHeadReorganize (newBestNode : blockNode) : M unit :=
  b <-- get ;;
  r <-- deref (getReorganizeNodes (index b) (bestChain b) (Some newBestNode)) ;;
  let '(bi, (attach, detach)) := r in
  modify (fun b => withIndex b bi) ;;;
  reorganizeAndFlush attach detach.

Definition forceHeadReorganization (formerBest newBest : Hash) : M unit :=
  newBestNode <-- forceHeadValidate formerBest newBest ;;
  forceHeadReorganize newBestNode.

End Engine.

(** ** Concrete chains used to exercise the model *)

Definition mkNode (h : Hash) (p : option blockNode) (ht : Z) : blockNode :=
  {| hash := h; parent := p; height := ht; workSum := ht + 1; bits := 0; sbits := 0 |}.

Definition nodeG : blockNode := mkNode 100 None 0.
Definition nodeB1 : blockNode := mkNode 101 (Some nodeG) 1.
Definition nodeB2 : blockNode := mkNode 102 (Some nodeB1) 2.
Definition nodeB3 : blockNode := mkNode 103 (Some nodeB2) 3.
Definition nodeB2a : blockNode := mkNode 202 (Some nodeB1) 2.
Definition nodeB3a : blockNode := mkNode 203 (Some nodeB2a) 3.
Definition nodeB3s : blockNode := mkNode 303 (Some nodeB2) 3.

Definition emptyIndex : blockIndex :=
  {| entries := ∅; status := ∅; modified := ∅; chainTips := ∅ |}.

Definition addNodes (bi : blockIndex) (l : list blockNode) : blockIndex :=
  foldl (fun bi n => default bi (addNode bi n)) bi l.

(** Scenario 2 of the spec: main chain G, B1, B2, B3 and the side-chain
    block B2a on top of B1. *)
Definition scenario2Index : blockIndex :=
  addNodes emptyIndex [nodeG; nodeB1; nodeB2; nodeB3; nodeB2a].

Definition scenario2View : chainView := [nodeG; nodeB1; nodeB2; nodeB3].

(** A straight chain with heights [0..k]; the entry of height [i] has hash
    [1000 + i]. *)
Fixpoint chainOfHeight (k : nat) : blockNode :=
  match k with
  | O => mkNode 1000 None 0
  | S k' => mkNode (1000 + Z.of_nat k) (Some (chainOfHeight k')) (Z.of_nat k)
  end.

Definition viewOf (tip : blockNode) : chainView :=
  reverse (tip :: ancestors tip).

(** A chain with one deployment for vote version 4, queried at a hash for
    which the threshold-state query reports a hash error. *)
Definition exampleDeployments : gmap Z (list ConsensusDeployment) :=
  {[ 4 := [ {| voteId := "sdiffalgorithm"; voteMask := 6 |} ] ]}.

Definition unknownHashThreshold (h : Hash) (version : Z) (id : string)
  : result ThresholdStateTuple := Err (HashError h).

(** The invariant the spec states for [chainTips]: the entries recorded
    for height [h] are entries of the index and have height [h]. *)
Definition chainTipsByHeight (bi : blockIndex) : Prop :=
  forall h n, n ∈ default [] (chainTips bi !! h) ->
              height n = h /\ entries bi !! hash n = Some n.

(** A two-block main chain G, B1 with both entries in the index. *)
Definition shortIndex : blockIndex := addNodes emptyIndex [nodeG; nodeB1].
Definition shortView : chainView := [nodeG; nodeB1].

(** The chain view is a projection of one branch: slot [i] holds an entry
    of height [i] whose parent is the entry of slot [i - 1]. *)
Definition viewLinked (c : chainView) : Prop :=
  (forall (i : nat) n, c !! i = Some n -> height n = Z.of_nat i) /\
  (forall (i : nat) n m, c !! i = Some n -> c !! S i = Some m -> parent m = Some n) /\
  (forall n, c !! 0%nat = Some n -> parent n = None).

(** Every entry of the index is stored under its own hash. *)
Definition indexKeyed (bi : blockIndex) : Prop :=
  forall h n, entries bi !! h = Some n -> hash n = h.

(** Every listed entry carrying all four transient stake fields. *)
Definition loadedStakeData : stakeData :=
  {| stakeNode := Some 1; newTickets := Some []; ticketsVoted := Some [];
     ticketsRevoked := Some [] |}.

Definition stakeOf (l : list blockNode) : gmap Z stakeData :=
  list_to_map (map (fun n => (hash n, loadedStakeData)) l).

(** The test [pruneStakeNodes] applies to the entry with hash [h]. *)
Definition pruned (tip : blockNode) (h : Hash) (n : blockNode) : bool :=
  Z.eqb (hash n) h && Z.gtb (height n) (height tip - minMemoryNodes).

(** Scenario 4 of the spec after the failed dry run: on top of the state
    of scenario 2, B3a is in the index and B2a carries [ValidateFailed]. *)
Definition invalidSideIndex : blockIndex :=
  SetStatusFlags (addNodes scenario2Index [nodeB3a]) nodeB2a statusValidateFailed.

Definition nodeB4a : blockNode := mkNode 204 (Some nodeB3a) 4.

(** Collaborators that accept every block: all reads succeed with an empty
    block for the entry, no transaction touches the view. *)
Definition emptyBlockOf (n : blockNode) : Block :=
  {| blockHash := hash n;
     PrevBlock := match parent n with Some p => hash p | None => zeroHash end;
     blockHeight := height n; blockSize := 0; VoteBits := 1;
     Transactions := [ {| TxIn := []; DetermineTxType := TxTypeRegular |} ];
     STransactions := [] |}.

Definition acceptAll : Collaborators :=
  {| headerApprovesParent := fun blk => Z.testbit (VoteBits blk) 0;
     dbFetchBlockByNode := fun n => Done (emptyBlockOf n);
     dbFetchSpendJournalEntry := fun _ _ _ => Done [];
     fetchInputUtxos := fun _ v _ _ => Done v;
     disconnectTransactions := fun v _ _ _ => Done v;
     connectTransactions := fun v _ _ _ => Done (v, []);
     checkConnectBlock := fun _ _ _ _ _ v _ => Done (v, []);
     checkBlockSanity := fun _ => None;
     checkBlockContext := fun _ _ _ => None;
     viewCommit := fun v => v;
     flushFailure := fun _ => None;
     updateFailure := fun _ _ => None;
     fetchStakeNode := fun n => Done (hash n);
     calcNextRequiredStakeDifficulty := fun _ => Done 2;
     CalcPastMedianTime := fun n => height n;
     CalculateAddedSubsidy := fun _ _ => 0;
     PoolSize := fun _ => 0;
     Winners := fun _ => [];
     MissedTickets := fun _ => [];
     FinalState := fun _ => 0;
     SpentByBlock := fun _ => [];
     MissedByBlock := fun _ => [];
     NewTickets := fun _ => [];
     UndoData := fun _ => 0;
     hasIndexManager := false;
     StakeEnabledHeight := 4096;
     LatestCheckpointHeight := 0 |}.

Definition emptyPool : orphanPool :=
  {| orphans := ∅; prevOrphans := ∅; oldestOrphan := None |}.

Definition snapshotOf (n : blockNode) : BestState :=
  newBestState n 0 1 (height n + 1) (height n) 0 0 2 [] [] 0.

(** A chain in the given index state whose best chain is scenario 2's. *)
Definition chainWith (bi : blockIndex) : BlockChain :=
  {| index := bi; bestChain := scenario2View; pool := emptyPool;
     mainchainBlockCache := ∅; stateSnapshot := snapshotOf nodeB3;
     nodeStake := ∅; db := []; notified := [] |}.

(** Scenario 2 with B3s, a validated sibling of the tip B3, in the index. *)
Definition siblingIndex : blockIndex :=
  SetStatusFlags (addNodes scenario2Index [nodeB3s]) nodeB3s statusValid.

(** A computation whose only panics are run-time panics: none of the
    [panicf] assertions of this file fires in it. *)
Definition onlyRuntimePanic {A : Type} (m : M A) : Prop :=
  forall b b' p, m b = (b', Panic p) -> p = panicRuntime.

(** A block on top of scenario 2's tip B3. *)
Definition nodeB4 : blockNode := mkNode 104 (Some nodeB3) 4.

(** Two states that differ at most in the block index. *)
Definition sameButIndex (b b' : BlockChain) : Prop :=
  bestChain b' = bestChain b /\ stateSnapshot b' = stateSnapshot b /\
  db b' = db b /\ notified b' = notified b /\
  mainchainBlockCache b' = mainchainBlockCache b /\
  nodeStake b' = nodeStake b /\ pool b' = pool b.

(** Steps that relate the state before to the state after by [R]. *)
Definition preserves (R : relation BlockChain) {A : Type} (m : M A) : Prop :=
  forall b b' r, m b = (b', r) -> R b b'.

(** Collaborators whose validator rejects the block of hash [bad] with a
    rule error and accepts every other block. *)
Definition rejecting (bad : Hash) : Collaborators :=
  {| headerApprovesParent := headerApprovesParent acceptAll;
     dbFetchBlockByNode := dbFetchBlockByNode acceptAll;
     dbFetchSpendJournalEntry := dbFetchSpendJournalEntry acceptAll;
     fetchInputUtxos := fetchInputUtxos acceptAll;
     disconnectTransactions := disconnectTransactions acceptAll;
     connectTransactions := connectTransactions acceptAll;
     checkConnectBlock := fun _ _ n _ _ v _ =>
       if Z.eqb (hash n) bad then Failed (RuleError (ErrOtherRule 1))
       else Done (v, []);
     checkBlockSanity := checkBlockSanity acceptAll;
     checkBlockContext := checkBlockContext acceptAll;
     viewCommit := viewCommit acceptAll;
     flushFailure := flushFailure acceptAll;
     updateFailure := updateFailure acceptAll;
     fetchStakeNode := fetchStakeNode acceptAll;
     calcNextRequiredStakeDifficulty := calcNextRequiredStakeDifficulty acceptAll;
     CalcPastMedianTime := CalcPastMedianTime acceptAll;
     CalculateAddedSubsidy := CalculateAddedSubsidy acceptAll;
     PoolSize := PoolSize acceptAll;
     Winners := Winners acceptAll;
     MissedTickets := MissedTickets acceptAll;
     FinalState := FinalState acceptAll;
     SpentByBlock := SpentByBlock acceptAll;
     MissedByBlock := MissedByBlock acceptAll;
     NewTickets := NewTickets acceptAll;
     UndoData := UndoData acceptAll;
     hasIndexManager := hasIndexManager acceptAll;
     StakeEnabledHeight := StakeEnabledHeight acceptAll;
     LatestCheckpointHeight := LatestCheckpointHeight acceptAll |}.

(** Scenario 4 of the spec, with one more block on the side branch: the
    side chain B2a, B3a, B4a is in the index, nothing of it validated yet,
    and the block B3a violates a rule. *)
Definition scenario4Chain : BlockChain :=
  chainWith (addNodes scenario2Index [nodeB3a; nodeB4a]).

Definition scenario4Detach : detachState :=
  {| dView := SetStakeViewpoint (SetBestHash NewUtxoViewpoint 103)
                ViewpointPrevValidInitial;
     nextBlockToDetach := Some (emptyBlockOf nodeB1);
     detachBlocks := [emptyBlockOf nodeB3; emptyBlockOf nodeB2];
     detachSpentTxOuts := [[]; []];
     dNewBest := Some nodeB1 |}.

Definition scenario4Attach : attachState :=
  {| aView := dView scenario4Detach;
     attachBlocks := [emptyBlockOf nodeB2a];
     aNewBest := Some nodeB2a |}.

Definition scenario4Mid : BlockChain :=
  withIndex scenario4Chain (SetStatusFlags (index scenario4Chain) nodeB2a statusValid).

(** An orphan record is unexpired when [time.Now().After(expiration)] is
    false. *)
Definition unexpired (now : Z) (o : orphanBlock) : bool :=
  negb (Z.gtb now (expiration o)).


(** Every record is stored under the hash of its block. *)
Definition poolKeyed (p : orphanPool) : Prop :=
  forall k o, orphans p !! k = Some o -> blockHash (block o) = k.



(** The orphan block number [i]: hash [5000 + i] on the unknown parent
    [4000 + i]. *)
Definition orphanNo (i : Z) : Block :=
  {| blockHash := 5000 + i; PrevBlock := 4000 + i; blockHeight := 9;
     blockSize := 0; VoteBits := 1; Transactions := []; STransactions := [] |}.

(** Orphans number 1 to [n], added at the instants 1 to [n], each call
    ranging over the keys in insertion order; the result is paired with
    that list of keys. *)
Fixpoint fillPool (n : nat) : orphanPool * list Z :=
  match n with
  | O => (emptyPool, [])
  | S n' =>
      let '(p, keys) := fillPool n' in
      (default p (addOrphanBlock p (Z.of_nat n) keys (orphanNo (Z.of_nat n))),
       keys ++ [5000 + Z.of_nat n])
  end.

(** The same orphan added twice, at the instants 1000 and 2000. *)
Definition poolOnce : orphanPool :=
  default emptyPool (addOrphanBlock emptyPool 1000 [] (orphanNo 1)).


(** ** Further queries of chain.go *)

(** [IsKnownOrphan] *)
Definition IsKnownOrphan (p : orphanPool) (h : Hash) : bool :=
  match orphans p !! h with
  | Some _ => true
  | None => false
  end.

(** The loop of [GetOrphanRoot].  It runs for as long as the previous hash
    is itself an orphan; [fuel] bounds the number of iterations and [None]
    says that the bound was reached. *)
Fixpoint orphanRootLoop (fuel : nat) (p : orphanPool) (orphanRoot prevHash : Hash)
  : option Hash :=
  match fuel with
  | O => None
  | S fuel' =>
      match orphans p !! prevHash with
      | None => Some orphanRoot
      | Some orphan => orphanRootLoop fuel' p prevHash (PrevBlock (block orphan))
      end
  end.

Definition GetOrphanRoot (fuel : nat) (p : orphanPool) (h : Hash) : option Hash :=
  orphanRootLoop fuel p h h.

(** [h] is an orphan whose chain of missing parents runs through [rest],
    all orphans of the pool, and leaves the pool at [out]. *)
Fixpoint orphanChain (p : orphanPool) (h : Hash) (rest : list Hash) (out : Hash)
  : Prop :=
  match rest with
  | [] => exists o, orphans p !! h = Some o /\ PrevBlock (block o) = out /\
                    orphans p !! out = None
  | h' :: rest' =>
      exists o, orphans p !! h = Some o /\ PrevBlock (block o) = h' /\
                orphanChain p h' rest' out
  end.

(** [MainChainHasBlock] *)
Definition MainChainHasBlock (bi : blockIndex) (c : chainView) (h : Hash) : bool :=
  match LookupNode bi h with
  | Some node => Contains c node
  | None => false
  end.

(** [BlockHeightByHash] *)
Definition BlockHeightByHash (bi : blockIndex) (c : chainView) (h : Hash)
  : result Z :=
  match LookupNode bi h with
  | Some node =>
      if Contains c node then Ok (height node) else Err (errNotInMainChain h)
  | None => Err (errNotInMainChain h)
  end.

(** [BlockHashByHeight]; the error carries the height asked for. *)
Definition BlockHashByHeight (c : chainView) (ht : Z) : result Hash :=
  match NodeByHeight c ht with
  | Some node => Ok (hash node)
  | None => Err (errNotInMainChain ht)
  end.

(** The loop of [locateBlocks], [total] iterations of
    [hashes = append(hashes, node.hash); node = b.bestChain.Next(node)];
    [None] is the nil dereference of [node.hash]. *)
Fixpoint nextHashes (c : chainView) (total : nat) (node : option blockNode)
  (hashes : list Hash) : option (list Hash) :=
  match total with
  | O => Some hashes
  | S total' =>
      match node with
      | None => None
      | Some n => nextHashes c total' (Next c (Some n)) (hashes ++ [hash n])
      end
  end.

(** [locateBlocks]; the outer [None] is a run-time panic. *)
Definition locateBlocks (bi : blockIndex) (c : chainView) (locator : list Hash)
  (hashStop : Hash) (maxHashes : Z) : option (list Hash) :=
  match locateInventory bi c locator hashStop maxHashes with
  | None => None
  | Some (node, total) =>
      if Z.eqb total 0 then Some []
      else nextHashes c (Z.to_nat total) node []
  end.

Definition int32 (z : Z) : Z := (z + 2 ^ 31) mod 2 ^ 32 - 2 ^ 31.

Record StakeVersions : Type :=
  { svHash : Hash;
    svHeight : Z;
    svBlockVersion : Z;
    svStakeVersion : Z;
    svVotes : list (Z * Z) }.

Section NodeVersions.

(** The header fields [blockVersion], [stakeVersion] and [votes] of a
    block-index entry; the entry type is declared in blockindex.go, so the
    fields are parameters here. *)
Variable blockVersion : blockNode -> Z.
Variable stakeVersion : blockNode -> Z.
Variable votes : blockNode -> list (Z * Z).

Definition stakeVersionsOf (n : blockNode) : StakeVersions :=
  {| svHash := hash n; svHeight := height n; svBlockVersion := blockVersion n;
     svStakeVersion := stakeVersion n; svVotes := votes n |}.

(** [for i := int32(0); prevNode != nil && i < count; i++] *)
Fixpoint stakeVersionsLoop (k : nat) (prevNode : option blockNode)
  (res : list StakeVersions) : list StakeVersions :=
  match k with
  | O => res
  | S k' =>
      match prevNode with
      | None => res
      | Some n => stakeVersionsLoop k' (parent n) (res ++ [stakeVersionsOf n])
      end
  end.

(** [GetStakeVersions]; [count] is an int32.  The panic is that of [make]
    with a negative capacity. *)
Definition GetStakeVersions (bi : blockIndex) (h : Hash) (count : Z)
  : result (list StakeVersions) :=
  match LookupNode bi h with
  | None => Err (fmtError 4)
  | Some startNode =>
      if negb (KnownValid (NodeStatus bi startNode)) then Err (fmtError 4)
      else if Z.eqb count 0 then Ok []
      else if Z.ltb count 0 then Err (fmtError 5)
      else
        let count :=
          if Z.gtb count (int32 (height startNode + 1))
          then int32 (height startNode + 1)
          else count in
        if Z.ltb count 0 then Panic panicRuntime
        else Ok (stakeVersionsLoop (Z.to_nat count) (Some startNode) [])
  end.

(** [chainParams.BlockUpgradeNumToCheck], a uint64. *)
Variable BlockUpgradeNumToCheck : Z.

(** The loop of [isMajorityVersion]: at most [k] iterations, ended early
    when enough blocks were found or the chain is exhausted. *)
Fixpoint majorityLoop (k : nat) (minVer numRequired numFound : Z)
  (iterNode : option blockNode) : Z :=
  match k with
  | O => numFound
  | S k' =>
      if Z.ltb numFound numRequired then
        match iterNode with
        | None => numFound
        | Some n =>
            majorityLoop k' minVer numRequired
              (if Z.geb (blockVersion n) minVer then uint64 (numFound + 1)
               else numFound)
              (parent n)
        end
      else numFound
  end.

Definition isMajorityVersion (minVer : Z) (startNode : option blockNode)
  (numRequired : Z) : bool :=
  Z.geb (majorityLoop (Z.to_nat BlockUpgradeNumToCheck) minVer numRequired 0 startNode)
        numRequired.

End NodeVersions.

(** No bucket of [prevOrphans] is stored empty. *)
Definition noEmptyBucket (p : orphanPool) : Prop :=
  forall k, prevOrphans p !! k <> Some [].

(** The entry itself followed by its ancestors; empty for nil. *)
Definition chainFrom (n : option blockNode) : list blockNode :=
  match n with
  | Some m => m :: ancestors m
  | None => []
  end.

Section BestChain.

Variable E : Collaborators.

(** [BFFastAdd], a behaviour flag that is declared in process.go. *)
Variable BFFastAdd : Z.

(** [connectBestChain]; the result is the fork length.  The first panic is
    the one for a parent block that is not the block of [node.parent]. *)
Definition connectBestChain (node : blockNode) (blk parentBlock : Block)
  (flags : Z) : M Z :=
  let fastAdd := Z.eqb (Z.land flags BFFastAdd) BFFastAdd in
  nparent <-- deref (parent node) ;;
  if negb (Z.eqb (blockHash parentBlock) (hash nparent))
  then panicf panicParentHashMismatch
  else
    let parentHash := PrevBlock blk in
    b <-- get ;;
    tip <-- deref (Tip (bestChain b)) ;;
    if Z.eqb parentHash (hash tip) then
      let isKnownValid := KnownValid (NodeStatus (index b) node) in
      let fastAdd := fastAdd || isKnownValid in
      let view :=
        SetStakeViewpoint (SetBestHash NewUtxoViewpoint parentHash)
          ViewpointPrevValidInitial in
      r <-- (if negb fastAdd then
               match checkConnectBlock E (index b) (bestChain b) node blk
                       parentBlock view true with
               | Failed e =>
                   (if isRuleError e then
                      setStatusFlags node statusValidateFailed ;;;
                      flushBlockIndexWarnOnly E
                    else ret tt) ;;;
                   fail e
               | Crashed => panicf panicRuntime
               | Done r => ret r
               end
             else ret (view, [])) ;;
      (if negb isKnownValid then
         setStatusFlags node statusValid ;;;
         flushBlockIndexWarnOnly E
       else ret tt) ;;;
      r <-- (if fastAdd then
               b <-- get ;;
               v <-- liftR (fetchInputUtxos E (db b) (fst r) blk parentBlock) ;;
               liftR (connectTransactions E v blk parentBlock true)
             else ret r) ;;
      connectBlock E node blk parentBlock (fst r) (snd r) ;;;
      ret 0
    else if Z.leb (workSum node) (workSum tip) then
      b <-- get ;;
      fork <-- deref (FindFork (bestChain b) node) ;;
      ret (height node - height fork)
    else
      b <-- get ;;
      r <-- deref (getReorganizeNodes (index b) (bestChain b) (Some node)) ;;
      let '(bi, (detachNodes, attachNodes)) := r in
      modify (fun b => withIndex b bi) ;;;
      reorganizeAndFlush E detachNodes attachNodes ;;;
      ret 0.

End BestChain.

(** Nothing but the block index, the durable store and the transient
    stake data has changed. *)
Definition tipUntouched (b b' : BlockChain) : Prop :=
  bestChain b' = bestChain b /\ stateSnapshot b' = stateSnapshot b /\
  notified b' = notified b /\ mainchainBlockCache b' = mainchainBlockCache b /\
  pool b' = pool b.

(** The state after a successful flush of the block index. *)
Definition flushed (b : BlockChain) : BlockChain :=
  withDb (withIndex b {| entries := entries (index b); status := status (index b);
                         modified := ∅; chainTips := chainTips (index b) |})
         (db b ++ [dbPutBlockIndex (modified (index b))]).

(** The state after [fetchStakeNode] left the stake node in the entry. *)
Definition withStake (b : BlockChain) (n : blockNode) (sn : Z) : BlockChain :=
  let old := default prunedStakeData (nodeStake b !! hash n) in
  withNodeStake b (<[hash n := {| stakeNode := Some sn;
                                  newTickets := newTickets old;
                                  ticketsVoted := ticketsVoted old;
                                  ticketsRevoked := ticketsRevoked old |}]>
                     (nodeStake b)).

(** The notifications about a single block. *)
Definition blockLevel (n : Notification) : bool :=
  match n with
  | NTBlockConnected _ _ | NTBlockDisconnected _ _
  | NTSpentAndMissedTickets _ _ _ _ _ | NTNewTickets _ _ _ _ => true
  | _ => false
  end.

(** The notifications sent so far are kept, and those added are about
    single blocks. *)
Definition blockNotes (b b' : BlockChain) : Prop :=
  exists l, notified b' = notified b ++ l /\ Forall (fun n => blockLevel n = true) l.

(** The entries of [l] form a branch that grows out of the entry [t]: the
    parent of each one is the entry before it, one lower. *)
Fixpoint linkedOnto (t : option blockNode) (l : list blockNode) : Prop :=
  match l with
  | [] => True
  | n :: rest =>
      (exists p, t = Some p /\ parent n = Some p /\ height n = height p + 1) /\
      linkedOnto (Some n) rest
  end.

(** An orphan whose missing parent is orphan number 1. *)
Definition chainedOrphan : Block :=
  {| blockHash := 5002; PrevBlock := 5001; blockHeight := 10;
     blockSize := 0; VoteBits := 1; Transactions := []; STransactions := [] |}.

(** Orphan number 1 and, added at the instant 1500, the orphan on top of
    it. *)
Definition poolChained : orphanPool :=
  default poolOnce (addOrphanBlock poolOnce 1500 [5001] chainedOrphan).

(** A threshold-state query that answers every agenda with the same
    tuple. *)
Definition activeThreshold (h : Hash) (version : Z) (id : string)
  : result ThresholdStateTuple := Ok {| State := 5; Choice := 1 |}.


(** A sibling of B3a on top of B2a that carries more work than the tip of
    scenario 2. *)
Definition nodeB3h : blockNode :=
  {| hash := 213; parent := Some nodeB2a; height := 3; workSum := 9;
     bits := 0; sbits := 0 |}.

(** * Properties *)

(** ** Entries *)

Lemma blockNode_parent_ind (P : blockNode -> Prop) :
  (forall n, parent n = None -> P n) ->
  (forall n p, parent n = Some p -> P p -> P n) ->
  forall n, P n.
Proof.
  intros H0 HS. fix IH 1. intros [h [p|] ht w b s].
  - apply (HS (BlockNode h (Some p) ht w b s) p); [reflexivity | apply IH].
  - apply H0. reflexivity.
Qed.

Lemma node_eqb_eq (n m : blockNode) : node_eqb n m = true <-> n = m.
Proof.
  revert m. induction n as [n Hn | n p Hn IH] using blockNode_parent_ind;
    intros m; destruct n as [h1 p1 ht1 w1 b1 s1], m as [h2 p2 ht2 w2 b2 s2];
    simpl in Hn; subst p1; simpl.
  - destruct p2 as [q|].
    + rewrite andb_false_r. split; [discriminate | intros H; inversion H].
    + rewrite andb_true_r, !andb_true_iff, !Z.eqb_eq.
      split; [intros [[[[-> ->] ->] ->] ->]; reflexivity
             | intros H; inversion H; auto].
  - destruct p2 as [q|].
    + rewrite !andb_true_iff, !Z.eqb_eq, IH.
      split; [intros [[[[[-> ->] ->] ->] ->] ->]; reflexivity
             | intros H; inversion H; auto 10].
    + rewrite andb_false_r. split; [discriminate | intros H; inversion H].
Qed.

Lemma node_eqb_refl (n : blockNode) : node_eqb n n = true.
Proof. apply node_eqb_eq. reflexivity. Qed.

Lemma node_eqb_neq (n m : blockNode) : n <> m -> node_eqb n m = false.
Proof.
  intros H. destruct (node_eqb n m) eqn:Heq; [|reflexivity].
  apply node_eqb_eq in Heq. contradiction.
Qed.

(** ** Status flags *)

Lemma hasFlag_lor_l (s g f : blockStatus) :
  hasFlag s f = true -> hasFlag (Z.lor s g) f = true.
Proof.
  unfold hasFlag. rewrite !negb_true_iff, !Z.eqb_neq.
  intros H Hz. rewrite Z.land_lor_distr_l in Hz.
  apply Z.lor_eq_0_iff in Hz. tauto.
Qed.

Lemma hasFlag_lor_r (s f : blockStatus) :
  f <> 0 -> hasFlag (Z.lor s f) f = true.
Proof.
  unfold hasFlag. rewrite negb_true_iff, Z.eqb_neq.
  intros Hf Hz. rewrite Z.land_lor_distr_l, Z.land_diag in Hz.
  apply Z.lor_eq_0_iff in Hz. tauto.
Qed.

Lemma NodeStatus_SetStatusFlags_same (bi : blockIndex) (n : blockNode) (g : blockStatus) :
  NodeStatus (SetStatusFlags bi n g) n = Z.lor (NodeStatus bi n) g.
Proof. unfold NodeStatus at 1, SetStatusFlags. simpl. rewrite lookup_insert_eq. reflexivity. Qed.

Lemma SetStatusFlags_keeps (bi : blockIndex) (x d : blockNode) (g f : blockStatus) :
  hasFlag (NodeStatus bi d) f = true ->
  hasFlag (NodeStatus (SetStatusFlags bi x g) d) f = true.
Proof.
  intros H. destruct (decide (hash x = hash d)) as [Heq | Hne].
  - unfold NodeStatus at 1, SetStatusFlags. simpl. rewrite Heq, lookup_insert_eq. simpl.
    unfold NodeStatus in H |- *. rewrite Heq. apply hasFlag_lor_l. exact H.
  - unfold NodeStatus at 1, SetStatusFlags. simpl.
    rewrite lookup_insert_ne by exact Hne. exact H.
Qed.

Lemma SetStatusFlags_sets (bi : blockIndex) (n : blockNode) (f : blockStatus) :
  f <> 0 -> hasFlag (NodeStatus (SetStatusFlags bi n f) n) f = true.
Proof.
  intros Hf. rewrite NodeStatus_SetStatusFlags_same. apply hasFlag_lor_r. exact Hf.
Qed.

Lemma foldl_SetStatusFlags_keeps (l : list blockNode) (bi : blockIndex)
  (d : blockNode) (g f : blockStatus) :
  hasFlag (NodeStatus bi d) f = true ->
  hasFlag (NodeStatus (foldl (fun bi' dn => SetStatusFlags bi' dn g) bi l) d) f = true.
Proof.
  revert bi. induction l as [|x l IH]; intros bi H; simpl; [exact H|].
  apply IH. apply SetStatusFlags_keeps. exact H.
Qed.

Lemma foldl_SetStatusFlags_sets (l : list blockNode) (bi : blockIndex)
  (d : blockNode) (f : blockStatus) :
  f <> 0 -> d ∈ l ->
  hasFlag (NodeStatus (foldl (fun bi' dn => SetStatusFlags bi' dn f) bi l) d) f = true.
Proof.
  intros Hf. revert bi. induction l as [|x l IH]; intros bi Hin; simpl.
  - inversion Hin.
  - apply elem_of_cons in Hin as [-> | Hin].
    + apply foldl_SetStatusFlags_keeps. apply SetStatusFlags_sets. exact Hf.
    + apply IH. exact Hin.
Qed.

(** ** [GetVoteInfo] *)

Lemma voteInfoLoop_error_origin
  (N : Hash -> Z -> string -> result ThresholdStateTuple) (h : Hash) (v : Z)
  (ds : list ConsensusDeployment) (vi : VoteInfo) (e : error) :
  voteInfoLoop N h v ds vi = Err e ->
  exists d, d ∈ ds /\ N h v (voteId d) = Err e.
Proof.
  revert vi. induction ds as [|d ds IH]; intros vi H; simpl in H; [discriminate|].
  destruct (N h v (voteId d)) as [st | e' | m] eqn:HN.
  - destruct (IH _ H) as [d' [Hin Hd']]. exists d'. split; [right; exact Hin | exact Hd'].
  - exists d. split; [left | congruence].
  - discriminate.
Qed.

(** C10, as the code has it: with no deployments for the version the
    result is [VoteVersionError version]; with deployments the result is
    exactly that of the loop over them, so the second test of [ok] never
    fires and every error returned then, a hash error included, is one that
    [NextThresholdState] returned for one of the deployments. *)
Theorem GetVoteInfo_errors
  (D : gmap Z (list ConsensusDeployment))
  (N : Hash -> Z -> string -> result ThresholdStateTuple) (h : Hash) (v : Z) :
  match D !! v with
  | None => GetVoteInfo D N h v = Err (VoteVersionError v)
  | Some ds =>
      GetVoteInfo D N h v
      = voteInfoLoop N h v ds {| Agendas := []; AgendaStatus := [] |}
      /\ forall e, GetVoteInfo D N h v = Err e ->
                   exists d, d ∈ ds /\ N h v (voteId d) = Err e
  end.
Proof.
  unfold GetVoteInfo. destruct (D !! v) as [ds|]; simpl; [|reflexivity].
  split; [reflexivity|]. intros e He.
  eapply voteInfoLoop_error_origin. exact He.
Qed.

(** C10, the claim as stated fails: a hash error of the threshold-state
    query is returned unchanged although deployments exist. *)
Lemma GetVoteInfo_returns_HashError :
  exampleDeployments !! 4 <> None /\
  GetVoteInfo exampleDeployments unknownHashThreshold 7 4 = Err (HashError 7).
Proof. split; [discriminate | reflexivity]. Qed.

(** ** [TipGeneration] *)

Lemma chainTipsByHeight_empty : chainTipsByHeight emptyIndex.
Proof. intros h n H. simpl in H. rewrite lookup_empty in H. inversion H. Qed.

Lemma chainTipsByHeight_addNode (bi bi' : blockIndex) (n : blockNode) :
  chainTipsByHeight bi -> addNode bi n = Some bi' -> chainTipsByHeight bi'.
Proof.
  intros Hinv Hadd. unfold addNode in Hadd.
  destruct (entries bi !! hash n) eqn:Hfresh; [discriminate|].
  injection Hadd as <-. intros h m Hm. simpl in *.
  destruct (decide (height n = h)) as [<- | Hne].
  - rewrite lookup_insert_eq in Hm. simpl in Hm.
    apply elem_of_app in Hm as [Hm | Hm].
    + destruct (Hinv _ _ Hm) as [Hh He]. split; [exact Hh|].
      rewrite lookup_insert_ne; [exact He|]. intros Heq. rewrite Heq in Hfresh. congruence.
    + apply list_elem_of_singleton in Hm as ->. split; [reflexivity|].
      apply lookup_insert_eq.
  - rewrite lookup_insert_ne in Hm by exact Hne.
    destruct (Hinv _ _ Hm) as [Hh He]. split; [exact Hh|].
    rewrite lookup_insert_ne; [exact He|]. intros Heq. rewrite Heq in Hfresh. congruence.
Qed.

Lemma chainTipsByHeight_addNodes (l : list blockNode) (bi : blockIndex) :
  chainTipsByHeight bi -> chainTipsByHeight (addNodes bi l).
Proof.
  revert bi. induction l as [|n l IH]; intros bi H; simpl; [exact H|].
  apply IH. destruct (addNode bi n) as [bi'|] eqn:Hadd; simpl; [|exact H].
  eapply chainTipsByHeight_addNode; eauto.
Qed.

(** C4, as the code has it: [TipGeneration] returns the hashes of the
    entries recorded at the height of the tip, and so never the hash of an
    index entry of another height. *)
Theorem TipGeneration_tip_height_only (bi : blockIndex) (c : chainView)
  (tip : blockNode) :
  Tip c = Some tip ->
  chainTipsByHeight bi ->
  TipGeneration bi c = Some (map hash (default [] (chainTips bi !! height tip))) /\
  forall l n, TipGeneration bi c = Some l ->
              entries bi !! hash n = Some n ->
              height n <> height tip -> hash n ∉ l.
Proof.
  intros Htip Hinv. unfold TipGeneration. rewrite Htip. split; [reflexivity|].
  intros l n Hl Hn Hh Hin. injection Hl as <-.
  apply list_elem_of_fmap in Hin as [m [Hhash Hm]].
  destruct (Hinv _ _ Hm) as [Hmh Hme].
  rewrite <- Hhash in Hme. rewrite Hn in Hme. injection Hme as ->.
  contradiction.
Qed.

Lemma TipGeneration_tip_height_only_witness :
  Tip scenario2View = Some nodeB3 /\
  chainTipsByHeight scenario2Index /\
  TipGeneration scenario2Index scenario2View
  = Some (map hash (default [] (chainTips scenario2Index !! height nodeB3))) /\
  forall l n, TipGeneration scenario2Index scenario2View = Some l ->
              entries scenario2Index !! hash n = Some n ->
              height n <> height nodeB3 -> hash n ∉ l.
Proof.
  assert (Ht : Tip scenario2View = Some nodeB3) by reflexivity.
  assert (Hc : chainTipsByHeight scenario2Index)
    by apply chainTipsByHeight_addNodes, chainTipsByHeight_empty.
  split; [exact Ht|]. split; [exact Hc|].
  exact (TipGeneration_tip_height_only scenario2Index scenario2View nodeB3 Ht Hc).
Defined.

(** C4, the claim as stated fails: in scenario 2 the result holds the hash
    of B3 only; B2a, of height 2, is not part of it. *)
Lemma TipGeneration_scenario2 :
  entries scenario2Index !! hash nodeB2a = Some nodeB2a /\
  Tip scenario2View = Some nodeB3 /\
  TipGeneration scenario2Index scenario2View = Some [hash nodeB3] /\
  hash nodeB2a ∉ [hash nodeB3].
Proof.
  split; [vm_compute; reflexivity|]. split; [reflexivity|].
  split; [vm_compute; reflexivity|].
  intros H. apply list_elem_of_singleton in H. discriminate.
Qed.

(** ** [locateInventory] *)

Lemma Contains_tip (c : chainView) (tip : blockNode) :
  Tip c = Some tip -> height tip = Z.of_nat (length c) - 1 ->
  Contains c tip = true.
Proof.
  intros Htip Hh. unfold Contains, NodeByHeight.
  assert (Hlen : (0 < length c)%nat).
  { destruct c; [discriminate | simpl; lia]. }
  destruct (Z.ltb_spec (height tip) 0) as [Hneg | _]; [lia|].
  unfold Tip in Htip. rewrite last_lookup in Htip.
  replace (Z.to_nat (height tip)) with (Nat.pred (length c)) by lia.
  rewrite Htip. apply node_eqb_refl.
Qed.

Lemma Next_tip (c : chainView) (tip : blockNode) :
  Tip c = Some tip -> height tip = Z.of_nat (length c) - 1 ->
  Next c (Some tip) = None.
Proof.
  intros Htip Hh. unfold Next. rewrite (Contains_tip c tip Htip Hh).
  unfold NodeByHeight.
  destruct (Z.ltb_spec (height tip + 1) 0) as [_ | _]; [reflexivity|].
  apply lookup_ge_None. lia.
Qed.

(** C3, as the code has it: a locator that starts with the hash of the tip
    resolves to the block after the tip, of which there is none, so the
    result is nil with a total of 0, whatever the stop hash and the
    maximum. *)
Theorem locateInventory_tip_locator (bi : blockIndex) (c : chainView)
  (tip : blockNode) (rest : list Hash) (hashStop : Hash) (maxEntries : Z) :
  Tip c = Some tip ->
  height tip = Z.of_nat (length c) - 1 ->
  LookupNode bi (hash tip) = Some tip ->
  locateInventory bi c (hash tip :: rest) hashStop maxEntries = Some (None, 0).
Proof.
  intros Htip Hh Hlook. unfold locateInventory. simpl.
  rewrite Hlook, (Contains_tip c tip Htip Hh), (Next_tip c tip Htip Hh).
  reflexivity.
Qed.

Lemma locateInventory_tip_locator_witness :
  Tip shortView = Some nodeB1 /\
  height nodeB1 = Z.of_nat (length shortView) - 1 /\
  LookupNode shortIndex (hash nodeB1) = Some nodeB1 /\
  locateInventory shortIndex shortView (hash nodeB1 :: [hash nodeG])
    (hash nodeB1) 500 = Some (None, 0).
Proof.
  assert (H1 : Tip shortView = Some nodeB1) by reflexivity.
  assert (H2 : height nodeB1 = Z.of_nat (length shortView) - 1) by reflexivity.
  assert (H3 : LookupNode shortIndex (hash nodeB1) = Some nodeB1)
    by (vm_compute; reflexivity).
  split; [exact H1|]. split; [exact H2|]. split; [exact H3|].
  exact (locateInventory_tip_locator shortIndex shortView nodeB1 [hash nodeG]
           (hash nodeB1) 500 H1 H2 H3).
Defined.

(** C3, the claim as stated fails: with the locator of the tip B1 and the
    stop hash of B1 the result is not B1 with a total of 1. *)
Lemma locateInventory_tip_not_returned :
  Tip shortView = Some nodeB1 /\
  locateInventory shortIndex shortView [hash nodeB1; hash nodeG] (hash nodeB1) 500
  <> Some (Some nodeB1, 1).
Proof. split; [reflexivity | vm_compute; discriminate]. Qed.

(** ** [HeightRange] *)

Lemma viewLinked_tip_height (c : chainView) (tip : blockNode) :
  viewLinked c -> Tip c = Some tip -> height tip = Z.of_nat (length c) - 1.
Proof.
  intros [Hh _] Htip. unfold Tip in Htip. rewrite last_lookup in Htip.
  assert (Hlen : (0 < length c)%nat).
  { destruct c; [discriminate | simpl; lia]. }
  rewrite (Hh _ _ Htip). lia.
Qed.

Lemma fillHashes_linked (c : chainView) (s : nat) (e : Z) :
  viewLinked c ->
  forall (k : nat) (i : Z) (iter : option blockNode) (pre suf : list Hash),
    length pre = k ->
    (s + k <= length c)%nat ->
    e - i = Z.of_nat k ->
    (k <> 0%nat -> iter = c !! (s + k - 1)%nat) ->
    fillHashes k i e iter (pre ++ suf)
    = Some (map hash (take k (drop s c)) ++ suf).
Proof.
  intros [Hh [Hp _]]. induction k as [|k IH]; intros i iter pre suf Hlen Hbound He Hiter.
  - destruct pre; [|discriminate]. reflexivity.
  - simpl. rewrite Hiter by discriminate.
    replace (s + S k - 1)%nat with (s + k)%nat by lia.
    destruct (lookup_lt_is_Some_2 c (s + k)%nat ltac:(lia)) as [n Hn].
    rewrite Hn.
    destruct pre as [|x pre' _] using rev_ind; [discriminate|].
    rewrite length_app in Hlen. simpl in Hlen.
    replace (Z.to_nat (e - i - 1)) with (length pre' + 0)%nat by lia.
    rewrite <- (app_assoc pre' [x] suf).
    rewrite (insert_app_r pre' ([x] ++ suf) 0 (hash n)). simpl.
    rewrite (IH (i + 1) (parent n) pre' (hash n :: suf)); try lia.
    + rewrite (take_S_r (drop s c) k n) by (rewrite lookup_drop; exact Hn).
      rewrite map_app. simpl. rewrite <- app_assoc. reflexivity.
    + intros Hk. destruct k as [|k']; [contradiction|].
      replace (s + S k' - 1)%nat with (s + k')%nat by lia.
      destruct (lookup_lt_is_Some_2 c (s + k')%nat ltac:(lia)) as [m Hm].
      rewrite Hm. apply (Hp (s + k')%nat m n Hm).
      replace (S (s + k')) with (s + S k')%nat by lia. exact Hn.
Qed.

(** C9: [HeightRange] fails exactly on a negative start or an end below
    the start; it is empty for equal heights and for a start above the
    tip; otherwise it is the main-chain hashes of heights
    [startHeight .. min endHeight (tip.height + 1) - 1], ascending. *)
Theorem HeightRange_spec (c : chainView) (tip : blockNode) (s e : Z) :
  viewLinked c ->
  Tip c = Some tip ->
  ((exists err, HeightRange c s e = Err err) <-> (s < 0 \/ e < s)) /\
  (0 <= s -> s = e -> HeightRange c s e = Ok []) /\
  (0 <= s <= e -> height tip < s -> HeightRange c s e = Ok []) /\
  (0 <= s < e -> s <= height tip ->
   HeightRange c s e
   = Ok (map hash (take (Z.to_nat (Z.min e (height tip + 1) - s))
                        (drop (Z.to_nat s) c)))).
Proof.
  intros Hl Htip.
  pose proof (viewLinked_tip_height c tip Hl Htip) as Hth.
  assert (Hmain : 0 <= s < e -> s <= height tip ->
    HeightRange c s e
    = Ok (map hash (take (Z.to_nat (Z.min e (height tip + 1) - s))
                         (drop (Z.to_nat s) c)))).
  { intros Hse Hst. unfold HeightRange.
    destruct (Z.ltb_spec s 0); [lia|]. destruct (Z.ltb_spec e s); [lia|].
    destruct (Z.eqb_spec s e); [lia|]. rewrite Htip.
    destruct (Z.gtb_spec s (height tip)); [lia|].
    set (e' := if e >? height tip + 1 then height tip + 1 else e).
    assert (He' : e' = Z.min e (height tip + 1)).
    { subst e'. destruct (Z.gtb_spec e (height tip + 1)); lia. }
    rewrite <- He'.
    pose proof (fillHashes_linked c (Z.to_nat s) e' Hl (Z.to_nat (e' - s)) s
                  (NodeByHeight c (e' - 1))
                  (replicate (Z.to_nat (e' - s)) zeroHash) []) as Hfill.
    rewrite !app_nil_r in Hfill. rewrite Hfill; [reflexivity | | lia | lia |].
    - apply length_replicate.
    - intros _. unfold NodeByHeight.
      destruct (Z.ltb_spec (e' - 1) 0); [lia|]. f_equal. lia. }
  split; [|split; [|split]].
  - unfold HeightRange. split.
    + intros [err Herr].
      destruct (Z.ltb_spec s 0); [lia|]. destruct (Z.ltb_spec e s); [lia|].
      exfalso. destruct (Z.eqb_spec s e); [discriminate|].
      assert (Hse : 0 <= s < e) by lia.
      rewrite Htip in Herr.
      destruct (Z.gtb_spec s (height tip)); [discriminate|].
      specialize (Hmain Hse ltac:(lia)). unfold HeightRange in Hmain.
      destruct (Z.ltb_spec s 0); [lia|]. destruct (Z.ltb_spec e s); [lia|].
      destruct (Z.eqb_spec s e); [lia|]. rewrite Htip in Hmain.
      destruct (Z.gtb_spec s (height tip)); [lia|].
      rewrite Hmain in Herr. discriminate.
    + intros [Hs | He].
      * destruct (Z.ltb_spec s 0); [eauto | lia].
      * destruct (Z.ltb_spec s 0); [eauto|]. destruct (Z.ltb_spec e s); [eauto | lia].
  - intros Hs Heq. unfold HeightRange.
    destruct (Z.ltb_spec s 0); [lia|]. destruct (Z.ltb_spec e s); [lia|].
    destruct (Z.eqb_spec s e); [reflexivity | lia].
  - intros Hse Hst. unfold HeightRange.
    destruct (Z.ltb_spec s 0); [lia|]. destruct (Z.ltb_spec e s); [lia|].
    destruct (Z.eqb_spec s e); [reflexivity|]. rewrite Htip.
    destruct (Z.gtb_spec s (height tip)); [reflexivity | lia].
  - exact Hmain.
Qed.

Lemma scenario2View_linked : viewLinked scenario2View.
Proof.
  split; [|split].
  - intros i n H.
    do 4 (destruct i as [|i]; [injection H as <-; reflexivity|]). discriminate.
  - intros i n m Hn Hm.
    do 3 (destruct i as [|i];
          [injection Hn as <-; injection Hm as <-; reflexivity|]).
    destruct i; discriminate.
  - intros n H. injection H as <-. reflexivity.
Qed.

Lemma HeightRange_spec_witness :
  viewLinked scenario2View /\
  Tip scenario2View = Some nodeB3 /\
  ((exists err, HeightRange scenario2View 1 10 = Err err) <-> (1 < 0 \/ 10 < 1)) /\
  (0 <= 1 -> 1 = 10 -> HeightRange scenario2View 1 10 = Ok []) /\
  (0 <= 1 <= 10 -> height nodeB3 < 1 -> HeightRange scenario2View 1 10 = Ok []) /\
  (0 <= 1 < 10 -> 1 <= height nodeB3 ->
   HeightRange scenario2View 1 10
   = Ok (map hash (take (Z.to_nat (Z.min 10 (height nodeB3 + 1) - 1))
                        (drop (Z.to_nat 1) scenario2View)))).
Proof.
  split; [exact scenario2View_linked|]. split; [reflexivity|].
  exact (HeightRange_spec scenario2View nodeB3 1 10 scenario2View_linked eq_refl).
Defined.

Example HeightRange_scenario2 :
  HeightRange scenario2View 1 10 = Ok [101; 102; 103].
Proof. reflexivity. Qed.

(** ** [pruneStakeNodes] *)

Lemma walkBack_lookup (k : nat) (n : blockNode) :
  walkBack k (Some n) = (n :: ancestors n) !! k.
Proof.
  revert n. induction k as [|k IH]; intros n; [reflexivity|].
  simpl. destruct n as [h [p|] ht w b s]; simpl.
  - apply IH.
  - destruct k; reflexivity.
Qed.

Lemma ancestors_drop (k : nat) (n m : blockNode) :
  (n :: ancestors n) !! k = Some m -> ancestors m = drop k (ancestors n).
Proof.
  revert n. induction k as [|k IH]; intros n H.
  - injection H as ->. reflexivity.
  - destruct n as [h [p|] ht w b s]; simpl in H |- *.
    + apply IH. exact H.
    + destruct k; discriminate.
Qed.

Lemma pushFront_reverse (l acc : list blockNode) :
  foldl (fun l' n => n :: l') acc l = reverse l ++ acc.
Proof.
  revert acc. induction l as [|x l IH]; intros acc; simpl; [reflexivity|].
  rewrite IH, reverse_cons, <- app_assoc. reflexivity.
Qed.

Lemma existsb_reverse (f : blockNode -> bool) (l : list blockNode) :
  existsb f (reverse l) = existsb f l.
Proof.
  induction l as [|x l IH]; [reflexivity|].
  rewrite reverse_cons, existsb_app, IH. simpl.
  rewrite orb_false_r. apply orb_comm.
Qed.

Lemma pruneLoop_lookup (tip : blockNode) (l : list blockNode)
  (st : gmap Z stakeData) (h : Hash) :
  foldl (pruneOne (height tip)) st l !! h
  = if existsb (pruned tip h) l then Some prunedStakeData else st !! h.
Proof.
  revert st. induction l as [|x l IH]; intros st; simpl; [reflexivity|].
  rewrite IH. unfold pruneOne, pruned at 2.
  destruct (existsb (pruned tip h) l); [rewrite orb_true_r; reflexivity|].
  rewrite orb_false_r.
  destruct (Z.gtb (height x) (height tip - minMemoryNodes)).
  - rewrite andb_true_r. destruct (Z.eqb_spec (hash x) h) as [-> | Hne].
    + apply lookup_insert_eq.
    + apply lookup_insert_ne. exact Hne.
  - rewrite andb_false_r. reflexivity.
Qed.

(** C6, as the code has it: the entries whose transient fields are cleared
    are the ancestors of the tip that lie at least [minMemoryStakeNodes]
    parent steps behind it (all of them, down to genesis) and whose height
    is above [tip.height - minMemoryNodes]; the fields of every other entry
    are left as they were. *)
Theorem pruneStakeNodes_spec (c : chainView) (st : gmap Z stakeData) (h : Hash) :
  pruneStakeNodes c st !! h
  = match Tip c with
    | None => st !! h
    | Some tip =>
        if existsb (pruned tip h) (drop 287 (ancestors tip))
        then Some prunedStakeData
        else st !! h
    end.
Proof.
  unfold pruneStakeNodes.
  change (Z.to_nat (minMemoryStakeNodes - 1)) with 287%nat.
  destruct (Tip c) as [tip|]; [|reflexivity].
  rewrite walkBack_lookup.
  destruct ((tip :: ancestors tip) !! 287%nat) as [p|] eqn:Hp.
  - rewrite <- (ancestors_drop _ _ _ Hp).
    destruct (parent p) as [q|] eqn:Hq.
    + rewrite pushFront_reverse, app_nil_r, pruneLoop_lookup, existsb_reverse.
      reflexivity.
    + destruct p as [h' [q|] ht w b s]; [discriminate|]. reflexivity.
  - apply lookup_ge_None in Hp. simpl in Hp.
    rewrite drop_ge by lia. reflexivity.
Qed.

(** C6, the claim as stated fails: on a chain of height 300 the genesis
    entry, 299 parent steps behind the parent of the tip and thus not
    among the entries within 288 steps of it, has its loaded transient
    fields cleared. *)
Lemma pruneStakeNodes_clears_beyond_288 :
  let tip := chainOfHeight 300 in
  let g := chainOfHeight 0 in
  let st := stakeOf (tip :: ancestors tip) in
  Tip (viewOf tip) = Some tip /\
  existsb (node_eqb g) (take 289 (ancestors tip)) = false /\
  st !! hash g = Some loadedStakeData /\
  pruneStakeNodes (viewOf tip) st !! hash g = Some prunedStakeData.
Proof. vm_compute. repeat split; reflexivity. Qed.

(** ** [getReorganizeNodes] *)

Lemma sidePath_unfold (c : chainView) (n : blockNode) :
  sidePath c n
  = if Contains c n then []
    else n :: match parent n with
              | Some p => sidePath c p
              | None => []
              end.
Proof. destruct n as [h [p|] ht w b s]; reflexivity. Qed.

Lemma FindFork_unfold (c : chainView) (n : blockNode) :
  FindFork c n
  = if Contains c n then Some n
    else match parent n with
         | Some p => FindFork c p
         | None => None
         end.
Proof. destruct n as [h [p|] ht w b s]; reflexivity. Qed.

Lemma FindFork_Contains (c : chainView) (n f : blockNode) :
  FindFork c n = Some f -> Contains c f = true.
Proof.
  induction n as [n Hn | n p Hn IH] using blockNode_parent_ind;
    rewrite FindFork_unfold, Hn; destruct (Contains c n) eqn:Hc; intros H;
    try discriminate.
  - injection H as <-. exact Hc.
  - injection H as <-. exact Hc.
  - apply IH. exact H.
Qed.

Lemma collectAttach_unfold (bi : blockIndex) (fork : option blockNode)
  (n : blockNode) (acc : list blockNode) :
  collectAttach bi fork n acc
  = if onode_eqb (Some n) fork then (bi, Some acc)
    else if KnownInvalid (NodeStatus bi n) then
      (foldl (fun bi' dn => SetStatusFlags bi' dn statusInvalidAncestor) bi acc, None)
    else match parent n with
         | Some p => collectAttach bi fork p (n :: acc)
         | None => (bi, Some (n :: acc))
         end.
Proof. destruct n as [h [p|] ht w b s]; reflexivity. Qed.

(** The walk stops at the first known invalid entry of the side path and
    flags what it has collected. *)
Lemma collectAttach_invalid (bi : blockIndex) (c : chainView) (f : blockNode) :
  forall (n : blockNode) (acc pre : list blockNode) (bad : blockNode)
         (post : list blockNode),
    FindFork c n = Some f ->
    sidePath c n = pre ++ bad :: post ->
    Forall (fun d => KnownInvalid (NodeStatus bi d) = false) pre ->
    KnownInvalid (NodeStatus bi bad) = true ->
    collectAttach bi (Some f) n acc
    = (foldl (fun bi' dn => SetStatusFlags bi' dn statusInvalidAncestor) bi
             (reverse pre ++ acc), None).
Proof.
  induction n as [n Hn | n p Hn IH] using blockNode_parent_ind;
    intros acc pre bad post Hfork Hpath Hpre Hbad;
    rewrite FindFork_unfold in Hfork; rewrite sidePath_unfold in Hpath;
    rewrite collectAttach_unfold; rewrite Hn in *;
    destruct (Contains c n) eqn:Hc;
    try (destruct pre; discriminate); try discriminate.
  assert (Hnf : node_eqb n f = false).
  { apply node_eqb_neq. intros ->.
    rewrite (FindFork_Contains _ _ _ Hfork) in Hc. discriminate. }
  simpl. rewrite Hnf.
  destruct pre as [|x pre].
  - simpl in Hpath. injection Hpath as <- _. rewrite Hbad. reflexivity.
  - simpl in Hpath. injection Hpath as <- Hpath.
    apply Forall_cons in Hpre as [Hx Hpre]. rewrite Hx.
    rewrite (IH (n :: acc) pre bad post Hfork Hpath Hpre Hbad).
    rewrite reverse_cons, <- app_assoc. reflexivity.
Qed.

(** C7: when an entry of the path from the node down to, and excluding,
    the fork point is known invalid, both lists come back empty and every
    entry of the path above the first invalid one, that is every
    descendant of it that the walk collected, carries [InvalidAncestor]. *)
Theorem getReorganizeNodes_invalid_path (bi : blockIndex) (c : chainView)
  (node f : blockNode) (pre : list blockNode) (bad : blockNode)
  (post : list blockNode) :
  FindFork c node = Some f ->
  sidePath c node = pre ++ bad :: post ->
  Forall (fun d => KnownInvalid (NodeStatus bi d) = false) pre ->
  KnownInvalid (NodeStatus bi bad) = true ->
  exists bi',
    getReorganizeNodes bi c (Some node) = Some (bi', ([], [])) /\
    forall d, d ∈ pre ->
              hasFlag (NodeStatus bi' d) statusInvalidAncestor = true.
Proof.
  intros Hfork Hpath Hpre Hbad. unfold getReorganizeNodes.
  pose proof Hfork as Hfork'. pose proof Hpath as Hpath'.
  rewrite FindFork_unfold in Hfork'. rewrite sidePath_unfold in Hpath'.
  destruct (Contains c node) eqn:Hc; [destruct pre; discriminate|].
  destruct (parent node) as [p|] eqn:Hp; [|discriminate].
  destruct (KnownInvalid (NodeStatus bi p)) eqn:Hpinv.
  - eexists. split; [reflexivity|]. intros d Hd.
    destruct pre as [|x pre]; [inversion Hd|].
    simpl in Hpath'. injection Hpath' as <- Hpath'.
    destruct pre as [|y pre].
    + apply list_elem_of_singleton in Hd as ->.
      apply SetStatusFlags_sets. discriminate.
    + exfalso. rewrite sidePath_unfold in Hpath'.
      destruct (Contains c p); [discriminate|].
      simpl in Hpath'. injection Hpath' as <- _.
      apply Forall_cons in Hpre as [_ Hpre]. apply Forall_cons in Hpre as [Hy _].
      congruence.
  - rewrite Hfork.
    rewrite (collectAttach_invalid bi c f node [] pre bad post Hfork Hpath Hpre Hbad).
    eexists. split; [reflexivity|]. intros d Hd.
    apply foldl_SetStatusFlags_sets; [discriminate|].
    rewrite app_nil_r. apply elem_of_reverse. exact Hd.
Qed.

Lemma getReorganizeNodes_invalid_path_witness :
  FindFork scenario2View nodeB4a = Some nodeB1 /\
  sidePath scenario2View nodeB4a = [nodeB4a; nodeB3a] ++ nodeB2a :: [] /\
  Forall (fun d => KnownInvalid (NodeStatus invalidSideIndex d) = false)
         [nodeB4a; nodeB3a] /\
  KnownInvalid (NodeStatus invalidSideIndex nodeB2a) = true /\
  exists bi',
    getReorganizeNodes invalidSideIndex scenario2View (Some nodeB4a)
    = Some (bi', ([], [])) /\
    forall d, d ∈ [nodeB4a; nodeB3a] ->
              hasFlag (NodeStatus bi' d) statusInvalidAncestor = true.
Proof.
  assert (H1 : FindFork scenario2View nodeB4a = Some nodeB1) by reflexivity.
  assert (H2 : sidePath scenario2View nodeB4a = [nodeB4a; nodeB3a] ++ nodeB2a :: [])
    by reflexivity.
  assert (H3 : Forall (fun d => KnownInvalid (NodeStatus invalidSideIndex d) = false)
                      [nodeB4a; nodeB3a]).
  { repeat constructor; vm_compute; reflexivity. }
  assert (H4 : KnownInvalid (NodeStatus invalidSideIndex nodeB2a) = true)
    by (vm_compute; reflexivity).
  split; [exact H1|]. split; [exact H2|]. split; [exact H3|]. split; [exact H4|].
  exact (getReorganizeNodes_invalid_path invalidSideIndex scenario2View nodeB4a
           nodeB1 [nodeB4a; nodeB3a] nodeB2a [] H1 H2 H3 H4).
Defined.


Lemma fetchBlockByNode_state (E : Collaborators) (n : blockNode) (b b' : BlockChain)
  (r : result Block) :
  fetchBlockByNode E n b = (b', r) -> b' = b.
Proof.
  unfold fetchBlockByNode, bind, get, ret, liftR.
  destruct (mainchainBlockCache b !! hash n); [congruence|].
  destruct (orphans (pool b) !! hash n); congruence.
Qed.

Lemma fetchMainChainBlockByNode_state (E : Collaborators) (n : option blockNode)
  (b b' : BlockChain) (r : result Block) :
  fetchMainChainBlockByNode E n b = (b', r) -> b' = b.
Proof.
  unfold fetchMainChainBlockByNode, bind, get, ret, liftR, deref, fail, panicf.
  destruct n as [n|]; simpl; [|congruence].
  destruct (negb (Contains (bestChain b) n)); [congruence|].
  destruct (mainchainBlockCache b !! hash n); congruence.
Qed.

(** ** The state monad: what the read-only steps leave unchanged *)

(** Peel the outermost [bind] of a run recorded in [H]. *)
Ltac bind_step H :=
  unfold bind at 1 in H;
  match type of H with
  | (match ?m ?b with _ => _ end) = _ =>
      let b' := fresh "b'" in
      let r := fresh "r" in
      let Hm := fresh "Hm" in
      destruct (m b) as [b' r] eqn:Hm; destruct r; try discriminate
  end.

Lemma liftR_state {A : Type} (o : outcome A) (b b' : BlockChain) (r : result A) :
  liftR o b = (b', r) -> b' = b.
Proof. unfold liftR. congruence. Qed.

Lemma deref_state {A : Type} (o : option A) (b b' : BlockChain) (r : result A) :
  deref o b = (b', r) -> b' = b.
Proof. destruct o; unfold deref, ret, panicf; congruence. Qed.

(** ** [forceHeadReorganization] *)

(** What a successful validation establishes. *)
Lemma forceHeadValidate_ok (E : Collaborators) (fb nb : Hash) (b b1 : BlockChain)
  (target : blockNode) :
  forceHeadValidate E fb nb b = (b1, Ok target) ->
  exists former,
    Tip (bestChain b) = Some former /\ hash former = fb /\ fb <> nb /\
    LookupNode (index b) nb = Some target /\
    onode_eqb (parent target) (parent former) = true /\
    KnownInvalid (NodeStatus (index b) target) = false /\
    (b1 = b \/ b1 = withIndex b (SetStatusFlags (index b) target statusValid)).
Proof.
  unfold forceHeadValidate. intros H.
  destruct (Z.eqb_spec fb nb) as [|Hne]; [discriminate|].
  unfold bind at 1, get at 1 in H. unfold bind at 1, deref at 1 in H.
  destruct (Tip (bestChain b)) as [former|] eqn:Htip; [|discriminate].
  unfold ret at 1 in H.
  destruct (Z.eqb_spec (hash former) fb) as [Hfb|]; [|discriminate]. simpl in H.
  destruct (LookupNode (index b) nb) as [t|] eqn:Hlook; [|discriminate].
  destruct (onode_eqb (parent t) (parent former)) eqn:Hpar; [|discriminate].
  simpl in H.
  destruct (KnownInvalid (NodeStatus (index b) t)) eqn:Hinv; [discriminate|].
  destruct (KnownValid (NodeStatus (index b) t)) eqn:Hval; simpl in H.
  - unfold bind, ret in H. injection H as <- <-.
    exists former. auto 10.
  - bind_step H. unfold ret in H. injection H as <- <-.
    exists former. repeat (split; [solve [auto]|]).
    bind_step Hm. apply fetchBlockByNode_state in Hm0 as ->.
    bind_step Hm. apply deref_state in Hm0 as ->.
    bind_step Hm. apply fetchBlockByNode_state in Hm0 as ->.
    bind_step Hm. apply fetchMainChainBlockByNode_state in Hm0 as ->.
    bind_step Hm. apply liftR_state in Hm0 as ->.
    destruct (countSpentOutputs E _ _); [|discriminate].
    destruct (negb _); [discriminate|].
    bind_step Hm. apply liftR_state in Hm0 as ->.
    destruct (checkBlockSanity E _); [discriminate|].
    destruct (checkBlockContext E _ _ _); [discriminate|].
    destruct (checkConnectBlock E _ _ _ _ _ _ _).
    + unfold setStatusFlags, modify in Hm. injection Hm as <-. right. reflexivity.
    + bind_step Hm; discriminate.
    + discriminate.
Qed.

Lemma viewLinked_tip_parent (c : chainView) (former p : blockNode) :
  viewLinked c -> Tip c = Some former -> parent former = Some p ->
  height former = height p + 1 /\ Contains c p = true /\ Contains c former = true.
Proof.
  intros Hl Htip Hp.
  pose proof (viewLinked_tip_height c former Hl Htip) as Hh.
  destruct Hl as [Hh' [Hlink Hgen]].
  pose proof Htip as Hlast. unfold Tip in Hlast. rewrite last_lookup in Hlast.
  destruct (length c) as [|[|k]] eqn:Hlen.
  - destruct c; discriminate.
  - simpl in Hlast. rewrite (Hgen _ Hlast) in Hp. discriminate.
  - simpl in Hlast.
    destruct (lookup_lt_is_Some_2 c k ltac:(lia)) as [q Hq].
    pose proof (Hlink _ _ _ Hq Hlast) as Hpq. rewrite Hp in Hpq. injection Hpq as ->.
    pose proof (Hh' _ _ Hq) as Hhq.
    split; [lia|]. split.
    + unfold Contains, NodeByHeight. destruct (Z.ltb_spec (height q) 0); [lia|].
      rewrite Hhq, Nat2Z.id. rewrite Hq. apply node_eqb_refl.
    + apply Contains_tip; [exact Htip | lia].
Qed.

Lemma collectDetach_unfold (fork : option blockNode) (n : blockNode) :
  collectDetach fork n
  = if onode_eqb (Some n) fork then []
    else n :: match parent n with
              | Some p => collectDetach fork p
              | None => []
              end.
Proof. destruct n as [h [p|] ht w b s]; reflexivity. Qed.

Lemma getReorganizeNodes_sibling (bi : blockIndex) (c : chainView)
  (former target p : blockNode) :
  viewLinked c -> Tip c = Some former ->
  parent former = Some p -> parent target = Some p ->
  target <> former -> height target = height p + 1 ->
  KnownInvalid (NodeStatus bi p) = false ->
  KnownInvalid (NodeStatus bi target) = false ->
  getReorganizeNodes bi c (Some target) = Some (bi, ([former], [target])).
Proof.
  intros Hl Htip Hpf Hpt Hne Hht Hpinv Htinv.
  destruct (viewLinked_tip_parent c former p Hl Htip Hpf) as [Hhf [Hcp Hcf]].
  assert (Hct : Contains c target = false).
  { unfold Contains in Hcf |- *. rewrite Hht, <- Hhf.
    destruct (NodeByHeight c (height former)) as [m|]; [|reflexivity].
    apply node_eqb_eq in Hcf as ->. apply node_eqb_neq. congruence. }
  assert (Htp : node_eqb target p = false).
  { apply node_eqb_neq. intros ->. lia. }
  assert (Hfp : node_eqb former p = false).
  { apply node_eqb_neq. intros ->. lia. }
  unfold getReorganizeNodes. rewrite Hpt, Hpinv.
  rewrite (FindFork_unfold c target), Hct, Hpt, (FindFork_unfold c p), Hcp.
  rewrite collectAttach_unfold. simpl. rewrite Htp, Htinv, Hpt.
  rewrite collectAttach_unfold. simpl. rewrite node_eqb_refl.
  rewrite Htip, collectDetach_unfold. simpl. rewrite Hfp, Hpf.
  rewrite collectDetach_unfold. simpl. rewrite node_eqb_refl. reflexivity.
Qed.

Lemma withIndex_same (b : BlockChain) : withIndex b (index b) = b.
Proof. destruct b. reflexivity. Qed.

(** C1: once the checks and the validation of the target have passed, the
    forced reorganization is the standard reorganization run with the
    former best entry as the one node to detach and the target as the one
    node to attach: [getReorganizeNodes] yields (detach, attach) =
    ([former], [target]), and the two locals named the other way round at
    the call site hand them to [reorganizeChain] in parameter order. *)
Theorem forceHeadReorganization_lists (E : Collaborators) (formerBest newBest : Hash)
  (b b1 : BlockChain) (target p : blockNode) :
  forceHeadValidate E formerBest newBest b = (b1, Ok target) ->
  viewLinked (bestChain b) ->
  indexKeyed (index b) ->
  parent target = Some p ->
  height target = height p + 1 ->
  KnownInvalid (NodeStatus (index b1) p) = false ->
  exists former,
    Tip (bestChain b) = Some former /\
    hash former = formerBest /\ hash target = newBest /\
    getReorganizeNodes (index b1) (bestChain b1) (Some target)
    = Some (index b1, ([former], [target])) /\
    forceHeadReorganization E formerBest newBest b
    = reorganizeAndFlush E [former] [target] b1.
Proof.
  intros Hval Hl Hkey Hpt Hht Hpinv.
  destruct (forceHeadValidate_ok E _ _ _ _ _ Hval)
    as [former [Htip [Hfb [Hne [Hlook [Hpar [Htinv Hb1]]]]]]].
  exists former.
  assert (Hnb : hash target = newBest) by (apply Hkey; exact Hlook).
  assert (Hpf : parent former = Some p).
  { rewrite Hpt in Hpar. destruct (parent former) as [q|]; [|discriminate].
    simpl in Hpar. apply node_eqb_eq in Hpar as ->. reflexivity. }
  assert (Hc1 : bestChain b1 = bestChain b) by (destruct Hb1 as [-> | ->]; reflexivity).
  assert (Htinv1 : KnownInvalid (NodeStatus (index b1) target) = false).
  { destruct Hb1 as [-> | ->]; [exact Htinv|]. simpl.
    rewrite NodeStatus_SetStatusFlags_same.
    unfold KnownInvalid in Htinv |- *.
    rewrite negb_false_iff, Z.eqb_eq in Htinv |- *.
    rewrite Z.land_lor_distr_l, Htinv. reflexivity. }
  assert (Hget : getReorganizeNodes (index b1) (bestChain b1) (Some target)
                 = Some (index b1, ([former], [target]))).
  { rewrite Hc1. apply (getReorganizeNodes_sibling _ _ former target p); auto.
    intros ->. congruence. }
  repeat (split; [assumption|]).
  unfold forceHeadReorganization, bind at 1. rewrite Hval.
  unfold forceHeadReorganize, bind at 1, get at 1.
  rewrite Hget. unfold bind at 1, deref, ret.
  unfold bind, modify. rewrite withIndex_same. reflexivity.
Qed.

Lemma indexKeyed_addNodes (l : list blockNode) (bi : blockIndex) :
  indexKeyed bi -> indexKeyed (addNodes bi l).
Proof.
  revert bi. induction l as [|n l IH]; intros bi H; simpl; [exact H|].
  apply IH. unfold addNode. destruct (entries bi !! hash n) eqn:Hn; simpl; [exact H|].
  intros h m Hm. simpl in Hm. destruct (decide (hash n = h)) as [<- | Hne].
  - rewrite lookup_insert_eq in Hm. congruence.
  - rewrite lookup_insert_ne in Hm by exact Hne. apply H. exact Hm.
Qed.

Lemma forceHeadReorganization_lists_witness :
  forceHeadValidate acceptAll 103 303 (chainWith siblingIndex)
  = (chainWith siblingIndex, Ok nodeB3s) /\
  viewLinked (bestChain (chainWith siblingIndex)) /\
  indexKeyed (index (chainWith siblingIndex)) /\
  parent nodeB3s = Some nodeB2 /\
  height nodeB3s = height nodeB2 + 1 /\
  KnownInvalid (NodeStatus (index (chainWith siblingIndex)) nodeB2) = false /\
  exists former,
    Tip (bestChain (chainWith siblingIndex)) = Some former /\
    hash former = 103 /\ hash nodeB3s = 303 /\
    getReorganizeNodes (index (chainWith siblingIndex))
      (bestChain (chainWith siblingIndex)) (Some nodeB3s)
    = Some (index (chainWith siblingIndex), ([former], [nodeB3s])) /\
    forceHeadReorganization acceptAll 103 303 (chainWith siblingIndex)
    = reorganizeAndFlush acceptAll [former] [nodeB3s] (chainWith siblingIndex).
Proof.
  assert (H1 : forceHeadValidate acceptAll 103 303 (chainWith siblingIndex)
               = (chainWith siblingIndex, Ok nodeB3s)) by (vm_compute; reflexivity).
  assert (H2 : viewLinked (bestChain (chainWith siblingIndex)))
    by exact scenario2View_linked.
  assert (H3 : indexKeyed (index (chainWith siblingIndex))).
  { apply (indexKeyed_addNodes [nodeG; nodeB1; nodeB2; nodeB3; nodeB2a; nodeB3s]).
    intros h n Hn. simpl in Hn. rewrite lookup_empty in Hn. discriminate. }
  assert (H4 : parent nodeB3s = Some nodeB2) by reflexivity.
  assert (H5 : height nodeB3s = height nodeB2 + 1) by reflexivity.
  assert (H6 : KnownInvalid (NodeStatus (index (chainWith siblingIndex)) nodeB2) = false)
    by (vm_compute; reflexivity).
  split; [exact H1|]. split; [exact H2|]. split; [exact H3|]. split; [exact H4|].
  split; [exact H5|]. split; [exact H6|].
  exact (forceHeadReorganization_lists acceptAll 103 303 (chainWith siblingIndex)
           (chainWith siblingIndex) nodeB3s nodeB2 H1 H2 H3 H4 H5 H6).
Defined.

(** The forced reorganization of scenario 2 to the sibling B3s runs to the
    end: B3 is disconnected, B3s connected and made the tip. *)
Example forceHeadReorganization_runs :
  let r := forceHeadReorganization acceptAll 103 303 (chainWith siblingIndex) in
  snd r = Ok tt /\
  Tip (bestChain (fst r)) = Some nodeB3s /\
  notified (fst r)
  = [NTReorganization 103 3 303 3; NTChainReorgStarted;
     NTBlockDisconnected 103 102; NTBlockConnected 303 102; NTChainReorgDone].
Proof. vm_compute. repeat split; reflexivity. Qed.


(** ** [connectBlock]: the two assertions *)

Section RuntimePanics.
Context {A B : Type}.

Lemma orp_ret (a : A) : onlyRuntimePanic (ret a).
Proof. intros b b' p H. discriminate. Qed.

Lemma orp_fail (e : error) : onlyRuntimePanic (@fail A e).
Proof. intros b b' p H. discriminate. Qed.

Lemma orp_panicRuntime : onlyRuntimePanic (@panicf A panicRuntime).
Proof. intros b b' p H. injection H as _ <-. reflexivity. Qed.

Lemma orp_liftR (o : outcome A) : onlyRuntimePanic (liftR o).
Proof. intros b b' p H. destruct o; unfold liftR in H; congruence. Qed.

Lemma orp_deref (o : option A) : onlyRuntimePanic (deref o).
Proof. destruct o; [apply orp_ret | apply orp_panicRuntime]. Qed.

Lemma orp_bind (m : M A) (k : A -> M B) :
  onlyRuntimePanic m -> (forall a, onlyRuntimePanic (k a)) ->
  onlyRuntimePanic (bind m k).
Proof.
  intros Hm Hk b b' p H. unfold bind in H.
  destruct (m b) as [b1 [a | e | q]] eqn:Hmb.
  - exact (Hk a _ _ _ H).
  - discriminate.
  - injection H as _ <-. exact (Hm _ _ _ Hmb).
Qed.

End RuntimePanics.

Lemma orp_get : onlyRuntimePanic get.
Proof. intros b b' p H. discriminate. Qed.

Lemma orp_modify (f : BlockChain -> BlockChain) : onlyRuntimePanic (modify f).
Proof. intros b b' p H. discriminate. Qed.

Create HintDb orp discriminated.
#[local] Hint Resolve orp_ret orp_fail orp_panicRuntime orp_liftR orp_deref
  orp_get orp_modify : orp.

Ltac orp :=
  repeat first
    [ apply orp_bind; [|intros ?]
    | progress auto with orp
    | match goal with
      | |- onlyRuntimePanic (if ?c then _ else _) => destruct c
      | |- onlyRuntimePanic (match ?x with _ => _ end) => destruct x
      end ].

Lemma orp_flushBlockIndex (E : Collaborators) : onlyRuntimePanic (flushBlockIndex E).
Proof. unfold flushBlockIndex. orp. Qed.

Lemma orp_fetchStake (E : Collaborators) (n : blockNode) :
  onlyRuntimePanic (fetchStake E n).
Proof. unfold fetchStake. orp. Qed.

Lemma orp_dbUpdate (E : Collaborators) (batch : list dbOp) :
  onlyRuntimePanic (dbUpdate E batch).
Proof. unfold dbUpdate. orp. Qed.

(** C8: [connectBlock] panics when the block does not extend the tip, and
    when the number of stxos differs from [countSpentOutputs]; when both
    preconditions hold neither assertion fires, whatever else happens in
    the call. *)
Theorem connectBlock_assertions (E : Collaborators) (node : blockNode)
  (blk parentBlock : Block) (view : UtxoViewpoint) (stxos : list spentTxOut)
  (b : BlockChain) (tip : blockNode) :
  Tip (bestChain b) = Some tip ->
  (PrevBlock blk <> hash tip ->
   connectBlock E node blk parentBlock view stxos b
   = (b, Panic panicNotExtendingBestChain)) /\
  (forall counted,
      PrevBlock blk = hash tip ->
      countSpentOutputs E blk parentBlock = Some counted ->
      Z.of_nat (length stxos) <> counted ->
      connectBlock E node blk parentBlock view stxos b = (b, Panic panicStxoCount)) /\
  (PrevBlock blk = hash tip ->
   countSpentOutputs E blk parentBlock = Some (Z.of_nat (length stxos)) ->
   forall b' p, connectBlock E node blk parentBlock view stxos b = (b', Panic p) ->
                p = panicRuntime).
Proof.
  intros Htip.
  assert (Hhead : forall k : blockNode -> M UtxoViewpoint,
            (b0 <-- get ;; t <-- deref (Tip (bestChain b0)) ;; k t) b = k tip b).
  { intros k. unfold bind, get. rewrite Htip. reflexivity. }
  unfold connectBlock. rewrite Hhead.
  split; [|split].
  - intros Hne. destruct (Z.eqb_spec (PrevBlock blk) (hash tip)); [contradiction|].
    reflexivity.
  - intros counted Heq Hc Hlen.
    destruct (Z.eqb_spec (PrevBlock blk) (hash tip)); [|contradiction].
    simpl. rewrite Hc.
    destruct (Z.eqb_spec (Z.of_nat (length stxos)) counted); [contradiction|].
    reflexivity.
  - intros Heq Hc.
    destruct (Z.eqb_spec (PrevBlock blk) (hash tip)); [|contradiction].
    simpl. rewrite Hc, Z.eqb_refl. simpl.
    assert (H : forall A (m : M A), onlyRuntimePanic m ->
              forall b' p, m b = (b', Panic p) -> p = panicRuntime).
    { intros A m Hm b' p. apply Hm. }
    apply H.
    pose proof (orp_flushBlockIndex E). pose proof (orp_fetchStake E).
    pose proof (orp_dbUpdate E).
    unfold sendNotification, dropStakeData, pushMainChainBlockCache.
    orp.
Qed.

Lemma connectBlock_assertions_witness :
  Tip (bestChain (chainWith siblingIndex)) = Some nodeB3 /\
  (PrevBlock (emptyBlockOf nodeB4) <> hash nodeB3 ->
   connectBlock acceptAll nodeB4 (emptyBlockOf nodeB4) (emptyBlockOf nodeB3)
     NewUtxoViewpoint [] (chainWith siblingIndex)
   = (chainWith siblingIndex, Panic panicNotExtendingBestChain)) /\
  (forall counted,
      PrevBlock (emptyBlockOf nodeB4) = hash nodeB3 ->
      countSpentOutputs acceptAll (emptyBlockOf nodeB4) (emptyBlockOf nodeB3)
      = Some counted ->
      Z.of_nat (length (@nil spentTxOut)) <> counted ->
      connectBlock acceptAll nodeB4 (emptyBlockOf nodeB4) (emptyBlockOf nodeB3)
        NewUtxoViewpoint [] (chainWith siblingIndex)
      = (chainWith siblingIndex, Panic panicStxoCount)) /\
  (PrevBlock (emptyBlockOf nodeB4) = hash nodeB3 ->
   countSpentOutputs acceptAll (emptyBlockOf nodeB4) (emptyBlockOf nodeB3)
   = Some (Z.of_nat (length (@nil spentTxOut))) ->
   forall b' p,
     connectBlock acceptAll nodeB4 (emptyBlockOf nodeB4) (emptyBlockOf nodeB3)
       NewUtxoViewpoint [] (chainWith siblingIndex) = (b', Panic p) ->
     p = panicRuntime).
Proof.
  split; [reflexivity|].
  exact (connectBlock_assertions acceptAll nodeB4 (emptyBlockOf nodeB4)
           (emptyBlockOf nodeB3) NewUtxoViewpoint [] (chainWith siblingIndex)
           nodeB3 eq_refl).
Defined.

(** The three cases on scenario 2: a block on the wrong parent, a wrong
    number of stxos, and a call that meets both preconditions. *)
Example connectBlock_cases :
  snd (connectBlock acceptAll nodeB3a (emptyBlockOf nodeB3a) (emptyBlockOf nodeB2a)
         NewUtxoViewpoint [] (chainWith siblingIndex))
  = Panic panicNotExtendingBestChain /\
  snd (connectBlock acceptAll nodeB4 (emptyBlockOf nodeB4) (emptyBlockOf nodeB3)
         NewUtxoViewpoint [7] (chainWith siblingIndex))
  = Panic panicStxoCount /\
  snd (connectBlock acceptAll nodeB4 (emptyBlockOf nodeB4) (emptyBlockOf nodeB3)
         NewUtxoViewpoint [] (chainWith siblingIndex))
  = Ok NewUtxoViewpoint.
Proof. vm_compute. repeat split; reflexivity. Qed.


(** ** [reorganizeChain]: the dry run *)

Lemma sameButIndex_refl (b : BlockChain) : sameButIndex b b.
Proof. repeat split. Qed.

Lemma sameButIndex_trans (b1 b2 b3 : BlockChain) :
  sameButIndex b1 b2 -> sameButIndex b2 b3 -> sameButIndex b1 b3.
Proof.
  unfold sameButIndex. intros (?&?&?&?&?&?&?) (?&?&?&?&?&?&?).
  repeat split; congruence.
Qed.

Lemma sameButIndex_withIndex (b : BlockChain) (bi : blockIndex) :
  sameButIndex b (withIndex b bi).
Proof. repeat split. Qed.

Lemma attachCheck_append (E : Collaborators) (forkBlock : option Block)
  (rest : list blockNode) :
  forall (pre : list blockNode) (st st1 : attachState) (b b1 : BlockChain),
    attachCheck E forkBlock pre st b = (b1, Ok st1) ->
    attachCheck E forkBlock (pre ++ rest) st b = attachCheck E forkBlock rest st1 b1.
Proof.
  induction pre as [|n pre IH]; intros st st1 b b1 H.
  - simpl in H. unfold ret in H. injection H as <- <-. reflexivity.
  - simpl in H |- *.
    bind_step H. pose proof (fetchBlockByNode_state _ _ _ _ _ Hm) as ->.
    unfold bind at 1. rewrite Hm.
    bind_step H. pose proof (deref_state _ _ _ _ Hm0) as ->.
    unfold bind at 1. rewrite Hm0.
    bind_step H. pose proof (deref_state _ _ _ _ Hm1) as ->.
    unfold bind at 1. rewrite Hm1.
    destruct (negb _); [discriminate|].
    unfold bind at 1, get at 1 in H. unfold bind at 1, get at 1.
    destruct (KnownValid _).
    + bind_step H. pose proof (liftR_state _ _ _ _ Hm2) as ->.
      unfold bind at 1. rewrite Hm2. apply IH. exact H.
    + destruct (checkConnectBlock E _ _ _ _ _ _ _) as [r | e | ].
      * unfold bind at 1, setStatusFlags, modify in H.
        unfold bind at 1, setStatusFlags, modify. apply IH. exact H.
      * bind_step H; discriminate.
      * discriminate.
Qed.


Section Preserves.
Variable R : relation BlockChain.
Context `{!PreOrder R}.
Context {A B : Type}.

Lemma pres_ret (a : A) : preserves R (ret a).
Proof. intros b b' r H. injection H as <- _. reflexivity. Qed.

Lemma pres_fail (e : error) : preserves R (@fail A e).
Proof. intros b b' r H. injection H as <- _. reflexivity. Qed.

Lemma pres_panicf (p : panicMsg) : preserves R (@panicf A p).
Proof. intros b b' r H. injection H as <- _. reflexivity. Qed.

Lemma pres_liftR (o : outcome A) : preserves R (liftR o).
Proof. intros b b' r H. injection H as <- _. reflexivity. Qed.

Lemma pres_deref (o : option A) : preserves R (deref o).
Proof. destruct o; [apply pres_ret | apply pres_panicf]. Qed.

Lemma pres_bind (m : M A) (k : A -> M B) :
  preserves R m -> (forall a, preserves R (k a)) -> preserves R (bind m k).
Proof.
  intros Hm Hk b b' r H. unfold bind in H.
  destruct (m b) as [b1 [a | e | q]] eqn:Hmb.
  - transitivity b1; [exact (Hm _ _ _ Hmb) | exact (Hk a _ _ _ H)].
  - injection H as <- _. exact (Hm _ _ _ Hmb).
  - injection H as <- _. exact (Hm _ _ _ Hmb).
Qed.

End Preserves.

Lemma pres_get (R : relation BlockChain) `{!PreOrder R} : preserves R get.
Proof. intros b b' r H. injection H as <- _. reflexivity. Qed.

Lemma pres_modify (R : relation BlockChain) (f : BlockChain -> BlockChain) :
  (forall b, R b (f b)) -> preserves R (modify f).
Proof. intros Hf b b' r H. injection H as <- _. apply Hf. Qed.

Create HintDb pres discriminated.
#[local] Hint Resolve pres_ret pres_fail pres_panicf pres_liftR pres_deref
  pres_get : pres.

Ltac pres :=
  repeat first
    [ apply pres_bind; [typeclasses eauto | | intros ?]
    | progress auto with pres typeclass_instances
    | match goal with
      | |- preserves _ (if ?c then _ else _) => destruct c
      | |- preserves _ (match ?x with _ => _ end) => destruct x
      end ].

#[local] Instance sameButIndex_preorder : PreOrder sameButIndex.
Proof.
  split; [intros b; apply sameButIndex_refl
         | intros b1 b2 b3; apply sameButIndex_trans].
Qed.

Lemma pres_fetchBlockByNode (R : relation BlockChain) `{!PreOrder R}
  (E : Collaborators) (n : blockNode) : preserves R (fetchBlockByNode E n).
Proof. unfold fetchBlockByNode. pres. Qed.

Lemma pres_fetchMainChainBlockByNode (R : relation BlockChain) `{!PreOrder R}
  (E : Collaborators) (n : option blockNode) :
  preserves R (fetchMainChainBlockByNode E n).
Proof. unfold fetchMainChainBlockByNode. pres. Qed.

#[local] Hint Resolve pres_fetchBlockByNode pres_fetchMainChainBlockByNode : pres.

Lemma pres_setStatusFlags (E : Collaborators) (n : blockNode) (f : blockStatus) :
  preserves sameButIndex (setStatusFlags n f).
Proof. apply pres_modify. intros b. apply sameButIndex_withIndex. Qed.

Lemma pres_markInvalidAncestors (l : list blockNode) :
  preserves sameButIndex (markInvalidAncestors l).
Proof. apply pres_modify. intros b. apply sameButIndex_withIndex. Qed.

Lemma attachCheck_sameButIndex (E : Collaborators) (forkBlock : option Block)
  (l : list blockNode) :
  forall st : attachState, preserves sameButIndex (attachCheck E forkBlock l st).
Proof.
  induction l as [|n l IH]; intros st; simpl; [pres|].
  pose proof (pres_setStatusFlags E). pose proof pres_markInvalidAncestors.
  pres.
Qed.

Lemma detachCheck_readOnly (E : Collaborators) (l : list blockNode) :
  forall st : detachState, preserves eq (detachCheck E l st).
Proof.
  induction l as [|n l IH]; intros st; simpl; pres.
Qed.

Lemma reorganizeSetup_readOnly (E : Collaborators) (detachNodes attachNodes : list blockNode) :
  preserves eq (reorganizeSetup E detachNodes attachNodes).
Proof.
  unfold reorganizeSetup. pose proof (detachCheck_readOnly E detachNodes). pres.
Qed.

(** C2: when the dry run reaches an attach node [n] that is not yet known
    valid and [checkConnectBlock] answers with a rule error, then
    [reorganizeChain] ends inside phase 1 with that error: the tip, the
    best-state snapshot, the durable store and the notifications sent are
    what they were, [n] carries [ValidateFailed] and every attach node
    after it carries [InvalidAncestor]. *)
Theorem reorganizeChain_dry_run_failure (E : Collaborators) (b b0 b1 : BlockChain)
  (detachNodes pre post : list blockNode) (n np : blockNode)
  (oldBest : blockNode) (ds : detachState) (forkBlock : option Block)
  (st1 : attachState) (blk parentBlock : Block) (code : ErrorCode) :
  reorganizeSetup E detachNodes (pre ++ n :: post) b = (b0, Ok (oldBest, ds, forkBlock)) ->
  attachCheck E forkBlock pre (attachStart ds) b0 = (b1, Ok st1) ->
  fetchBlockByNode E n b1 = (b1, Ok blk) ->
  match last (attachBlocks st1) with
  | Some prev => Some prev
  | None => forkBlock
  end = Some parentBlock ->
  parent n = Some np ->
  hash np = blockHash parentBlock ->
  KnownValid (NodeStatus (index b1) n) = false ->
  checkConnectBlock E (index b1) (bestChain b1) n blk parentBlock (aView st1) false
  = Failed (RuleError code) ->
  exists b',
    reorganizeChain E detachNodes (pre ++ n :: post) b = (b', Err (RuleError code)) /\
    reorganizePhase1 E detachNodes (pre ++ n :: post) b = (b', Err (RuleError code)) /\
    bestChain b' = bestChain b /\
    stateSnapshot b' = stateSnapshot b /\
    db b' = db b /\
    notified b' = notified b /\
    hasFlag (NodeStatus (index b') n) statusValidateFailed = true /\
    forall d, d ∈ post ->
              hasFlag (NodeStatus (index b') d) statusInvalidAncestor = true.
Proof.
  intros Hsetup Hpre Hfetch Hparent Hnp Hhash Hvalid Hcheck.
  set (bi' := foldl (fun bi dn => SetStatusFlags bi dn statusInvalidAncestor)
                    (SetStatusFlags (index b1) n statusValidateFailed) post).
  assert (Hstep : attachCheck E forkBlock (n :: post) st1 b1
                  = (withIndex b1 bi', Err (RuleError code))).
  { simpl. unfold bind at 1. rewrite Hfetch.
    unfold bind at 1. rewrite Hparent. unfold deref at 1, ret at 1.
    unfold bind at 1. rewrite Hnp. unfold deref at 1, ret at 1.
    rewrite Hhash, Z.eqb_refl. simpl.
    unfold bind at 1, get at 1. rewrite Hvalid, Hcheck. reflexivity. }
  assert (Hphase1 : reorganizePhase1 E detachNodes (pre ++ n :: post) b
                    = (withIndex b1 bi', Err (RuleError code))).
  { unfold reorganizePhase1. unfold bind at 1. rewrite Hsetup.
    unfold bind at 1. rewrite (attachCheck_append E forkBlock (n :: post) pre _ _ _ _ Hpre).
    rewrite Hstep. reflexivity. }
  assert (Hb0 : b = b0) by exact (reorganizeSetup_readOnly _ _ _ _ _ _ Hsetup).
  subst b0.
  destruct (attachCheck_sameButIndex _ _ _ _ _ _ _ Hpre) as (Hc & Hs & Hd & Hn & _).
  exists (withIndex b1 bi'). split; [|split; [exact Hphase1|]].
  - unfold reorganizeChain.
    replace (Nat.eqb (length (pre ++ n :: post)) 0) with false.
    2:{ rewrite length_app. simpl. symmetry. apply Nat.eqb_neq. lia. }
    rewrite andb_false_r. unfold bind at 1. rewrite Hphase1. reflexivity.
  - simpl. repeat (split; [assumption|]). split.
    + subst bi'. apply foldl_SetStatusFlags_keeps, SetStatusFlags_sets. discriminate.
    + intros d Hin. subst bi'. apply foldl_SetStatusFlags_sets; [discriminate | exact Hin].
Qed.

Lemma reorganizeChain_dry_run_failure_witness :
  reorganizeSetup (rejecting 203) [nodeB3; nodeB2] ([nodeB2a] ++ nodeB3a :: [nodeB4a])
    scenario4Chain
  = (scenario4Chain, Ok (nodeB3, scenario4Detach, Some (emptyBlockOf nodeB1))) /\
  attachCheck (rejecting 203) (Some (emptyBlockOf nodeB1)) [nodeB2a]
    (attachStart scenario4Detach) scenario4Chain
  = (scenario4Mid, Ok scenario4Attach) /\
  fetchBlockByNode (rejecting 203) nodeB3a scenario4Mid
  = (scenario4Mid, Ok (emptyBlockOf nodeB3a)) /\
  match last (attachBlocks scenario4Attach) with
  | Some prev => Some prev
  | None => Some (emptyBlockOf nodeB1)
  end = Some (emptyBlockOf nodeB2a) /\
  parent nodeB3a = Some nodeB2a /\
  hash nodeB2a = blockHash (emptyBlockOf nodeB2a) /\
  KnownValid (NodeStatus (index scenario4Mid) nodeB3a) = false /\
  checkConnectBlock (rejecting 203) (index scenario4Mid) (bestChain scenario4Mid)
    nodeB3a (emptyBlockOf nodeB3a) (emptyBlockOf nodeB2a) (aView scenario4Attach) false
  = Failed (RuleError (ErrOtherRule 1)) /\
  exists b',
    reorganizeChain (rejecting 203) [nodeB3; nodeB2] ([nodeB2a] ++ nodeB3a :: [nodeB4a])
      scenario4Chain = (b', Err (RuleError (ErrOtherRule 1))) /\
    reorganizePhase1 (rejecting 203) [nodeB3; nodeB2] ([nodeB2a] ++ nodeB3a :: [nodeB4a])
      scenario4Chain = (b', Err (RuleError (ErrOtherRule 1))) /\
    bestChain b' = bestChain scenario4Chain /\
    stateSnapshot b' = stateSnapshot scenario4Chain /\
    db b' = db scenario4Chain /\
    notified b' = notified scenario4Chain /\
    hasFlag (NodeStatus (index b') nodeB3a) statusValidateFailed = true /\
    forall d, d ∈ [nodeB4a] ->
              hasFlag (NodeStatus (index b') d) statusInvalidAncestor = true.
Proof.
  assert (H1 : reorganizeSetup (rejecting 203) [nodeB3; nodeB2]
                 ([nodeB2a] ++ nodeB3a :: [nodeB4a]) scenario4Chain
               = (scenario4Chain, Ok (nodeB3, scenario4Detach, Some (emptyBlockOf nodeB1))))
    by (vm_compute; reflexivity).
  assert (H2 : attachCheck (rejecting 203) (Some (emptyBlockOf nodeB1)) [nodeB2a]
                 (attachStart scenario4Detach) scenario4Chain
               = (scenario4Mid, Ok scenario4Attach)) by (vm_compute; reflexivity).
  assert (H3 : fetchBlockByNode (rejecting 203) nodeB3a scenario4Mid
               = (scenario4Mid, Ok (emptyBlockOf nodeB3a))) by (vm_compute; reflexivity).
  assert (H7 : KnownValid (NodeStatus (index scenario4Mid) nodeB3a) = false)
    by (vm_compute; reflexivity).
  split; [exact H1|]. split; [exact H2|]. split; [exact H3|].
  split; [reflexivity|]. split; [reflexivity|]. split; [reflexivity|].
  split; [exact H7|]. split; [reflexivity|].
  exact (reorganizeChain_dry_run_failure (rejecting 203) scenario4Chain scenario4Chain
           scenario4Mid [nodeB3; nodeB2] [nodeB2a] [nodeB4a] nodeB3a nodeB2a nodeB3
           scenario4Detach (Some (emptyBlockOf nodeB1)) scenario4Attach
           (emptyBlockOf nodeB3a) (emptyBlockOf nodeB2a) (ErrOtherRule 1)
           H1 H2 H3 eq_refl eq_refl eq_refl H7 eq_refl).
Defined.

(** Scenario 4 run as a whole: the error comes back, B3 is still the tip,
    nothing was written and nothing was notified. *)
Example reorganizeChain_scenario4 :
  let r := reorganizeChain (rejecting 203) [nodeB3; nodeB2]
             [nodeB2a; nodeB3a; nodeB4a] scenario4Chain in
  snd r = Err (RuleError (ErrOtherRule 1)) /\
  Tip (bestChain (fst r)) = Some nodeB3 /\
  db (fst r) = [] /\ notified (fst r) = [] /\
  NodeStatus (index (fst r)) nodeB2a = statusValid /\
  NodeStatus (index (fst r)) nodeB3a = statusValidateFailed /\
  NodeStatus (index (fst r)) nodeB4a = statusInvalidAncestor.
Proof. vm_compute. repeat split; reflexivity. Qed.

(** Scenario 3, where B3a is valid: the reorganization commits. *)
Example reorganizeChain_scenario3 :
  let r := reorganizeChain acceptAll [nodeB3; nodeB2] [nodeB2a; nodeB3a]
             scenario4Chain in
  snd r = Ok tt /\
  Tip (bestChain (fst r)) = Some nodeB3a /\
  bestChain (fst r) = [nodeG; nodeB1; nodeB2a; nodeB3a] /\
  notified (fst r)
  = [NTReorganization 103 3 203 3; NTChainReorgStarted;
     NTBlockDisconnected 103 102; NTBlockDisconnected 102 101;
     NTBlockConnected 202 101; NTBlockConnected 203 202; NTChainReorgDone].
Proof. vm_compute. repeat split; reflexivity. Qed.

(** ** Orphan pool *)


Lemma removeOrphanBlock_orphans (p : orphanPool) (o : orphanBlock) :
  orphans (removeOrphanBlock p o) = delete (blockHash (block o)) (orphans p) /\
  oldestOrphan (removeOrphanBlock p o) = oldestOrphan p.
Proof. split; reflexivity. Qed.




Lemma poolOnce_orphans :
  orphans poolOnce = {[ 5001 := {| block := orphanNo 1; expiration := 1000 + hour |} ]}.
Proof. reflexivity. Qed.



(** The boundary case of the spec: with 500 orphans in the pool, adding
    the 501st evicts the one with the earliest expiration, here number 1. *)
Example addOrphanBlock_501st :
  let '(p, keys) := fillPool 500 in
  let p' := default p (addOrphanBlock p 501 keys (orphanNo 501)) in
  size (orphans p) = 500%nat /\
  size (orphans p') = 500%nat /\
  orphans p' !! 5001 = None /\
  is_Some (orphans p' !! 5002) = is_Some (orphans p !! 5002) /\
  (expiration <$> orphans p' !! 5501) = Some (501 + hour) /\
  oldestOrphan p' = None.
Proof. vm_compute. repeat split; reflexivity. Qed.

(** Why [oldestLive] is assumed: [removeOrphanBlock] leaves [oldestOrphan]
    as it is, so once the oldest record has been removed (here by a
    promotion of orphan 1) the capacity check later evicts nothing and the
    pool grows beyond [maxOrphanBlocks]. *)
Example addOrphanBlock_stale_oldest :
  let '(p, keys) := fillPool 500 in
  let first := {| block := orphanNo 1; expiration := 1 + hour |} in
  let p1 := removeOrphanBlock p first in
  let keys1 := tail keys in
  let p2 := default p1 (addOrphanBlock p1 501 keys1 (orphanNo 501)) in
  let p3 := default p2 (addOrphanBlock p2 502 (keys1 ++ [5501]) (orphanNo 502)) in
  oldestOrphan p1 = Some first /\
  orphans p1 !! 5001 = None /\
  size (orphans p2) = 500%nat /\
  size (orphans p3) = 501%nat.
Proof. vm_compute. repeat split; reflexivity. Qed.

(** * Further properties of chain.go *)

(** ** [GetOrphanRoot] *)

Lemma orphanRootLoop_chain (p : orphanPool) (out : Hash) :
  forall (rest : list Hash) (h root : Hash) (fuel : nat),
    orphanChain p h rest out ->
    (length rest + 2 <= fuel)%nat ->
    orphanRootLoop fuel p root h = last (h :: rest).
Proof.
  induction rest as [|h' rest IH]; intros h root fuel Hc Hf; simpl in Hc.
  - destruct Hc as (o & Ho & Hprev & Hout).
    destruct fuel as [|[|fuel]]; simpl in Hf; try lia.
    simpl. rewrite Ho, Hprev, Hout. reflexivity.
  - destruct Hc as (o & Ho & Hprev & Hc).
    destruct fuel as [|fuel]; simpl in Hf; try lia.
    simpl orphanRootLoop. rewrite Ho, Hprev.
    rewrite (IH h' h fuel Hc) by lia. reflexivity.
Qed.

(** X1: when [h] is an orphan whose chain of missing parents runs through
    the orphans [rest] and then leaves the pool, [GetOrphanRoot] ends, in
    at most [length rest + 2] iterations, and returns the last orphan of
    that chain. *)
Theorem GetOrphanRoot_chain (p : orphanPool) (h : Hash) (rest : list Hash)
  (out : Hash) (fuel : nat) :
  orphanChain p h rest out ->
  (length rest + 2 <= fuel)%nat ->
  GetOrphanRoot fuel p h = last (h :: rest).
Proof. intros Hc Hf. apply orphanRootLoop_chain with (out := out); assumption. Qed.

(** X2: whatever [GetOrphanRoot] returns is either the hash asked for,
    which is then not an orphan, or an orphan of the pool whose own parent
    is not an orphan. *)
Theorem GetOrphanRoot_sound (p : orphanPool) (h r : Hash) (fuel : nat) :
  GetOrphanRoot fuel p h = Some r ->
  (r = h /\ orphans p !! h = None) \/
  (exists o, orphans p !! r = Some o /\ orphans p !! PrevBlock (block o) = None).
Proof.
  unfold GetOrphanRoot.
  assert (Hgen : forall fuel root prev,
            orphanRootLoop fuel p root prev = Some r ->
            (r = root /\ orphans p !! prev = None) \/
            (exists o, orphans p !! r = Some o /\
                       orphans p !! PrevBlock (block o) = None)).
  { clear. induction fuel as [|fuel IH]; intros root prev H; [discriminate|].
    simpl in H. destruct (orphans p !! prev) as [o|] eqn:Ho.
    - destruct (IH _ _ H) as [[-> Hnone] | Hex]; [|right; exact Hex].
      right. exists o. split; assumption.
    - injection H as <-. left. split; reflexivity. }
  intros H. exact (Hgen _ _ _ H).
Qed.

Lemma poolChained_chain : orphanChain poolChained 5002 [5001] 4001.
Proof.
  simpl. eexists. split; [vm_compute; reflexivity|]. split; [reflexivity|].
  eexists. split; [vm_compute; reflexivity|]. split; reflexivity.
Qed.

Lemma GetOrphanRoot_chain_witness :
  orphanChain poolChained 5002 [5001] 4001 /\
  (length [5001%Z] + 2 <= 3)%nat /\
  GetOrphanRoot 3 poolChained 5002 = Some 5001.
Proof.
  split; [exact poolChained_chain|]. split; [simpl; lia|].
  exact (GetOrphanRoot_chain poolChained 5002 [5001] 4001 3 poolChained_chain
           ltac:(simpl; lia)).
Defined.

Lemma GetOrphanRoot_sound_witness :
  GetOrphanRoot 3 poolChained 5002 = Some 5001 /\
  ((5001 = 5002 /\ orphans poolChained !! 5002 = None) \/
   (exists o, orphans poolChained !! 5001 = Some o /\
              orphans poolChained !! PrevBlock (block o) = None)).
Proof.
  assert (H : GetOrphanRoot 3 poolChained 5002 = Some 5001) by (vm_compute; reflexivity).
  split; [exact H|]. exact (GetOrphanRoot_sound poolChained 5002 5001 3 H).
Defined.

(** ** Orphan pool: removal, invariants, round trip *)

Lemma dropByHash_elem (h : Hash) (l : list orphanBlock) (x : orphanBlock) :
  x ∈ dropByHash h l <-> x ∈ l /\ blockHash (block x) <> h.
Proof.
  induction l as [|o l IH]; simpl.
  - split; [intros H; inversion H | intros [H _]; inversion H].
  - destruct (Z.eqb_spec (blockHash (block o)) h) as [Heq | Hne].
    + rewrite IH, elem_of_cons. split; [tauto|].
      intros [[-> | Hin] Hx]; [contradiction | tauto].
    + rewrite !elem_of_cons, IH. split.
      * intros [-> | [Hin Hx]]; tauto.
      * intros [[-> | Hin] Hx]; tauto.
Qed.

Lemma dropByHash_id (h : Hash) (l : list orphanBlock) :
  (forall x, x ∈ l -> blockHash (block x) <> h) -> dropByHash h l = l.
Proof.
  induction l as [|o l IH]; intros H; simpl; [reflexivity|].
  destruct (Z.eqb_spec (blockHash (block o)) h) as [Heq | Hne].
  - exfalso. apply (H o); [left | exact Heq].
  - rewrite IH; [reflexivity|]. intros x Hx. apply H. right. exact Hx.
Qed.

Lemma dropByHash_snoc (h : Hash) (l : list orphanBlock) (x : orphanBlock) :
  blockHash (block x) = h -> dropByHash h (l ++ [x]) = dropByHash h l.
Proof.
  intros Hx. induction l as [|o l IH]; simpl.
  - rewrite Hx, Z.eqb_refl. reflexivity.
  - rewrite IH. reflexivity.
Qed.

(** X3: after [removeOrphanBlock] the orphan is no longer known, every
    other record of [orphans] and every other bucket of [prevOrphans] is as
    before, and the bucket of the orphan's parent holds exactly the old
    entries with another block hash; the bucket is deleted rather than
    left empty. *)
Theorem removeOrphanBlock_spec (p : orphanPool) (o : orphanBlock) :
  let p' := removeOrphanBlock p o in
  IsKnownOrphan p' (blockHash (block o)) = false /\
  (forall h, h <> blockHash (block o) -> orphans p' !! h = orphans p !! h) /\
  (forall k, k <> PrevBlock (block o) -> prevOrphans p' !! k = prevOrphans p !! k) /\
  match prevOrphans p' !! PrevBlock (block o) with
  | None => forall x, x ∈ default [] (prevOrphans p !! PrevBlock (block o)) ->
                      blockHash (block x) = blockHash (block o)
  | Some bucket =>
      bucket <> [] /\
      forall x, x ∈ bucket <->
                x ∈ default [] (prevOrphans p !! PrevBlock (block o)) /\
                blockHash (block x) <> blockHash (block o)
  end.
Proof.
  cbv zeta. unfold IsKnownOrphan, removeOrphanBlock. simpl.
  split; [rewrite lookup_delete_eq; reflexivity|].
  split; [intros h Hh; apply lookup_delete_ne; congruence|].
  set (old := default [] (prevOrphans p !! PrevBlock (block o))).
  set (bucket := dropByHash (blockHash (block o)) old).
  split.
  - intros k Hk. destruct (Nat.eqb (length bucket) 0).
    + rewrite lookup_delete_ne, lookup_insert_ne by congruence. reflexivity.
    + rewrite lookup_insert_ne by congruence. reflexivity.
  - destruct (Nat.eqb_spec (length bucket) 0) as [Hlen | Hlen].
    + rewrite lookup_delete_eq. intros x Hx.
      destruct (Z.eq_dec (blockHash (block x)) (blockHash (block o))) as [|Hne];
        [assumption|].
      exfalso. assert (Hin : x ∈ bucket) by (apply dropByHash_elem; tauto).
      destruct bucket; [inversion Hin | discriminate].
    + rewrite lookup_insert_eq. split.
      * intros ->. apply Hlen. reflexivity.
      * intros x. apply dropByHash_elem.
Qed.

Lemma removeOrphanBlock_noEmptyBucket (p : orphanPool) (o : orphanBlock) :
  noEmptyBucket p -> noEmptyBucket (removeOrphanBlock p o).
Proof.
  intros H k. unfold removeOrphanBlock. simpl.
  set (bucket := dropByHash _ _).
  destruct (Nat.eqb_spec (length bucket) 0) as [Hlen | Hlen].
  - destruct (decide (k = PrevBlock (block o))) as [-> | Hk].
    + rewrite lookup_delete_eq. discriminate.
    + rewrite lookup_delete_ne, lookup_insert_ne by congruence. apply H.
  - destruct (decide (k = PrevBlock (block o))) as [-> | Hk].
    + rewrite lookup_insert_eq. intros Heq. injection Heq as Heq.
      rewrite Heq in Hlen. apply Hlen. reflexivity.
    + rewrite lookup_insert_ne by congruence. apply H.
Qed.

Lemma removeOrphanBlock_poolKeyed (p : orphanPool) (o : orphanBlock) :
  poolKeyed p -> poolKeyed (removeOrphanBlock p o).
Proof.
  intros H k x Hx. unfold removeOrphanBlock in Hx. simpl in Hx.
  apply lookup_delete_Some in Hx as [_ Hx]. exact (H _ _ Hx).
Qed.

Lemma expireStep_invariants (now : Z) (p : orphanPool) (k : Z) :
  poolKeyed p /\ noEmptyBucket p ->
  poolKeyed (expireStep now p k) /\ noEmptyBucket (expireStep now p k).
Proof.
  intros [Hk Hb]. unfold expireStep.
  destruct (orphans p !! k) as [o|]; [|split; assumption].
  destruct (Z.gtb now (expiration o)).
  - split; [apply removeOrphanBlock_poolKeyed | apply removeOrphanBlock_noEmptyBucket];
      assumption.
  - destruct (match oldestOrphan p with Some _ => _ | None => _ end);
      split; assumption.
Qed.

(** X4: [addOrphanBlock] keeps the pool well formed, every record stored
    under the hash of its block and no bucket of [prevOrphans] empty, and
    the block added is a known orphan afterwards. *)
Theorem addOrphanBlock_invariants (p p' : orphanPool) (now : Z) (order : list Z)
  (blk : Block) :
  poolKeyed p -> noEmptyBucket p ->
  addOrphanBlock p now order blk = Some p' ->
  poolKeyed p' /\ noEmptyBucket p' /\ IsKnownOrphan p' (blockHash blk) = true.
Proof.
  intros Hk Hb Hadd. unfold addOrphanBlock in Hadd.
  assert (Hloop : poolKeyed (foldl (expireStep now) p order) /\
                  noEmptyBucket (foldl (expireStep now) p order)).
  { clear Hadd. revert p Hk Hb. induction order as [|k order IH]; intros p Hk Hb; simpl.
    - split; assumption.
    - destruct (expireStep_invariants now p k (conj Hk Hb)) as [Hk' Hb'].
      apply IH; assumption. }
  set (p1 := foldl (expireStep now) p order) in *. destruct Hloop as [Hk1 Hb1].
  assert (Hfin : forall p2, poolKeyed p2 -> noEmptyBucket p2 ->
            let q := {| orphans := <[blockHash blk := {| block := blk; expiration := now + hour |}]>
                                     (orphans p2);
                        prevOrphans :=
                          <[PrevBlock blk := default [] (prevOrphans p2 !! PrevBlock blk)
                                             ++ [{| block := blk; expiration := now + hour |}]]>
                            (prevOrphans p2);
                        oldestOrphan := oldestOrphan p2 |} in
            poolKeyed q /\ noEmptyBucket q /\ IsKnownOrphan q (blockHash blk) = true).
  { intros p2 Hk2 Hb2. cbv zeta. split; [|split].
    - intros k x Hx. simpl in Hx. apply lookup_insert_Some in Hx as [[<- <-] | [_ Hx]].
      + reflexivity.
      + exact (Hk2 _ _ Hx).
    - intros k. simpl. destruct (decide (k = PrevBlock blk)) as [-> | Hne].
      + rewrite lookup_insert_eq. intros Heq. injection Heq as Heq.
        destruct (default [] (prevOrphans p2 !! PrevBlock blk)); discriminate.
      + rewrite lookup_insert_ne by congruence. apply Hb2.
    - unfold IsKnownOrphan. simpl. rewrite lookup_insert_eq. reflexivity. }
  destruct (Z.gtb _ _).
  - destruct (oldestOrphan p1) as [old|]; [|discriminate].
    injection Hadd as <-.
    apply (Hfin {| orphans := orphans (removeOrphanBlock p1 old);
                   prevOrphans := prevOrphans (removeOrphanBlock p1 old);
                   oldestOrphan := None |}).
    + exact (removeOrphanBlock_poolKeyed p1 old Hk1).
    + exact (removeOrphanBlock_noEmptyBucket p1 old Hb1).
  - injection Hadd as <-. apply Hfin; assumption.
Qed.

Lemma expireLoop_unexpired (now : Z) (order : list Z) :
  forall p : orphanPool,
    (forall k o, orphans p !! k = Some o -> unexpired now o = true) ->
    orphans (foldl (expireStep now) p order) = orphans p /\
    prevOrphans (foldl (expireStep now) p order) = prevOrphans p.
Proof.
  induction order as [|k order IH]; intros p Hall; simpl; [split; reflexivity|].
  assert (Hstep : orphans (expireStep now p k) = orphans p /\
                  prevOrphans (expireStep now p k) = prevOrphans p).
  { unfold expireStep. destruct (orphans p !! k) as [o|] eqn:Ho; [|split; reflexivity].
    pose proof (Hall _ _ Ho) as Hu. unfold unexpired in Hu.
    apply negb_true_iff in Hu. rewrite Hu.
    destruct (match oldestOrphan p with Some _ => _ | None => _ end);
      split; reflexivity. }
  destruct Hstep as [Ho Hp].
  destruct (IH (expireStep now p k)) as [Ho' Hp'].
  { rewrite Ho. exact Hall. }
  split; congruence.
Qed.

(** X5: adding a fresh orphan to a pool with room and nothing expired and
    removing it again gives back the [orphans] and [prevOrphans] maps of
    the start. *)
Theorem addOrphanBlock_removeOrphanBlock (p : orphanPool) (now : Z)
  (order : list Z) (blk : Block) :
  (forall k o, orphans p !! k = Some o -> unexpired now o = true) ->
  Z.of_nat (size (orphans p)) + 1 <= maxOrphanBlocks ->
  orphans p !! blockHash blk = None ->
  (forall x, x ∈ default [] (prevOrphans p !! PrevBlock blk) ->
             blockHash (block x) <> blockHash blk) ->
  noEmptyBucket p ->
  exists p1,
    addOrphanBlock p now order blk = Some p1 /\
    orphans (removeOrphanBlock p1 {| block := blk; expiration := now + hour |})
    = orphans p /\
    prevOrphans (removeOrphanBlock p1 {| block := blk; expiration := now + hour |})
    = prevOrphans p.
Proof.
  intros Hall Hroom Hfresh Hbucket Hne.
  destruct (expireLoop_unexpired now order p Hall) as [Ho Hp].
  unfold addOrphanBlock. rewrite Ho.
  destruct (Z.gtb_spec (Z.of_nat (size (orphans p)) + 1) maxOrphanBlocks); [lia|].
  eexists. split; [reflexivity|]. unfold removeOrphanBlock. simpl.
  rewrite Ho, Hp. split.
  - rewrite delete_insert_eq. apply delete_id. exact Hfresh.
  - rewrite lookup_insert_eq. simpl.
    rewrite dropByHash_snoc by reflexivity.
    rewrite dropByHash_id by exact Hbucket.
    destruct (prevOrphans p !! PrevBlock blk) as [bucket|] eqn:Hb; simpl.
    + destruct bucket as [|x bucket]; [exfalso; exact (Hne _ Hb)|]. simpl.
      rewrite insert_insert_eq. apply insert_id. exact Hb.
    + rewrite delete_insert_eq, delete_insert_eq. apply delete_id. exact Hb.
Qed.

Lemma emptyPool_keyed : poolKeyed emptyPool.
Proof. intros k o H. simpl in H. rewrite lookup_empty in H. discriminate. Qed.

Lemma emptyPool_noEmptyBucket : noEmptyBucket emptyPool.
Proof. intros k. simpl. rewrite lookup_empty. discriminate. Qed.

Lemma addOrphanBlock_invariants_witness :
  poolKeyed emptyPool /\ noEmptyBucket emptyPool /\
  addOrphanBlock emptyPool 1000 [] (orphanNo 1) = Some poolOnce /\
  poolKeyed poolOnce /\ noEmptyBucket poolOnce /\
  IsKnownOrphan poolOnce (blockHash (orphanNo 1)) = true.
Proof.
  assert (H : addOrphanBlock emptyPool 1000 [] (orphanNo 1) = Some poolOnce)
    by (vm_compute; reflexivity).
  split; [exact emptyPool_keyed|]. split; [exact emptyPool_noEmptyBucket|].
  split; [exact H|].
  exact (addOrphanBlock_invariants emptyPool poolOnce 1000 [] (orphanNo 1)
           emptyPool_keyed emptyPool_noEmptyBucket H).
Defined.

Lemma poolOnce_unexpired :
  forall k o, orphans poolOnce !! k = Some o -> unexpired 1500 o = true.
Proof.
  intros k o H. rewrite poolOnce_orphans in H.
  apply lookup_singleton_Some in H as [_ <-]. reflexivity.
Qed.

Lemma poolOnce_noEmptyBucket : noEmptyBucket poolOnce.
Proof.
  assert (H : prevOrphans poolOnce
              = {[ 4001 := [ {| block := orphanNo 1; expiration := 1000 + hour |} ] ]})
    by reflexivity.
  intros k Hk. rewrite H in Hk. apply lookup_singleton_Some in Hk as [_ Hk].
  discriminate.
Qed.

Lemma poolOnce_bucket_free :
  forall x, x ∈ default [] (prevOrphans poolOnce !! PrevBlock chainedOrphan) ->
            blockHash (block x) <> blockHash chainedOrphan.
Proof.
  assert (H : prevOrphans poolOnce !! PrevBlock chainedOrphan = None)
    by (vm_compute; reflexivity).
  rewrite H. intros x Hx. inversion Hx.
Qed.

Lemma addOrphanBlock_removeOrphanBlock_witness :
  Z.of_nat (size (orphans poolOnce)) + 1 <= maxOrphanBlocks /\
  orphans poolOnce !! blockHash chainedOrphan = None /\
  exists p1,
    addOrphanBlock poolOnce 1500 [5001] chainedOrphan = Some p1 /\
    orphans (removeOrphanBlock p1 {| block := chainedOrphan; expiration := 1500 + hour |})
    = orphans poolOnce /\
    prevOrphans (removeOrphanBlock p1 {| block := chainedOrphan; expiration := 1500 + hour |})
    = prevOrphans poolOnce.
Proof.
  assert (H1 : Z.of_nat (size (orphans poolOnce)) + 1 <= maxOrphanBlocks)
    by (vm_compute; discriminate).
  assert (H2 : orphans poolOnce !! blockHash chainedOrphan = None)
    by (vm_compute; reflexivity).
  split; [exact H1|]. split; [exact H2|].
  exact (addOrphanBlock_removeOrphanBlock poolOnce 1500 [5001] chainedOrphan
           poolOnce_unexpired H1 H2 poolOnce_bucket_free poolOnce_noEmptyBucket).
Defined.

(** ** Main-chain block cache *)

(** X6: after [pushMainChainBlockCache] the block pushed is in the cache,
    every cached block is higher than the pushed height minus
    [mainchainBlockCacheSize] and is the pushed block or was cached
    before, and every other block that was cached inside that window is
    still cached. *)
Theorem pushMainChainBlockCache_window (blk : Block) (b : BlockChain) :
  let b' := fst (pushMainChainBlockCache blk b) in
  mainchainBlockCache b' !! blockHash blk = Some blk /\
  (forall h bl, mainchainBlockCache b' !! h = Some bl ->
                blockHeight bl > blockHeight blk - mainchainBlockCacheSize /\
                (h = blockHash blk \/ mainchainBlockCache b !! h = Some bl)) /\
  (forall h bl, mainchainBlockCache b !! h = Some bl -> h <> blockHash blk ->
                blockHeight bl > blockHeight blk - mainchainBlockCacheSize ->
                mainchainBlockCache b' !! h = Some bl).
Proof.
  cbv zeta. unfold pushMainChainBlockCache, modify. simpl.
  split; [|split].
  - apply map_lookup_filter_Some. split; [apply lookup_insert_eq|].
    simpl. unfold mainchainBlockCacheSize. lia.
  - intros h bl H. apply map_lookup_filter_Some in H as [H Hp]. simpl in Hp.
    split; [lia|].
    apply lookup_insert_Some in H as [[<- _] | [_ H]]; [left; reflexivity | right; exact H].
  - intros h bl H Hne Hh. apply map_lookup_filter_Some. split.
    + rewrite lookup_insert_ne by congruence. exact H.
    + simpl. lia.
Qed.

(** ** [isMajorityVersion] *)

Lemma chainFrom_parent (n : blockNode) :
  chainFrom (Some n) = n :: chainFrom (parent n).
Proof. destruct n as [h [p|] ht w b s]; reflexivity. Qed.

Lemma majorityLoop_count (blockVersion : blockNode -> Z) (minVer req : Z) :
  req < 2 ^ 64 ->
  forall (k : nat) (found : Z) (node : option blockNode),
    0 <= found <= req ->
    majorityLoop blockVersion k minVer req found node
    = Z.min req
        (found + Z.of_nat (length (List.filter (fun n => Z.geb (blockVersion n) minVer)
                                               (take k (chainFrom node))))).
Proof.
  intros Hreq. induction k as [|k IH]; intros found node Hf.
  - simpl. lia.
  - cbn [majorityLoop]. destruct (Z.ltb_spec found req) as [Hlt | Hge]; [|lia].
    destruct node as [n|]; [|simpl; lia].
    rewrite chainFrom_parent. cbn [take List.filter].
    destruct (Z.geb (blockVersion n) minVer) eqn:Hv.
    + assert (Hu : uint64 (found + 1) = found + 1).
      { unfold uint64. apply Z.mod_small. lia. }
      rewrite Hu, IH by lia. cbn [length]. lia.
    + rewrite IH by lia. lia.
Qed.

(** X7: [isMajorityVersion] answers whether, among the first
    [BlockUpgradeNumToCheck] entries of the chain from [startNode] back
    towards genesis, at least [numRequired] have a block version of at
    least [minVer]; stopping the walk early does not change the answer. *)
Theorem isMajorityVersion_count (blockVersion : blockNode -> Z)
  (BlockUpgradeNumToCheck minVer numRequired : Z) (startNode : option blockNode) :
  0 <= numRequired < 2 ^ 64 ->
  isMajorityVersion blockVersion BlockUpgradeNumToCheck minVer startNode numRequired
  = Z.geb (Z.of_nat (length (List.filter (fun n => Z.geb (blockVersion n) minVer)
                               (take (Z.to_nat BlockUpgradeNumToCheck)
                                     (chainFrom startNode)))))
          numRequired.
Proof.
  intros Hreq. unfold isMajorityVersion.
  rewrite majorityLoop_count by lia.
  destruct (Z.geb_spec (Z.min numRequired (0 + Z.of_nat (length
             (List.filter (fun n => Z.geb (blockVersion n) minVer)
                (take (Z.to_nat BlockUpgradeNumToCheck) (chainFrom startNode))))))
             numRequired);
  destruct (Z.geb_spec (Z.of_nat (length
             (List.filter (fun n => Z.geb (blockVersion n) minVer)
                (take (Z.to_nat BlockUpgradeNumToCheck) (chainFrom startNode)))))
             numRequired); try reflexivity; lia.
Qed.

(** ** [GetStakeVersions] *)

Lemma stakeVersionsLoop_take (bv sv : blockNode -> Z) (vt : blockNode -> list (Z * Z)) :
  forall (k : nat) (node : option blockNode) (res : list StakeVersions),
    stakeVersionsLoop bv sv vt k node res
    = res ++ map (stakeVersionsOf bv sv vt) (take k (chainFrom node)).
Proof.
  induction k as [|k IH]; intros node res.
  - simpl. rewrite app_nil_r. reflexivity.
  - cbn [stakeVersionsLoop]. destruct node as [n|]; [|simpl; rewrite app_nil_r; reflexivity].
    rewrite IH, chainFrom_parent, <- app_assoc. reflexivity.
Qed.

(** X8: for a known, fully validated block [GetStakeVersions] fails on a
    negative count and otherwise returns the records of the block and its
    ancestors, nearest first, [min count (height + 1)] of them. *)
Theorem GetStakeVersions_spec (bv sv : blockNode -> Z) (vt : blockNode -> list (Z * Z))
  (bi : blockIndex) (h : Hash) (count : Z) (startNode : blockNode) :
  LookupNode bi h = Some startNode ->
  KnownValid (NodeStatus bi startNode) = true ->
  0 <= height startNode < 2 ^ 31 - 1 ->
  GetStakeVersions bv sv vt bi h count
  = if Z.ltb count 0 then Err (fmtError 5)
    else Ok (map (stakeVersionsOf bv sv vt)
               (take (Z.to_nat (Z.min count (height startNode + 1)))
                     (startNode :: ancestors startNode))).
Proof.
  intros Hlook Hvalid Hh. unfold GetStakeVersions. rewrite Hlook, Hvalid. simpl.
  destruct (Z.eqb_spec count 0) as [-> | Hnz].
  - simpl. rewrite Z.min_l by lia. reflexivity.
  - destruct (Z.ltb_spec count 0) as [Hneg | Hpos]; [reflexivity|].
    assert (Hi : int32 (height startNode + 1) = height startNode + 1).
    { unfold int32. rewrite Z.mod_small by lia. lia. }
    rewrite Hi.
    destruct (Z.gtb_spec count (height startNode + 1)) as [Hgt | Hle].
    + destruct (Z.ltb_spec (height startNode + 1) 0); [lia|].
      rewrite stakeVersionsLoop_take. simpl app.
      rewrite Z.min_r by lia. reflexivity.
    + destruct (Z.ltb_spec count 0); [lia|].
      rewrite stakeVersionsLoop_take. simpl app.
      rewrite Z.min_l by lia. reflexivity.
Qed.

Lemma isMajorityVersion_count_witness :
  0 <= 2 < 2 ^ 64 /\
  isMajorityVersion height 3 2 (Some nodeB3) 2
  = Z.geb (Z.of_nat (length (List.filter (fun n => Z.geb (height n) 2)
                               (take (Z.to_nat 3) (chainFrom (Some nodeB3))))))
          2.
Proof.
  assert (H : 0 <= 2 < 2 ^ 64) by lia.
  split; [exact H|].
  exact (isMajorityVersion_count height 3 2 2 (Some nodeB3) H).
Defined.

Lemma GetStakeVersions_spec_witness :
  LookupNode siblingIndex 303 = Some nodeB3s /\
  KnownValid (NodeStatus siblingIndex nodeB3s) = true /\
  0 <= height nodeB3s < 2 ^ 31 - 1 /\
  GetStakeVersions height height (fun _ => []) siblingIndex 303 2
  = Ok (map (stakeVersionsOf height height (fun _ => [])) [nodeB3s; nodeB2]).
Proof.
  assert (H1 : LookupNode siblingIndex 303 = Some nodeB3s) by (vm_compute; reflexivity).
  assert (H2 : KnownValid (NodeStatus siblingIndex nodeB3s) = true)
    by (vm_compute; reflexivity).
  assert (H3 : 0 <= height nodeB3s < 2 ^ 31 - 1) by (simpl; lia).
  split; [exact H1|]. split; [exact H2|]. split; [exact H3|].
  exact (GetStakeVersions_spec height height (fun _ => []) siblingIndex 303 2 nodeB3s
           H1 H2 H3).
Defined.

(** ** Height and hash lookups *)

Lemma NodeByHeight_linked (c : chainView) (ht : Z) (n : blockNode) :
  viewLinked c -> NodeByHeight c ht = Some n -> height n = ht /\ Contains c n = true.
Proof.
  intros [Hh _] H. unfold NodeByHeight in H.
  destruct (Z.ltb_spec ht 0) as [|Hpos]; [discriminate|].
  pose proof (Hh _ _ H) as Hn. split; [lia|].
  unfold Contains, NodeByHeight. destruct (Z.ltb_spec (height n) 0); [lia|].
  rewrite Hn, Nat2Z.id, H. apply node_eqb_refl.
Qed.

(** X9: on a linked view whose entries are in the index,
    [BlockHashByHeight] and [BlockHeightByHash] are inverse to each other,
    and a hash that [BlockHeightByHash] resolves is one for which
    [MainChainHasBlock] holds. *)
Theorem BlockHashByHeight_BlockHeightByHash (bi : blockIndex) (c : chainView)
  (ht : Z) (h : Hash) :
  viewLinked c ->
  indexKeyed bi ->
  (forall n, n ∈ c -> LookupNode bi (hash n) = Some n) ->
  (BlockHashByHeight c ht = Ok h <-> BlockHeightByHash bi c h = Ok ht) /\
  (BlockHeightByHash bi c h = Ok ht -> MainChainHasBlock bi c h = true).
Proof.
  intros Hl Hkey Hidx. unfold BlockHashByHeight, BlockHeightByHash, MainChainHasBlock.
  split; [split|].
  - destruct (NodeByHeight c ht) as [n|] eqn:Hn; [|discriminate].
    intros H. injection H as <-.
    destruct (NodeByHeight_linked c ht n Hl Hn) as [Hh Hc].
    rewrite (Hidx n), Hc, Hh; [reflexivity|].
    unfold NodeByHeight in Hn. destruct (ht <? 0); [discriminate|].
    apply list_elem_of_lookup. eauto.
  - destruct (LookupNode bi h) as [n|] eqn:Hn; [|discriminate].
    destruct (Contains c n) eqn:Hc; [|discriminate].
    intros H. injection H as <-. unfold Contains in Hc.
    destruct (NodeByHeight c (height n)) as [m|]; [|discriminate].
    apply node_eqb_eq in Hc as ->. rewrite (Hkey _ _ Hn). reflexivity.
  - destruct (LookupNode bi h) as [n|]; [|discriminate].
    destruct (Contains c n); [reflexivity | discriminate].
Qed.

(** X10: the list [HeightRange s e] returns has
    [max 0 (min e (tip height + 1) - s)] elements, and its element number
    [i] is the hash [BlockHashByHeight] gives for the height [s + i]. *)
Theorem HeightRange_BlockHashByHeight (c : chainView) (tip : blockNode)
  (s e : Z) (l : list Hash) :
  viewLinked c ->
  Tip c = Some tip ->
  HeightRange c s e = Ok l ->
  Z.of_nat (length l) = Z.max 0 (Z.min e (height tip + 1) - s) /\
  forall (i : nat) (h : Hash),
    l !! i = Some h -> BlockHashByHeight c (s + Z.of_nat i) = Ok h.
Proof.
  intros Hl Htip H.
  pose proof (viewLinked_tip_height c tip Hl Htip) as Hth.
  unfold HeightRange in H.
  destruct (Z.ltb_spec s 0); [discriminate|].
  destruct (Z.ltb_spec e s); [discriminate|].
  destruct (Z.eqb_spec s e) as [-> | Hne].
  { injection H as <-. split; [simpl; lia | intros i h Hi; discriminate]. }
  rewrite Htip in H.
  destruct (Z.gtb_spec s (height tip)).
  { injection H as <-. split; [simpl; lia | intros i h Hi; discriminate]. }
  set (e' := if e >? height tip + 1 then height tip + 1 else e) in H.
  assert (He' : e' = Z.min e (height tip + 1)).
  { subst e'. destruct (Z.gtb_spec e (height tip + 1)); lia. }
  pose proof (fillHashes_linked c (Z.to_nat s) e' Hl (Z.to_nat (e' - s)) s
                (NodeByHeight c (e' - 1))
                (replicate (Z.to_nat (e' - s)) zeroHash) []) as Hfill.
  rewrite !app_nil_r in Hfill. rewrite Hfill in H.
  - injection H as <-. split.
    + rewrite length_map, length_take, length_drop. lia.
    + intros i h Hi. rewrite list_lookup_fmap in Hi.
      destruct (take _ _ !! i) as [n|] eqn:Hn; [|discriminate].
      injection Hi as <-.
      apply lookup_take_Some in Hn as [Hn _]. rewrite lookup_drop in Hn.
      unfold BlockHashByHeight, NodeByHeight.
      destruct (Z.ltb_spec (s + Z.of_nat i) 0); [lia|].
      replace (Z.to_nat (s + Z.of_nat i)) with (Z.to_nat s + i)%nat by lia.
      rewrite Hn. reflexivity.
  - apply length_replicate.
  - lia.
  - lia.
  - intros _. unfold NodeByHeight.
    destruct (Z.ltb_spec (e' - 1) 0); [lia|]. f_equal. lia.
Qed.

(** ** [GetVoteInfo]: the successful case *)

Lemma voteInfoLoop_ok (N : Hash -> Z -> string -> result ThresholdStateTuple)
  (h : Hash) (v : Z) :
  forall (ds : list ConsensusDeployment) (vi vi' : VoteInfo),
    voteInfoLoop N h v ds vi = Ok vi' ->
    exists sts,
      Agendas vi' = Agendas vi ++ ds /\
      AgendaStatus vi' = AgendaStatus vi ++ sts /\
      Forall2 (fun d st => N h v (voteId d) = Ok st) ds sts.
Proof.
  induction ds as [|d ds IH]; intros vi vi' H; simpl in H.
  - injection H as <-. exists []. rewrite !app_nil_r. repeat split. constructor.
  - destruct (N h v (voteId d)) as [st | e | m] eqn:HN; try discriminate.
    destruct (IH _ _ H) as (sts & Ha & Hs & Hf). simpl in Ha, Hs.
    exists (st :: sts). rewrite Ha, Hs, <- !app_assoc. repeat split.
    constructor; assumption.
Qed.

(** X11: when [GetVoteInfo] succeeds, the agendas returned are the
    deployments configured for the version, in their order, and the status
    list pairs each of them with the threshold state queried for its vote
    id. *)
Theorem GetVoteInfo_ok (D : gmap Z (list ConsensusDeployment))
  (N : Hash -> Z -> string -> result ThresholdStateTuple) (h : Hash) (v : Z)
  (vi : VoteInfo) :
  GetVoteInfo D N h v = Ok vi ->
  D !! v = Some (Agendas vi) /\
  Forall2 (fun d st => N h v (voteId d) = Ok st) (Agendas vi) (AgendaStatus vi).
Proof.
  unfold GetVoteInfo. destruct (D !! v) as [ds|]; simpl; [|discriminate].
  intros H. destruct (voteInfoLoop_ok N h v ds _ vi H) as (sts & Ha & Hs & Hf).
  simpl in Ha, Hs. rewrite Ha, Hs. split; [reflexivity | exact Hf].
Qed.

Lemma scenario2Index_keyed : indexKeyed scenario2Index.
Proof.
  apply (indexKeyed_addNodes [nodeG; nodeB1; nodeB2; nodeB3; nodeB2a]).
  intros h n Hn. simpl in Hn. rewrite lookup_empty in Hn. discriminate.
Qed.

Lemma scenario2View_indexed :
  forall n, n ∈ scenario2View -> LookupNode scenario2Index (hash n) = Some n.
Proof.
  intros n Hn. unfold scenario2View in Hn.
  repeat (apply elem_of_cons in Hn as [-> | Hn]; [vm_compute; reflexivity|]).
  inversion Hn.
Qed.

Lemma BlockHashByHeight_BlockHeightByHash_witness :
  viewLinked scenario2View /\ indexKeyed scenario2Index /\
  (BlockHashByHeight scenario2View 2 = Ok 102 <->
   BlockHeightByHash scenario2Index scenario2View 102 = Ok 2) /\
  (BlockHeightByHash scenario2Index scenario2View 102 = Ok 2 ->
   MainChainHasBlock scenario2Index scenario2View 102 = true).
Proof.
  split; [exact scenario2View_linked|]. split; [exact scenario2Index_keyed|].
  exact (BlockHashByHeight_BlockHeightByHash scenario2Index scenario2View 2 102
           scenario2View_linked scenario2Index_keyed scenario2View_indexed).
Defined.

Lemma HeightRange_BlockHashByHeight_witness :
  viewLinked scenario2View /\ Tip scenario2View = Some nodeB3 /\
  HeightRange scenario2View 1 3 = Ok [101; 102] /\
  Z.of_nat (length [101; 102]) = Z.max 0 (Z.min 3 (height nodeB3 + 1) - 1) /\
  forall (i : nat) (h : Hash),
    [101; 102] !! i = Some h -> BlockHashByHeight scenario2View (1 + Z.of_nat i) = Ok h.
Proof.
  assert (H : HeightRange scenario2View 1 3 = Ok [101; 102]) by (vm_compute; reflexivity).
  split; [exact scenario2View_linked|]. split; [reflexivity|]. split; [exact H|].
  exact (HeightRange_BlockHashByHeight scenario2View nodeB3 1 3 [101; 102]
           scenario2View_linked eq_refl H).
Defined.

Lemma GetVoteInfo_ok_witness :
  let vi := {| Agendas := [ {| voteId := "sdiffalgorithm"; voteMask := 6 |} ];
               AgendaStatus := [ {| State := 5; Choice := 1 |} ] |} in
  GetVoteInfo exampleDeployments activeThreshold 7 4 = Ok vi /\
  exampleDeployments !! 4 = Some (Agendas vi) /\
  Forall2 (fun d st => activeThreshold 7 4 (voteId d) = Ok st)
          (Agendas vi) (AgendaStatus vi).
Proof.
  cbv zeta.
  assert (H : GetVoteInfo exampleDeployments activeThreshold 7 4
              = Ok {| Agendas := [ {| voteId := "sdiffalgorithm"; voteMask := 6 |} ];
                      AgendaStatus := [ {| State := 5; Choice := 1 |} ] |})
    by reflexivity.
  split; [exact H|].
  exact (GetVoteInfo_ok exampleDeployments activeThreshold 7 4 _ H).
Defined.

(** ** [locateBlocks] *)

Lemma Contains_lookup (c : chainView) (n : blockNode) :
  Contains c n = true -> 0 <= height n /\ c !! Z.to_nat (height n) = Some n.
Proof.
  unfold Contains, NodeByHeight. destruct (Z.ltb_spec (height n) 0); [discriminate|].
  destruct (c !! Z.to_nat (height n)) as [m|]; [|discriminate].
  intros Heq. apply node_eqb_eq in Heq as ->. split; [lia | reflexivity].
Qed.

Lemma firstMainChain_Contains (bi : blockIndex) (c : chainView) (known : blockNode) :
  viewLinked c ->
  forall locator, firstMainChain bi c locator (Genesis c) = Some known ->
                  Contains c known = true.
Proof.
  intros Hl. induction locator as [|h locator IH]; simpl; intros H.
  - unfold Genesis in H. rewrite head_lookup in H.
    apply (NodeByHeight_linked c 0 known Hl). exact H.
  - destruct (LookupNode bi h) as [node|]; [|exact (IH H)].
    destruct (Contains c node) eqn:Hc; [|exact (IH H)].
    injection H as <-. exact Hc.
Qed.

Lemma Next_linked (c : chainView) (j : nat) (n : blockNode) :
  viewLinked c -> c !! j = Some n -> Next c (Some n) = c !! S j.
Proof.
  intros Hl Hn. pose proof Hl as [Hh _]. pose proof (Hh _ _ Hn) as Hj.
  unfold Next.
  assert (Hc : Contains c n = true).
  { apply (NodeByHeight_linked c (Z.of_nat j) n Hl). unfold NodeByHeight.
    destruct (Z.ltb_spec (Z.of_nat j) 0); [lia|]. rewrite Nat2Z.id. exact Hn. }
  rewrite Hc. unfold NodeByHeight. destruct (Z.ltb_spec (height n + 1) 0); [lia|].
  f_equal. lia.
Qed.

Lemma nextHashes_linked (c : chainView) :
  viewLinked c ->
  forall (k j : nat) (acc : list Hash),
    (j + k <= length c)%nat ->
    nextHashes c k (c !! j) acc = Some (acc ++ map hash (take k (drop j c))).
Proof.
  intros Hl. induction k as [|k IH]; intros j acc Hb.
  - simpl. rewrite app_nil_r. reflexivity.
  - destruct (lookup_lt_is_Some_2 c j ltac:(lia)) as [n Hn].
    cbn [nextHashes]. rewrite Hn, (Next_linked c j n Hl Hn), IH by lia.
    rewrite (drop_S c n j Hn). cbn [take map]. rewrite <- app_assoc. reflexivity.
Qed.

(** X12: with an empty locator [locateBlocks] returns the stop hash alone
    when the index knows it and nothing otherwise, whatever the limit
    [maxHashes], zero included. *)
Theorem locateBlocks_no_locator (bi : blockIndex) (c : chainView)
  (hashStop : Hash) (maxHashes : Z) :
  locateBlocks bi c [] hashStop maxHashes
  = Some match LookupNode bi hashStop with
         | Some s => [hash s]
         | None => []
         end.
Proof.
  unfold locateBlocks, locateInventory.
  destruct (LookupNode bi hashStop); reflexivity.
Qed.

(** X13: with a locator that is not empty, [locateBlocks] returns the
    hashes of the main-chain blocks that follow the first known locator
    block, in chain order, up to the stop block when that block lies on
    the main chain after the known one and up to the tip otherwise, and
    never more than [maxHashes]. *)
Theorem locateBlocks_main_chain (bi : blockIndex) (c : chainView)
  (tip known : blockNode) (h0 : Hash) (locator : list Hash) (hashStop : Hash)
  (maxHashes : Z) :
  viewLinked c ->
  Tip c = Some tip ->
  height tip + 1 < 2 ^ 32 ->
  0 <= maxHashes ->
  firstMainChain bi c (h0 :: locator) (Genesis c) = Some known ->
  let limit :=
    match LookupNode bi hashStop with
    | Some s =>
        if Contains c s && Z.geb (height s) (height known + 1)
        then height s - height known
        else height tip - height known
    | None => height tip - height known
    end in
  locateBlocks bi c (h0 :: locator) hashStop maxHashes
  = Some (map hash (take (Z.to_nat (Z.min maxHashes limit))
                         (drop (S (Z.to_nat (height known))) c))).
Proof.
  intros Hl Htip Hbound Hmax Hfirst limit.
  pose proof (viewLinked_tip_height c tip Hl Htip) as Hth.
  pose proof (firstMainChain_Contains bi c known Hl _ Hfirst) as Hck.
  destruct (Contains_lookup c known Hck) as [Hk0 Hkn].
  unfold locateBlocks, locateInventory. rewrite Hfirst.
  rewrite (Next_linked c _ known Hl Hkn).
  destruct (c !! S (Z.to_nat (height known))) as [start|] eqn:Hstart.
  - pose proof Hl as [Hh _]. pose proof (Hh _ _ Hstart) as Hsh.
    pose proof (lookup_lt_Some _ _ _ Hstart) as Hlt.
    rewrite Htip.
    assert (Hu : forall z, 0 <= z < 2 ^ 32 -> uint32 z = z).
    { intros z Hz. unfold uint32. apply Z.mod_small. exact Hz. }
    set (total0 := uint32 (height tip - height start + 1)).
    assert (Ht0 : total0 = height tip - height known).
    { subst total0. rewrite Hu by lia. lia. }
    set (total1 := match LookupNode bi hashStop with
                   | Some s => if Contains c s && (height s >=? height start)
                               then uint32 (height s - height start + 1) else total0
                   | None => total0
                   end).
    assert (Ht1 : total1 = limit /\ 1 <= limit <= height tip - height known).
    { subst total1 limit. destruct (LookupNode bi hashStop) as [s|]; [|lia].
      replace (height start) with (height known + 1) by lia.
      destruct (Contains c s) eqn:Hcs; simpl; [|lia].
      destruct (Z.geb_spec (height s) (height known + 1)); [|lia].
      destruct (Contains_lookup c s Hcs) as [Hs0 Hsn].
      pose proof (lookup_lt_Some _ _ _ Hsn). rewrite Hu by lia. lia. }
    destruct Ht1 as [Ht1 Hlim]. rewrite Ht1.
    set (total := if limit >? maxHashes then maxHashes else limit).
    assert (Htot : total = Z.min maxHashes limit).
    { subst total. destruct (Z.gtb_spec limit maxHashes); lia. }
    rewrite Htot. destruct (Z.eqb_spec (Z.min maxHashes limit) 0) as [Hz | Hnz].
    + rewrite Hz. reflexivity.
    + rewrite <- Hstart. rewrite nextHashes_linked by (try exact Hl; lia).
      reflexivity.
  - apply lookup_ge_None in Hstart. rewrite drop_ge by lia.
    rewrite take_nil. reflexivity.
Qed.

Lemma locateBlocks_main_chain_witness :
  viewLinked scenario2View /\ Tip scenario2View = Some nodeB3 /\
  height nodeB3 + 1 < 2 ^ 32 /\ 0 <= 10 /\
  firstMainChain scenario2Index scenario2View [101] (Genesis scenario2View)
  = Some nodeB1 /\
  locateBlocks scenario2Index scenario2View [101] 0 10 = Some [102; 103].
Proof.
  assert (H1 : height nodeB3 + 1 < 2 ^ 32) by (simpl; lia).
  assert (H2 : 0 <= 10) by lia.
  assert (H3 : firstMainChain scenario2Index scenario2View [101] (Genesis scenario2View)
               = Some nodeB1) by (vm_compute; reflexivity).
  split; [exact scenario2View_linked|]. split; [reflexivity|].
  split; [exact H1|]. split; [exact H2|]. split; [exact H3|].
  exact (locateBlocks_main_chain scenario2Index scenario2View nodeB3 nodeB1 101 [] 0 10
           scenario2View_linked eq_refl H1 H2 H3).
Defined.

(** ** [connectBlock] and [disconnectBlock]: effects *)

Lemma sidePath_head (c : chainView) (n : blockNode) :
  Contains c n = false -> head (sidePath c n) = Some n.
Proof. intros H. rewrite sidePath_unfold, H. reflexivity. Qed.

Lemma Tip_SetTip (c : chainView) (n : blockNode) :
  Tip (SetTip c (Some n)) = Some n.
Proof.
  unfold Tip, SetTip. destruct (Contains c n) eqn:Hc.
  - rewrite FindFork_unfold, sidePath_unfold, Hc. simpl. rewrite app_nil_r.
    unfold Contains, NodeByHeight in Hc.
    destruct (Z.ltb_spec (height n) 0); [discriminate|].
    destruct (c !! Z.to_nat (height n)) as [m|] eqn:Hm; [|discriminate].
    apply node_eqb_eq in Hc as ->.
    rewrite (take_S_r c _ n Hm). apply last_snoc.
  - pose proof (sidePath_head c n Hc) as Hh.
    destruct (sidePath c n) as [|x l] eqn:Hs; [discriminate|].
    injection Hh as ->. rewrite reverse_cons.
    destruct (FindFork c n); [rewrite app_assoc|]; apply last_snoc.
Qed.

Lemma flushBlockIndex_run (E : Collaborators) (b b' : BlockChain) (r : result unit) :
  flushBlockIndex E b = (b', r) ->
  (r = Ok tt /\ b' = flushed b /\ flushFailure E (index b) = None) \/
  (exists e, r = Err e /\ b' = b /\ flushFailure E (index b) = Some e).
Proof.
  unfold flushBlockIndex, bind, get, fail, modify.
  destruct (flushFailure E (index b)) as [e|]; intros H; injection H as <- <-.
  - right. eauto.
  - left. auto.
Qed.

Lemma fetchStake_run (E : Collaborators) (n : blockNode) (b b' : BlockChain)
  (r : result Z) :
  fetchStake E n b = (b', r) ->
  match r with
  | Ok sn => b' = withStake b n sn /\ fetchStakeNode E n = Done sn
  | _ => b' = b
  end.
Proof.
  unfold fetchStake, bind, liftR, modify, ret.
  destruct (fetchStakeNode E n); intros H; injection H as <- <-; auto.
Qed.

Lemma dbUpdate_run (E : Collaborators) (batch : list dbOp) (b b' : BlockChain)
  (r : result unit) :
  dbUpdate E batch b = (b', r) ->
  (r = Ok tt /\ b' = withDb b (db b ++ batch)) \/ (exists e, r = Err e /\ b' = b).
Proof.
  unfold dbUpdate, bind, get, fail, modify.
  destruct (updateFailure E (db b) batch); intros H; injection H as <- <-; eauto.
Qed.

Lemma liftR_run {A : Type} (o : outcome A) (b b' : BlockChain) (a : A) :
  liftR o b = (b', Ok a) -> b' = b /\ o = Done a.
Proof. unfold liftR. destruct o; intros H; inversion H; auto. Qed.

Lemma deref_run {A : Type} (o : option A) (b b' : BlockChain) (a : A) :
  deref o b = (b', Ok a) -> b' = b /\ o = Some a.
Proof. destruct o; unfold deref, ret, panicf; intros H; inversion H; auto. Qed.

Lemma connectBlock_run (E : Collaborators) (node : blockNode)
  (blk parentBlock : Block) (view v : UtxoViewpoint) (stxos : list spentTxOut)
  (b b' : BlockChain) :
  connectBlock E node blk parentBlock view stxos b = (b', Ok v) ->
  bestChain b' = SetTip (bestChain b) (Some node) /\
  Tip (bestChain b') = Some node /\
  bsHash (stateSnapshot b') = hash node /\
  bsHeight (stateSnapshot b') = height node /\
  bsTotalTxns (stateSnapshot b')
  = uint64 (bsTotalTxns (stateSnapshot b) + countNumberOfTransactions E blk parentBlock) /\
  bsTotalSubsidy (stateSnapshot b')
  = int64 (bsTotalSubsidy (stateSnapshot b) + CalculateAddedSubsidy E blk parentBlock) /\
  mainchainBlockCache b' !! blockHash blk = Some blk /\
  v = viewCommit E view /\
  status (index b') = status (index b) /\
  (exists sn tail,
      db b' = db b ++ [dbPutBlockIndex (modified (index b));
                       dbPutBestState (stateSnapshot b') (workSum node);
                       dbPutUtxoView view;
                       dbPutSpendJournalEntry (blockHash blk) stxos;
                       WriteConnectedBestNode sn (hash node)] ++ tail) /\
  (exists more,
      notified b' = notified b
                    ++ NTBlockConnected (blockHash blk) (blockHash parentBlock) :: more).
Proof.
  intros H. unfold connectBlock in H.
  unfold bind at 1, get at 1 in H.
  bind_step H. apply deref_run in Hm as [-> Htip].
  destruct (negb _); [discriminate|].
  destruct (countSpentOutputs E blk parentBlock); [|discriminate].
  destruct (negb _); [discriminate|].
  bind_step H. apply flushBlockIndex_run in Hm as [(_ & -> & _) | (e & He & _)];
    [|discriminate].
  bind_step H. apply fetchStake_run in Hm as [-> Hsn].
  unfold bind at 1, get at 1 in H.
  bind_step H. apply liftR_run in Hm as [-> Hcalc].
  bind_step H. apply dbUpdate_run in Hm as [(_ & ->) | (e & He & _)]; [|discriminate].
  unfold bind at 1, modify at 1 in H. unfold bind at 1, modify at 1 in H.
  unfold bind at 1, sendNotification at 1, modify at 1 in H.
  bind_step H. rename b'0 into b1, Hm into Hstake.
  bind_step H. rename b'0 into b2, Hm into Hckpt.
  unfold bind, pushMainChainBlockCache, modify, ret in H. injection H as <- <-.
  assert (H1 : bestChain b1 = SetTip (bestChain b) (Some node) /\
               stateSnapshot b1
               = newBestState node (blockSize blk)
                   (countNumberOfTransactions E blk parentBlock)
                   (uint64 (bsTotalTxns (stateSnapshot b)
                            + countNumberOfTransactions E blk parentBlock))
                   (CalcPastMedianTime E node)
                   (int64 (bsTotalSubsidy (stateSnapshot b)
                           + CalculateAddedSubsidy E blk parentBlock))
                   (uint32 (PoolSize E a1)) a2 (Winners E a1) (MissedTickets E a1)
                   (FinalState E a1) /\
               status (index b1) = status (index b) /\
               (exists tail,
                   db b1 = db b ++ [dbPutBlockIndex (modified (index b));
                                    dbPutBestState (stateSnapshot b1) (workSum node);
                                    dbPutUtxoView view;
                                    dbPutSpendJournalEntry (blockHash blk) stxos;
                                    WriteConnectedBestNode a1 (hash node)] ++ tail) /\
               exists more,
                 notified b1 = notified b
                   ++ NTBlockConnected (blockHash blk) (blockHash parentBlock) :: more).
  { destruct (height node >=? StakeEnabledHeight E).
    - bind_step Hstake. apply liftR_run in Hm as [-> _].
      unfold bind, sendNotification, modify in Hstake. injection Hstake as <- _.
      simpl. repeat split.
      + eexists. rewrite <- app_assoc. reflexivity.
      + eexists. rewrite <- !app_assoc. reflexivity.
    - unfold ret in Hstake. injection Hstake as <- _. simpl. repeat split.
      + eexists. rewrite <- app_assoc. reflexivity.
      + eexists. reflexivity. }
  assert (H2 : bestChain b2 = bestChain b1 /\ stateSnapshot b2 = stateSnapshot b1 /\
               db b2 = db b1 /\ notified b2 = notified b1 /\
               mainchainBlockCache b2 = mainchainBlockCache b1 /\
               index b2 = index b1).
  { destruct (height node <? LatestCheckpointHeight E).
    - unfold bind at 1, get at 1 in Hckpt.
      bind_step Hckpt. apply deref_run in Hm as [-> _].
      bind_step Hckpt. apply deref_run in Hm as [-> _].
      unfold dropStakeData, modify in Hckpt. injection Hckpt as <- _.
      repeat split.
    - unfold ret in Hckpt. injection Hckpt as <- _. repeat split. }
  destruct H1 as (Hc1 & Hs1 & Hi1 & Hd1 & Hn1).
  destruct H2 as (Hc2 & Hs2 & Hd2 & Hn2 & Hm2 & Hi2).
  simpl. rewrite Hc2, Hc1, Hs2, Hs1, Hd2, Hn2, Hi2, Hi1. simpl.
  split; [reflexivity|]. split; [apply Tip_SetTip|]. repeat (split; [reflexivity|]).
  split.
  { apply map_lookup_filter_Some. split; [apply lookup_insert_eq|].
    simpl. unfold mainchainBlockCacheSize. lia. }
  split; [reflexivity|]. split; [reflexivity|]. split.
  - destruct Hd1 as [tail Hd1]. exists a1, tail. rewrite Hd1, Hs1. reflexivity.
  - exact Hn1.
Qed.

(** X14: a [connectBlock] that returns without error has set the tip of
    the view to the node, published a snapshot for it whose totals are the old totals
    plus what the block adds, cached the block, left every status of the
    index as it was, written the index flush followed by one batch that
    starts with the best state, the view, the spend journal entry and the
    stake node, and sent [NTBlockConnected] first. *)
Theorem connectBlock_success (E : Collaborators) (node : blockNode)
  (blk parentBlock : Block) (view v : UtxoViewpoint) (stxos : list spentTxOut)
  (b b' : BlockChain) :
  connectBlock E node blk parentBlock view stxos b = (b', Ok v) ->
  bestChain b' = SetTip (bestChain b) (Some node) /\
  Tip (bestChain b') = Some node /\
  bsHash (stateSnapshot b') = hash node /\
  bsHeight (stateSnapshot b') = height node /\
  bsTotalTxns (stateSnapshot b')
  = uint64 (bsTotalTxns (stateSnapshot b) + countNumberOfTransactions E blk parentBlock) /\
  bsTotalSubsidy (stateSnapshot b')
  = int64 (bsTotalSubsidy (stateSnapshot b) + CalculateAddedSubsidy E blk parentBlock) /\
  mainchainBlockCache b' !! blockHash blk = Some blk /\
  v = viewCommit E view /\
  status (index b') = status (index b) /\
  (exists sn tail,
      db b' = db b ++ [dbPutBlockIndex (modified (index b));
                       dbPutBestState (stateSnapshot b') (workSum node);
                       dbPutUtxoView view;
                       dbPutSpendJournalEntry (blockHash blk) stxos;
                       WriteConnectedBestNode sn (hash node)] ++ tail) /\
  (exists more,
      notified b' = notified b
                    ++ NTBlockConnected (blockHash blk) (blockHash parentBlock) :: more).
Proof. exact (connectBlock_run E node blk parentBlock view v stxos b b'). Qed.






Lemma connectBlock_success_witness :
  let run := connectBlock acceptAll nodeB4 (emptyBlockOf nodeB4) (emptyBlockOf nodeB3)
               NewUtxoViewpoint [] (chainWith siblingIndex) in
  run = (fst run, Ok NewUtxoViewpoint) /\
  Tip (bestChain (fst run)) = Some nodeB4 /\
  bsHash (stateSnapshot (fst run)) = hash nodeB4.
Proof.
  cbv zeta.
  set (run := connectBlock acceptAll nodeB4 (emptyBlockOf nodeB4) (emptyBlockOf nodeB3)
                NewUtxoViewpoint [] (chainWith siblingIndex)).
  assert (H : run = (fst run, Ok NewUtxoViewpoint)) by (vm_compute; reflexivity).
  split; [exact H|].
  pose proof (connectBlock_success acceptAll nodeB4 (emptyBlockOf nodeB4)
                (emptyBlockOf nodeB3) NewUtxoViewpoint NewUtxoViewpoint []
                (chainWith siblingIndex) (fst run) H) as (_ & Ht & Hh & _).
  split; [exact Ht | exact Hh].
Defined.


Lemma disconnectBlock_run (E : Collaborators) (node : blockNode)
  (blk parentBlock : Block) (view v : UtxoViewpoint) (b b' : BlockChain) :
  disconnectBlock E node blk parentBlock view b = (b', Ok v) ->
  exists prevNode,
    parent node = Some prevNode /\
    bestChain b' = SetTip (bestChain b) (Some prevNode) /\
    Tip (bestChain b') = Some prevNode /\
    bsHash (stateSnapshot b') = hash prevNode /\
    bsHeight (stateSnapshot b') = height prevNode /\
    bsNumTxns (stateSnapshot b') = countNumberOfTransactions E blk parentBlock /\
    bsTotalTxns (stateSnapshot b')
    = uint64 (bsTotalTxns (stateSnapshot b) - countNumberOfTransactions E blk parentBlock) /\
    bsTotalSubsidy (stateSnapshot b')
    = int64 (bsTotalSubsidy (stateSnapshot b) - CalculateAddedSubsidy E blk parentBlock) /\
    mainchainBlockCache b' = delete (blockHash blk) (mainchainBlockCache b) /\
    v = viewCommit E view /\
    status (index b') = status (index b) /\
    (exists sn undo tail,
        db b' = db b ++ [dbPutBlockIndex (modified (index b));
                         dbPutBestState (stateSnapshot b') (workSum node);
                         dbPutUtxoView view;
                         dbRemoveSpendJournalEntry (blockHash blk);
                         WriteDisconnectedBestNode sn (hash prevNode) undo] ++ tail) /\
    notified b' = notified b
                  ++ [NTBlockDisconnected (blockHash blk) (blockHash parentBlock)].
Proof.
  intros H. unfold disconnectBlock in H.
  unfold bind at 1, get at 1 in H.
  bind_step H. apply deref_run in Hm as [-> Htip].
  destruct (negb _); [discriminate|].
  bind_step H. apply flushBlockIndex_run in Hm as [(_ & -> & _) | (e & He & _)];
    [|discriminate].
  bind_step H. apply fetchStake_run in Hm as [-> Hsn].
  bind_step H. apply deref_run in Hm as [-> Hp].
  bind_step H. apply fetchStake_run in Hm as [-> Hpsn].
  unfold bind at 1, get at 1 in H.
  bind_step H. apply dbUpdate_run in Hm as [(_ & ->) | (e & He & _)]; [|discriminate].
  unfold bind, modify, sendNotification, dropMainChainBlockCache, ret in H.
  injection H as <- <-.
  eexists. split; [exact Hp|]. simpl.
  split; [reflexivity|]. split; [apply Tip_SetTip|]. repeat (split; [reflexivity|]).
  split.
  - do 3 eexists. rewrite <- !app_assoc. reflexivity.
  - reflexivity.
Qed.

(** X16: a [disconnectBlock] that returns without error has set the tip
    of the view to the parent of the node, published a snapshot for the parent whose
    totals are the old totals minus what the block added and whose
    [NumTxns] is the count of the block disconnected, dropped the block
    from the cache, left every status as it was, written the index flush
    and one batch, and sent [NTBlockDisconnected] as the only
    notification. *)
Theorem disconnectBlock_success (E : Collaborators) (node : blockNode)
  (blk parentBlock : Block) (view v : UtxoViewpoint) (b b' : BlockChain) :
  disconnectBlock E node blk parentBlock view b = (b', Ok v) ->
  exists prevNode,
    parent node = Some prevNode /\
    bestChain b' = SetTip (bestChain b) (Some prevNode) /\
    Tip (bestChain b') = Some prevNode /\
    bsHash (stateSnapshot b') = hash prevNode /\
    bsHeight (stateSnapshot b') = height prevNode /\
    bsNumTxns (stateSnapshot b') = countNumberOfTransactions E blk parentBlock /\
    bsTotalTxns (stateSnapshot b')
    = uint64 (bsTotalTxns (stateSnapshot b) - countNumberOfTransactions E blk parentBlock) /\
    bsTotalSubsidy (stateSnapshot b')
    = int64 (bsTotalSubsidy (stateSnapshot b) - CalculateAddedSubsidy E blk parentBlock) /\
    mainchainBlockCache b' = delete (blockHash blk) (mainchainBlockCache b) /\
    v = viewCommit E view /\
    status (index b') = status (index b) /\
    (exists sn undo tail,
        db b' = db b ++ [dbPutBlockIndex (modified (index b));
                         dbPutBestState (stateSnapshot b') (workSum node);
                         dbPutUtxoView view;
                         dbRemoveSpendJournalEntry (blockHash blk);
                         WriteDisconnectedBestNode sn (hash prevNode) undo] ++ tail) /\
    notified b' = notified b
                  ++ [NTBlockDisconnected (blockHash blk) (blockHash parentBlock)].
Proof. exact (disconnectBlock_run E node blk parentBlock view v b b'). Qed.

Lemma uint64_add_sub (t n : Z) : 0 <= t < 2 ^ 64 -> uint64 (uint64 (t + n) - n) = t.
Proof.
  intros Ht. unfold uint64. rewrite Zminus_mod_idemp_l.
  replace (t + n - n) with t by lia. apply Z.mod_small. exact Ht.
Qed.

Lemma int64_add_sub (t n : Z) :
  - 2 ^ 63 <= t < 2 ^ 63 -> int64 (int64 (t + n) - n) = t.
Proof.
  intros Ht. unfold int64.
  replace ((t + n + 2 ^ 63) mod 2 ^ 64 - 2 ^ 63 - n + 2 ^ 63)
    with ((t + n + 2 ^ 63) mod 2 ^ 64 - n) by lia.
  rewrite Zminus_mod_idemp_l.
  replace (t + n + 2 ^ 63 - n) with (t + 2 ^ 63) by lia.
  rewrite Z.mod_small by lia. lia.
Qed.

(** X17: connecting a block and disconnecting it again brings the running
    totals [TotalTxns] and [TotalSubsidy] back to what they were, wrap
    around included, leaves the parent of the node as tip, the block out
    of the cache and the statuses unchanged, and has sent
    [NTBlockConnected] first and [NTBlockDisconnected] last. *)
Theorem connectBlock_disconnectBlock (E : Collaborators) (node : blockNode)
  (blk parentBlock : Block) (view view' v v' : UtxoViewpoint)
  (stxos : list spentTxOut) (b b1 b2 : BlockChain) :
  connectBlock E node blk parentBlock view stxos b = (b1, Ok v) ->
  disconnectBlock E node blk parentBlock view' b1 = (b2, Ok v') ->
  0 <= bsTotalTxns (stateSnapshot b) < 2 ^ 64 ->
  - 2 ^ 63 <= bsTotalSubsidy (stateSnapshot b) < 2 ^ 63 ->
  Tip (bestChain b2) = parent node /\
  bsTotalTxns (stateSnapshot b2) = bsTotalTxns (stateSnapshot b) /\
  bsTotalSubsidy (stateSnapshot b2) = bsTotalSubsidy (stateSnapshot b) /\
  mainchainBlockCache b2 !! blockHash blk = None /\
  status (index b2) = status (index b) /\
  exists more,
    notified b2
    = notified b ++ NTBlockConnected (blockHash blk) (blockHash parentBlock) :: more
      ++ [NTBlockDisconnected (blockHash blk) (blockHash parentBlock)].
Proof.
  intros Hc Hd Ht Hs.
  destruct (connectBlock_run _ _ _ _ _ _ _ _ _ Hc)
    as (_ & _ & _ & _ & Htx & Hsub & _ & _ & Hst & _ & [more Hn]).
  destruct (disconnectBlock_run _ _ _ _ _ _ _ _ Hd)
    as (p & Hp & _ & Htip & _ & _ & _ & Htx' & Hsub' & Hcache & _ & Hst' & _ & Hn').
  split; [congruence|].
  split; [rewrite Htx', Htx; apply uint64_add_sub; exact Ht|].
  split; [rewrite Hsub', Hsub; apply int64_add_sub; exact Hs|].
  split; [rewrite Hcache; apply lookup_delete_eq|].
  split; [congruence|].
  exists more. rewrite Hn', Hn, <- app_assoc. reflexivity.
Qed.

Lemma disconnectBlock_success_witness :
  let run := disconnectBlock acceptAll nodeB3 (emptyBlockOf nodeB3) (emptyBlockOf nodeB2)
               NewUtxoViewpoint (chainWith siblingIndex) in
  run = (fst run, Ok NewUtxoViewpoint) /\
  exists prevNode,
    parent nodeB3 = Some prevNode /\ Tip (bestChain (fst run)) = Some prevNode.
Proof.
  cbv zeta.
  set (run := disconnectBlock acceptAll nodeB3 (emptyBlockOf nodeB3) (emptyBlockOf nodeB2)
                NewUtxoViewpoint (chainWith siblingIndex)).
  assert (H : run = (fst run, Ok NewUtxoViewpoint)) by (vm_compute; reflexivity).
  split; [exact H|].
  destruct (disconnectBlock_success acceptAll nodeB3 (emptyBlockOf nodeB3)
              (emptyBlockOf nodeB2) NewUtxoViewpoint NewUtxoViewpoint
              (chainWith siblingIndex) (fst run) H) as (p & Hp & _ & Ht & _).
  exists p. split; [exact Hp | exact Ht].
Defined.

Lemma connectBlock_disconnectBlock_witness :
  let b := chainWith siblingIndex in
  let run1 := connectBlock acceptAll nodeB4 (emptyBlockOf nodeB4) (emptyBlockOf nodeB3)
                NewUtxoViewpoint [] b in
  let run2 := disconnectBlock acceptAll nodeB4 (emptyBlockOf nodeB4) (emptyBlockOf nodeB3)
                NewUtxoViewpoint (fst run1) in
  run1 = (fst run1, Ok NewUtxoViewpoint) /\
  run2 = (fst run2, Ok NewUtxoViewpoint) /\
  0 <= bsTotalTxns (stateSnapshot b) < 2 ^ 64 /\
  - 2 ^ 63 <= bsTotalSubsidy (stateSnapshot b) < 2 ^ 63 /\
  Tip (bestChain (fst run2)) = parent nodeB4 /\
  bsTotalTxns (stateSnapshot (fst run2)) = bsTotalTxns (stateSnapshot b) /\
  bsTotalSubsidy (stateSnapshot (fst run2)) = bsTotalSubsidy (stateSnapshot b).
Proof.
  cbv zeta.
  set (b := chainWith siblingIndex).
  set (run1 := connectBlock acceptAll nodeB4 (emptyBlockOf nodeB4) (emptyBlockOf nodeB3)
                 NewUtxoViewpoint [] b).
  set (run2 := disconnectBlock acceptAll nodeB4 (emptyBlockOf nodeB4)
                 (emptyBlockOf nodeB3) NewUtxoViewpoint (fst run1)).
  assert (H1 : run1 = (fst run1, Ok NewUtxoViewpoint)) by (vm_compute; reflexivity).
  assert (H2 : run2 = (fst run2, Ok NewUtxoViewpoint)) by (vm_compute; reflexivity).
  assert (H3 : 0 <= bsTotalTxns (stateSnapshot b) < 2 ^ 64) by (simpl; lia).
  assert (H4 : - 2 ^ 63 <= bsTotalSubsidy (stateSnapshot b) < 2 ^ 63) by (simpl; lia).
  split; [exact H1|]. split; [exact H2|]. split; [exact H3|]. split; [exact H4|].
  pose proof (connectBlock_disconnectBlock acceptAll nodeB4 (emptyBlockOf nodeB4)
                (emptyBlockOf nodeB3) NewUtxoViewpoint NewUtxoViewpoint
                NewUtxoViewpoint NewUtxoViewpoint [] b (fst run1) (fst run2)
                H1 H2 H3 H4) as (Ht & Htx & Hs & _).
  split; [exact Ht|]. split; [exact Htx | exact Hs].
Defined.

(** ** [getReorganizeNodes] on a side chain of valid entries *)

Lemma collectAttach_sidePath (bi : blockIndex) (c : chainView) (f : blockNode) :
  forall (n : blockNode) (acc : list blockNode),
    FindFork c n = Some f ->
    Forall (fun d => KnownInvalid (NodeStatus bi d) = false) (sidePath c n) ->
    collectAttach bi (Some f) n acc = (bi, Some (reverse (sidePath c n) ++ acc)).
Proof.
  induction n as [n Hn | n p Hn IH] using blockNode_parent_ind;
    intros acc Hfork Hok;
    rewrite FindFork_unfold, Hn in Hfork; rewrite sidePath_unfold, Hn in Hok;
    rewrite collectAttach_unfold, sidePath_unfold, Hn;
    destruct (Contains c n) eqn:Hc; try discriminate.
  - injection Hfork as <-. simpl. rewrite node_eqb_refl. reflexivity.
  - injection Hfork as <-. simpl. rewrite node_eqb_refl. reflexivity.
  - assert (Hne : node_eqb n f = false).
    { apply node_eqb_neq. intros ->.
      rewrite (FindFork_Contains c p f Hfork) in Hc. discriminate. }
    simpl. rewrite Hne. apply Forall_cons in Hok as [Hv Hok]. rewrite Hv.
    rewrite (IH (n :: acc) Hfork Hok), reverse_cons, <- app_assoc. reflexivity.
Qed.

Lemma collectDetach_linked (c : chainView) (j : nat) (f : blockNode) :
  viewLinked c -> c !! j = Some f ->
  forall (k : nat) (t : blockNode),
    c !! (j + k)%nat = Some t ->
    collectDetach (Some f) t = reverse (take k (drop (S j) c)).
Proof.
  intros Hl Hf. pose proof Hl as (Hh & Hlink & _).
  induction k as [|k IH]; intros t Ht; rewrite collectDetach_unfold.
  - rewrite Nat.add_0_r in Ht. rewrite Hf in Ht. injection Ht as <-.
    simpl. rewrite node_eqb_refl. reflexivity.
  - assert (Hne : node_eqb t f = false).
    { apply node_eqb_neq. intros ->.
      pose proof (Hh _ _ Hf). pose proof (Hh _ _ Ht). lia. }
    simpl. rewrite Hne.
    destruct (lookup_lt_is_Some_2 c (j + k)) as [m Hm].
    { apply lookup_lt_Some in Ht. lia. }
    replace (j + S k)%nat with (S (j + k)) in Ht by lia.
    rewrite (Hlink _ _ _ Hm Ht), (IH m Hm).
    assert (Hd : drop (S j) c !! k = Some t).
    { rewrite lookup_drop. exact Ht. }
    rewrite (take_S_r _ _ _ Hd), reverse_snoc. reflexivity.
Qed.

Lemma getReorganizeNodes_side_branch (bi : blockIndex) (c : chainView)
  (node p f : blockNode) :
  viewLinked c ->
  parent node = Some p ->
  FindFork c node = Some f ->
  KnownInvalid (NodeStatus bi p) = false ->
  Forall (fun d => KnownInvalid (NodeStatus bi d) = false) (sidePath c node) ->
  getReorganizeNodes bi c (Some node)
  = Some (bi, (reverse (drop (S (Z.to_nat (height f))) c),
               reverse (sidePath c node))).
Proof.
  intros Hl Hp Hfork Hpv Hok.
  unfold getReorganizeNodes. rewrite Hp, Hpv, Hfork.
  rewrite (collectAttach_sidePath bi c f node [] Hfork Hok), app_nil_r.
  destruct (Contains_lookup c f (FindFork_Contains c node f Hfork)) as [Hh Hf].
  destruct (Tip c) as [t|] eqn:Ht.
  2:{ unfold Tip in Ht. apply last_None in Ht. subst c. discriminate. }
  unfold Tip in Ht. rewrite last_lookup in Ht.
  pose proof (lookup_lt_Some _ _ _ Hf) as Hlt.
  rewrite (collectDetach_linked c (Z.to_nat (height f)) f Hl Hf
             (pred (length c) - Z.to_nat (height f)) t).
  - rewrite take_ge; [reflexivity|]. rewrite length_drop. lia.
  - rewrite <- Ht. f_equal. lia.
Qed.

(** X18: for a node whose side branch holds no known invalid entry,
    [getReorganizeNodes] changes no status and returns, as nodes to
    detach, the main chain above the fork point from the tip downwards
    and, as nodes to attach, the side branch from the fork point upwards,
    ending in the node. *)
Theorem getReorganizeNodes_valid (bi : blockIndex) (c : chainView)
  (node p f : blockNode) :
  viewLinked c ->
  parent node = Some p ->
  FindFork c node = Some f ->
  KnownInvalid (NodeStatus bi p) = false ->
  Forall (fun d => KnownInvalid (NodeStatus bi d) = false) (sidePath c node) ->
  getReorganizeNodes bi c (Some node)
  = Some (bi, (reverse (drop (S (Z.to_nat (height f))) c),
               reverse (sidePath c node))).
Proof. exact (getReorganizeNodes_side_branch bi c node p f). Qed.

Lemma getReorganizeNodes_valid_witness :
  viewLinked scenario2View /\
  parent nodeB3a = Some nodeB2a /\
  FindFork scenario2View nodeB3a = Some nodeB1 /\
  KnownInvalid (NodeStatus (index scenario4Chain) nodeB2a) = false /\
  Forall (fun d => KnownInvalid (NodeStatus (index scenario4Chain) d) = false)
         (sidePath scenario2View nodeB3a) /\
  getReorganizeNodes (index scenario4Chain) scenario2View (Some nodeB3a)
  = Some (index scenario4Chain, ([nodeB3; nodeB2], [nodeB2a; nodeB3a])).
Proof.
  assert (H1 : FindFork scenario2View nodeB3a = Some nodeB1) by (vm_compute; reflexivity).
  assert (H2 : KnownInvalid (NodeStatus (index scenario4Chain) nodeB2a) = false)
    by (vm_compute; reflexivity).
  assert (H3 : Forall (fun d => KnownInvalid (NodeStatus (index scenario4Chain) d) = false)
                      (sidePath scenario2View nodeB3a)).
  { assert (Hs : sidePath scenario2View nodeB3a = [nodeB3a; nodeB2a])
      by (vm_compute; reflexivity).
    rewrite Hs. repeat constructor; vm_compute; reflexivity. }
  split; [exact scenario2View_linked|]. split; [reflexivity|].
  split; [exact H1|]. split; [exact H2|]. split; [exact H3|].
  exact (getReorganizeNodes_valid (index scenario4Chain) scenario2View nodeB3a nodeB2a
           nodeB1 scenario2View_linked eq_refl H1 H2 H3).
Defined.

(** ** [reorganizeChain]: the notifications of a reorganization *)

Lemma blockNotes_same (b b' : BlockChain) :
  notified b' = notified b -> blockNotes b b'.
Proof. intros H. exists []. rewrite app_nil_r. split; [exact H | constructor]. Qed.

#[local] Instance blockNotes_preorder : PreOrder blockNotes.
Proof.
  split.
  - intros b. apply blockNotes_same. reflexivity.
  - intros b1 b2 b3 (l1 & H1 & F1) (l2 & H2 & F2). exists (l1 ++ l2).
    rewrite H2, H1, app_assoc. split; [reflexivity | apply Forall_app; auto].
Qed.

Lemma preserves_weaken (R S : relation BlockChain) {A : Type} (m : M A) :
  (forall b b', R b b' -> S b b') -> preserves R m -> preserves S m.
Proof. intros HRS Hm b b' r H. apply HRS, (Hm _ _ _ H). Qed.

Lemma pres_quiet {A : Type} (f : BlockChain -> BlockChain) :
  (forall b, notified (f b) = notified b) -> preserves blockNotes (modify f).
Proof. intros Hf. apply pres_modify. intros b. apply blockNotes_same, Hf. Qed.

Lemma pres_sendNotification (n : Notification) :
  blockLevel n = true -> preserves blockNotes (sendNotification n).
Proof.
  intros Hn. apply pres_modify. intros b. exists [n].
  split; [reflexivity | repeat constructor; exact Hn].
Qed.

Lemma pres_flushBlockIndex (E : Collaborators) : preserves blockNotes (flushBlockIndex E).
Proof.
  unfold flushBlockIndex. pres. apply pres_modify. intros b.
  apply blockNotes_same. reflexivity.
Qed.

Lemma pres_fetchStake (E : Collaborators) (n : blockNode) :
  preserves blockNotes (fetchStake E n).
Proof.
  unfold fetchStake. pres. apply pres_modify. intros b.
  apply blockNotes_same. reflexivity.
Qed.

Lemma pres_dbUpdate (E : Collaborators) (batch : list dbOp) :
  preserves blockNotes (dbUpdate E batch).
Proof.
  unfold dbUpdate. pres. apply pres_modify. intros b.
  apply blockNotes_same. reflexivity.
Qed.

Ltac quiet :=
  try (apply pres_modify; intros ?; apply blockNotes_same; reflexivity);
  try (apply pres_sendNotification; reflexivity).

Lemma pres_connectBlock (E : Collaborators) (node : blockNode)
  (blk parentBlock : Block) (view : UtxoViewpoint) (stxos : list spentTxOut) :
  preserves blockNotes (connectBlock E node blk parentBlock view stxos).
Proof.
  pose proof (pres_flushBlockIndex E). pose proof (pres_fetchStake E).
  pose proof (pres_dbUpdate E).
  unfold connectBlock, pushMainChainBlockCache, dropStakeData. pres; quiet.
Qed.

Lemma pres_disconnectBlock (E : Collaborators) (node : blockNode)
  (blk parentBlock : Block) (view : UtxoViewpoint) :
  preserves blockNotes (disconnectBlock E node blk parentBlock view).
Proof.
  pose proof (pres_flushBlockIndex E). pose proof (pres_fetchStake E).
  pose proof (pres_dbUpdate E).
  unfold disconnectBlock, dropMainChainBlockCache. pres; quiet.
Qed.

(** As [pres], but a step that is already known to preserve the relation
    is not opened. *)
Ltac pres_calls :=
  repeat first
    [ solve [auto with pres typeclass_instances]
    | apply pres_bind; [typeclasses eauto | | intros ?]
    | match goal with
      | |- preserves _ (if ?c then _ else _) => destruct c
      | |- preserves _ (match ?x with _ => _ end) => destruct x
      end ].

Lemma pres_detachCommit (E : Collaborators) (ds : detachState) (l : list blockNode) :
  forall (i : nat) (view : UtxoViewpoint),
    preserves blockNotes (detachCommit E i l ds view).
Proof.
  induction l as [|n l IH]; intros i view; cbn [detachCommit]; [pres|].
  pose proof (pres_disconnectBlock E). pres_calls.
Qed.

Lemma pres_attachCommit (E : Collaborators) (forkBlock : option Block)
  (blocks : list Block) (l : list blockNode) :
  forall (i : nat) (view : UtxoViewpoint),
    preserves blockNotes (attachCommit E i forkBlock l blocks view).
Proof.
  induction l as [|n l IH]; intros i view; cbn [attachCommit]; [pres|].
  pose proof (pres_connectBlock E). pres_calls.
Qed.

Lemma reorganizePhase1_quiet (E : Collaborators) (detachNodes attachNodes : list blockNode) :
  preserves sameButIndex (reorganizePhase1 E detachNodes attachNodes).
Proof.
  unfold reorganizePhase1.
  pose proof (attachCheck_sameButIndex E).
  assert (Hs : preserves sameButIndex (reorganizeSetup E detachNodes attachNodes)).
  { apply (preserves_weaken eq); [intros ? ? ->; reflexivity|].
    apply reorganizeSetup_readOnly. }
  apply pres_bind; [typeclasses eauto | exact Hs |].
  intros [[oldBest ds] forkBlock]. pres_calls.
Qed.

(** The commit of [reorganizeChain] as one run: the two opening
    notifications, the two loops, and the closing notification added
    whatever the loops answered. *)
Lemma reorganizePhase2_run (E : Collaborators) (detachNodes attachNodes : list blockNode)
  (oldBest newBest : blockNode) (ds : detachState) (forkBlock : option Block)
  (blocks : list Block) (b1 b' : BlockChain) (r : result unit) :
  reorganizePhase2 E detachNodes attachNodes (oldBest, newBest, ds, forkBlock, blocks) b1
  = (b', r) ->
  exists b2,
    (view <-- detachCommit E 0 detachNodes ds
                (SetStakeViewpoint (SetBestHash NewUtxoViewpoint (hash oldBest))
                   ViewpointPrevValidInitial) ;;
     view <-- attachCommit E 0 forkBlock attachNodes blocks view ;;
     ret tt)
      (withNotified b1
         ((notified b1
           ++ [NTReorganization (hash oldBest) (height oldBest)
                 (hash newBest) (height newBest)])
          ++ [NTChainReorgStarted]))
    = (b2, r) /\
    b' = withNotified b2 (notified b2 ++ [NTChainReorgDone]).
Proof.
  set (body := (view <-- detachCommit E 0 detachNodes ds
                          (SetStakeViewpoint
                             (SetBestHash NewUtxoViewpoint (hash oldBest))
                             ViewpointPrevValidInitial) ;;
                view <-- attachCommit E 0 forkBlock attachNodes blocks view ;;
                ret tt) : M unit).
  set (s := withNotified b1
              ((notified b1
                ++ [NTReorganization (hash oldBest) (height oldBest)
                      (hash newBest) (height newBest)])
               ++ [NTChainReorgStarted])).
  assert (Heq : reorganizePhase2 E detachNodes attachNodes
                  (oldBest, newBest, ds, forkBlock, blocks) b1
                = let '(b2, r2) := body s in
                  (withNotified b2 (notified b2 ++ [NTChainReorgDone]), r2))
    by reflexivity.
  rewrite Heq. clear Heq. destruct (body s) as [b2 r2].
  intros H. injection H as <- <-. exists b2. auto.
Qed.

(** X19: however [reorganizeChain] ends, it has either sent no
    notification at all, and then it did not succeed unless both lists
    were empty, or it has sent [NTReorganization], [NTChainReorgStarted],
    then only notifications about single blocks, and [NTChainReorgDone]
    last. *)
Theorem reorganizeChain_notifications (E : Collaborators)
  (detachNodes attachNodes : list blockNode) (b b' : BlockChain) (r : result unit) :
  reorganizeChain E detachNodes attachNodes b = (b', r) ->
  (notified b' = notified b /\ (r = Ok tt -> detachNodes = [] /\ attachNodes = [])) \/
  (exists oldHash oldHeight newHash newHeight mid,
      notified b'
      = notified b
        ++ NTReorganization oldHash oldHeight newHash newHeight
           :: NTChainReorgStarted :: mid ++ [NTChainReorgDone] /\
      Forall (fun n => blockLevel n = true) mid).
Proof.
  unfold reorganizeChain. intros H.
  destruct (Nat.eqb (length detachNodes) 0 && Nat.eqb (length attachNodes) 0) eqn:Hlen.
  - injection H as <- <-. left. split; [reflexivity|]. intros _.
    apply andb_prop in Hlen as [H1 H2].
    apply Nat.eqb_eq, length_zero_iff_nil in H1.
    apply Nat.eqb_eq, length_zero_iff_nil in H2. auto.
  - unfold bind at 1 in H.
    destruct (reorganizePhase1 E detachNodes attachNodes b) as [b1 r1] eqn:H1.
    pose proof (reorganizePhase1_quiet E _ _ _ _ _ H1) as (_ & _ & _ & Hn & _).
    destruct r1 as [[[[[oldBest newBest] ds] forkBlock] blocks] | e | p].
    2,3: injection H as <- <-; left; split; [exact Hn | discriminate].
    right. apply reorganizePhase2_run in H as (b2 & Hbody & ->).
    assert (Hpres : preserves blockNotes
              (view <-- detachCommit E 0 detachNodes ds
                          (SetStakeViewpoint (SetBestHash NewUtxoViewpoint (hash oldBest))
                             ViewpointPrevValidInitial) ;;
               view <-- attachCommit E 0 forkBlock attachNodes blocks view ;;
               ret tt)).
    { pose proof (pres_detachCommit E ds). pose proof (pres_attachCommit E forkBlock blocks).
      pres_calls. }
    destruct (Hpres _ _ _ Hbody) as (mid & Hmid & Hall).
    exists (hash oldBest), (height oldBest), (hash newBest), (height newBest), mid.
    split; [|exact Hall]. simpl. rewrite Hmid. simpl. rewrite Hn.
    rewrite <- !app_assoc. reflexivity.
Qed.

Lemma reorganizeChain_notifications_witness :
  let run := reorganizeChain acceptAll [nodeB3; nodeB2] [nodeB2a; nodeB3a]
               scenario4Chain in
  run = (fst run, Ok tt) /\
  ((notified (fst run) = notified scenario4Chain /\
    (Ok tt = Ok tt -> [nodeB3; nodeB2] = [] /\ [nodeB2a; nodeB3a] = [])) \/
   (exists oldHash oldHeight newHash newHeight mid,
       notified (fst run)
       = notified scenario4Chain
         ++ NTReorganization oldHash oldHeight newHash newHeight
            :: NTChainReorgStarted :: mid ++ [NTChainReorgDone] /\
       Forall (fun n => blockLevel n = true) mid)).
Proof.
  cbv zeta.
  set (run := reorganizeChain acceptAll [nodeB3; nodeB2] [nodeB2a; nodeB3a]
                scenario4Chain).
  assert (H : run = (fst run, Ok tt)) by (vm_compute; reflexivity).
  split; [exact H|].
  exact (reorganizeChain_notifications acceptAll [nodeB3; nodeB2] [nodeB2a; nodeB3a]
           scenario4Chain (fst run) (Ok tt) H).
Defined.

(** ** [reorganizeChain]: where the tip ends up *)

Lemma attachCommit_tip (E : Collaborators) (forkBlock : option Block)
  (blocks : list Block) (l : list blockNode) :
  forall (i : nat) (view v : UtxoViewpoint) (b b' : BlockChain),
    attachCommit E i forkBlock l blocks view b = (b', Ok v) ->
    match last l with
    | Some n => Tip (bestChain b') = Some n /\
                bsHash (stateSnapshot b') = hash n /\
                bsHeight (stateSnapshot b') = height n
    | None => b' = b
    end.
Proof.
  induction l as [|n l IH]; intros i view v b b' H; cbn [attachCommit] in H.
  - injection H as <- _. reflexivity.
  - bind_step H. apply deref_run in Hm as [-> _].
    bind_step H. apply deref_run in Hm as [-> _].
    bind_step H. apply deref_run in Hm as [-> _].
    destruct (negb _); [discriminate|].
    destruct (countSpentOutputs E a a0); [|discriminate].
    bind_step H. apply liftR_run in Hm as [-> _].
    bind_step H.
    destruct (connectBlock_run _ _ _ _ _ _ _ _ _ Hm) as (_ & Ht & Hh & Hht & _).
    specialize (IH _ _ _ _ _ H). rewrite last_cons.
    destruct (last l) as [m|]; [exact IH|]. subst b'. auto.
Qed.

Lemma detachCommit_tip (E : Collaborators) (ds : detachState) (l : list blockNode) :
  forall (i : nat) (view v : UtxoViewpoint) (b b' : BlockChain),
    detachCommit E i l ds view b = (b', Ok v) ->
    match last l with
    | Some d => exists p, parent d = Some p /\
                          Tip (bestChain b') = Some p /\
                          bsHash (stateSnapshot b') = hash p /\
                          bsHeight (stateSnapshot b') = height p
    | None => b' = b
    end.
Proof.
  induction l as [|n l IH]; intros i view v b b' H; cbn [detachCommit] in H.
  - injection H as <- _. reflexivity.
  - bind_step H. apply deref_run in Hm as [-> _].
    bind_step H. apply deref_run in Hm as [-> _].
    bind_step H. apply deref_run in Hm as [-> _].
    destruct (negb _); [discriminate|].
    unfold bind at 1, get at 1 in H.
    bind_step H. apply liftR_run in Hm as [-> _].
    bind_step H. apply deref_run in Hm as [-> _].
    bind_step H. apply liftR_run in Hm as [-> _].
    bind_step H.
    destruct (disconnectBlock_run _ _ _ _ _ _ _ _ Hm) as (p & Hp & _ & Ht & Hh & Hht & _).
    specialize (IH _ _ _ _ _ H). rewrite last_cons.
    destruct (last l) as [m|]; [exact IH|]. subst b'. eauto.
Qed.

(** X20: after a [reorganizeChain] that returns without error the tip and
    the snapshot are those of the last node attached; with nothing to
    attach they are those of the parent of the last node detached; with
    both lists empty the state is unchanged. *)
Theorem reorganizeChain_tip (E : Collaborators)
  (detachNodes attachNodes : list blockNode) (b b' : BlockChain) :
  reorganizeChain E detachNodes attachNodes b = (b', Ok tt) ->
  match last attachNodes, last detachNodes with
  | Some n, _ =>
      Tip (bestChain b') = Some n /\
      bsHash (stateSnapshot b') = hash n /\
      bsHeight (stateSnapshot b') = height n
  | None, Some d =>
      exists p, parent d = Some p /\
                Tip (bestChain b') = Some p /\
                bsHash (stateSnapshot b') = hash p /\
                bsHeight (stateSnapshot b') = height p
  | None, None => b' = b
  end.
Proof.
  unfold reorganizeChain. intros H.
  destruct (Nat.eqb (length detachNodes) 0 && Nat.eqb (length attachNodes) 0) eqn:Hlen.
  - injection H as <-. apply andb_prop in Hlen as [H1 H2].
    apply Nat.eqb_eq, length_zero_iff_nil in H1.
    apply Nat.eqb_eq, length_zero_iff_nil in H2. subst. reflexivity.
  - bind_step H. destruct a as [[[[oldBest newBest] ds] forkBlock] blocks].
    apply reorganizePhase2_run in H as (b2 & Hbody & ->).
    bind_step Hbody. rename Hm0 into Hd.
    bind_step Hbody. rename Hm0 into Ha.
    injection Hbody as <-.
    apply attachCommit_tip in Ha. apply detachCommit_tip in Hd.
    destruct (last attachNodes) as [n|] eqn:Hla; [exact Ha|]. subst b'1.
    destruct (last detachNodes) as [d|] eqn:Hld; [exact Hd|].
    apply last_None in Hla, Hld. subst. discriminate.
Qed.

Lemma reorganizeChain_tip_witness :
  let run := reorganizeChain acceptAll [nodeB3; nodeB2] [nodeB2a; nodeB3a]
               scenario4Chain in
  run = (fst run, Ok tt) /\
  Tip (bestChain (fst run)) = Some nodeB3a /\
  bsHash (stateSnapshot (fst run)) = hash nodeB3a /\
  bsHeight (stateSnapshot (fst run)) = height nodeB3a.
Proof.
  cbv zeta.
  set (run := reorganizeChain acceptAll [nodeB3; nodeB2] [nodeB2a; nodeB3a]
                scenario4Chain).
  assert (H : run = (fst run, Ok tt)) by (vm_compute; reflexivity).
  split; [exact H|].
  exact (reorganizeChain_tip acceptAll [nodeB3; nodeB2] [nodeB2a; nodeB3a]
           scenario4Chain (fst run) H).
Defined.

(** ** [forceHeadReorganization]: the precondition failures *)

Lemma onode_eqb_neq (n m : option blockNode) : n <> m -> onode_eqb n m = false.
Proof.
  destruct n as [n|], m as [m|]; simpl; intros H; try reflexivity.
  - apply node_eqb_neq. congruence.
  - contradiction.
Qed.

Lemma onode_eqb_refl (n : option blockNode) : onode_eqb n n = true.
Proof. destruct n; simpl; [apply node_eqb_refl | reflexivity]. Qed.

(** X21: the precondition failures of [forceHeadReorganization], in the
    order in which they are checked, each leaving the state as it was:
    equal hashes; a former best that is not the tip
    ([ErrForceReorgWrongChain]); a new best that is unknown or has another
    parent than the tip ([ErrForceReorgMissingChild]); a new best known to
    be invalid ([ErrKnownInvalidBlock]). *)
Theorem forceHeadReorganization_rejects (E : Collaborators)
  (formerBest newBest : Hash) (b : BlockChain) (tip : blockNode) :
  Tip (bestChain b) = Some tip ->
  (formerBest = newBest ->
   forceHeadReorganization E formerBest newBest b = (b, Err (fmtError 3))) /\
  (formerBest <> newBest -> hash tip <> formerBest ->
   forceHeadReorganization E formerBest newBest b
   = (b, Err (RuleError ErrForceReorgWrongChain))) /\
  (formerBest <> newBest -> hash tip = formerBest ->
   LookupNode (index b) newBest = None ->
   forceHeadReorganization E formerBest newBest b
   = (b, Err (RuleError ErrForceReorgMissingChild))) /\
  (forall n, formerBest <> newBest -> hash tip = formerBest ->
             LookupNode (index b) newBest = Some n ->
             parent n <> parent tip ->
             forceHeadReorganization E formerBest newBest b
             = (b, Err (RuleError ErrForceReorgMissingChild))) /\
  (forall n, formerBest <> newBest -> hash tip = formerBest ->
             LookupNode (index b) newBest = Some n ->
             parent n = parent tip ->
             KnownInvalid (NodeStatus (index b) n) = true ->
             forceHeadReorganization E formerBest newBest b
             = (b, Err (RuleError ErrKnownInvalidBlock))).
Proof.
  intros Htip. unfold forceHeadReorganization, forceHeadValidate.
  split; [|split; [|split; [|split]]].
  - intros ->. rewrite Z.eqb_refl. reflexivity.
  - intros Hne Hh. apply Z.eqb_neq in Hne. rewrite Hne.
    unfold bind, get. rewrite Htip. simpl.
    apply Z.eqb_neq in Hh. rewrite Hh. reflexivity.
  - intros Hne Hh Hl. apply Z.eqb_neq in Hne. rewrite Hne.
    unfold bind, get. rewrite Htip. simpl.
    apply Z.eqb_eq in Hh. rewrite Hh, Hl. reflexivity.
  - intros n Hne Hh Hl Hp. apply Z.eqb_neq in Hne. rewrite Hne.
    unfold bind, get. rewrite Htip. simpl.
    apply Z.eqb_eq in Hh. rewrite Hh, Hl. simpl.
    rewrite (onode_eqb_neq _ _ Hp). reflexivity.
  - intros n Hne Hh Hl Hp Hinv. apply Z.eqb_neq in Hne. rewrite Hne.
    unfold bind, get. rewrite Htip. simpl.
    apply Z.eqb_eq in Hh. rewrite Hh, Hl. simpl.
    rewrite Hp, onode_eqb_refl, Hinv. reflexivity.
Qed.

(** ** [connectBestChain] *)

(** X22: a block that does not extend the tip and has no more cumulative
    work than the tip is left on its side chain: [connectBestChain]
    changes nothing and returns the distance from the node to the fork
    point; it panics on a nil fork point. *)
Theorem connectBestChain_side_chain (E : Collaborators) (BFFastAdd : Z)
  (node p tip : blockNode) (blk parentBlock : Block) (flags : Z) (b : BlockChain) :
  parent node = Some p ->
  blockHash parentBlock = hash p ->
  Tip (bestChain b) = Some tip ->
  PrevBlock blk <> hash tip ->
  workSum node <= workSum tip ->
  connectBestChain E BFFastAdd node blk parentBlock flags b
  = (b, match FindFork (bestChain b) node with
        | Some fork => Ok (height node - height fork)
        | None => Panic panicRuntime
        end).
Proof.
  intros Hp Hh Htip Hprev Hwork. unfold connectBestChain.
  unfold bind at 1. rewrite Hp. unfold deref at 1, ret at 1.
  rewrite Hh, Z.eqb_refl. cbn [negb].
  unfold bind at 1, get at 1. unfold bind at 1. rewrite Htip.
  unfold deref at 1, ret at 1.
  apply Z.eqb_neq in Hprev. rewrite Hprev.
  apply Z.leb_le in Hwork. rewrite Hwork.
  unfold bind, get. destruct (FindFork (bestChain b) node); reflexivity.
Qed.

Lemma flushBlockIndexWarnOnly_run (E : Collaborators) (b b' : BlockChain)
  (r : result unit) :
  flushBlockIndexWarnOnly E b = (b', r) ->
  r = Ok tt /\ (b' = b \/ b' = flushed b).
Proof.
  unfold flushBlockIndexWarnOnly. intros H.
  destruct (flushBlockIndex E b) as [b1 r1] eqn:Hf.
  apply flushBlockIndex_run in Hf as [(-> & -> & _) | (e & -> & -> & _)];
    injection H as <- <-; auto.
Qed.

(** X23: when a block extending the tip is checked (no fast add, not yet
    known valid) and [checkConnectBlock] reports a rule error,
    [connectBestChain] returns that error, flags the node
    [ValidateFailed] and not [Valid], leaves tip, snapshot and
    notifications untouched and writes at most the flush of the index. *)
Theorem connectBestChain_rule_violation (E : Collaborators) (BFFastAdd : Z)
  (node p tip : blockNode) (blk parentBlock : Block) (flags : Z) (b : BlockChain)
  (e : error) :
  parent node = Some p ->
  blockHash parentBlock = hash p ->
  Tip (bestChain b) = Some tip ->
  PrevBlock blk = hash tip ->
  Z.land flags BFFastAdd <> BFFastAdd ->
  KnownValid (NodeStatus (index b) node) = false ->
  checkConnectBlock E (index b) (bestChain b) node blk parentBlock
    (SetStakeViewpoint (SetBestHash NewUtxoViewpoint (PrevBlock blk))
       ViewpointPrevValidInitial) true = Failed e ->
  isRuleError e = true ->
  exists b',
    connectBestChain E BFFastAdd node blk parentBlock flags b = (b', Err e) /\
    tipUntouched b b' /\
    hasFlag (NodeStatus (index b') node) statusValidateFailed = true /\
    KnownValid (NodeStatus (index b') node) = false /\
    (db b' = db b \/
     db b' = db b ++ [dbPutBlockIndex ({[hash node]} ∪ modified (index b))]).
Proof.
  intros Hp Hh Htip Hprev Hfast Hvalid Hcheck Hrule.
  unfold connectBestChain.
  unfold bind at 1. rewrite Hp. unfold deref at 1, ret at 1.
  rewrite Hh, Z.eqb_refl. cbn [negb].
  unfold bind at 1, get at 1. unfold bind at 1. rewrite Htip.
  unfold deref at 1, ret at 1.
  rewrite Hprev, Z.eqb_refl. rewrite <- Hprev.
  apply Z.eqb_neq in Hfast. rewrite Hfast, Hvalid. cbn [negb orb].
  rewrite Hcheck, Hrule.
  unfold bind at 1. unfold bind at 1. unfold bind at 1.
  unfold setStatusFlags at 1, modify at 1.
  set (b1 := withIndex b (SetStatusFlags (index b) node statusValidateFailed)).
  destruct (flushBlockIndexWarnOnly E b1) as [b2 r2] eqn:Hf.
  apply flushBlockIndexWarnOnly_run in Hf as [-> Hb2].
  exists b2. split; [reflexivity|].
  assert (Hflag : hasFlag (NodeStatus (index b1) node) statusValidateFailed = true).
  { apply SetStatusFlags_sets. discriminate. }
  assert (Hkv : KnownValid (NodeStatus (index b1) node) = false).
  { unfold b1. simpl. rewrite NodeStatus_SetStatusFlags_same.
    unfold KnownValid, hasFlag in Hvalid |- *.
    apply negb_false_iff, Z.eqb_eq in Hvalid. apply negb_false_iff, Z.eqb_eq.
    rewrite Z.land_lor_distr_l, Hvalid. reflexivity. }
  destruct Hb2 as [-> | ->].
  - split; [repeat split|]. split; [exact Hflag|]. split; [exact Hkv|].
    left. reflexivity.
  - split; [repeat split|]. split; [exact Hflag|]. split; [exact Hkv|].
    right. reflexivity.
Qed.

Lemma forceHeadReorganization_rejects_witness :
  Tip (bestChain (chainWith siblingIndex)) = Some nodeB3 /\
  forceHeadReorganization acceptAll 103 103 (chainWith siblingIndex)
  = (chainWith siblingIndex, Err (fmtError 3)) /\
  forceHeadReorganization acceptAll 102 303 (chainWith siblingIndex)
  = (chainWith siblingIndex, Err (RuleError ErrForceReorgWrongChain)) /\
  forceHeadReorganization acceptAll 103 999 (chainWith siblingIndex)
  = (chainWith siblingIndex, Err (RuleError ErrForceReorgMissingChild)).
Proof.
  pose proof (forceHeadReorganization_rejects acceptAll 103 103 (chainWith siblingIndex)
                nodeB3 eq_refl) as (Ha & _).
  pose proof (forceHeadReorganization_rejects acceptAll 102 303 (chainWith siblingIndex)
                nodeB3 eq_refl) as (_ & Hb & _).
  pose proof (forceHeadReorganization_rejects acceptAll 103 999 (chainWith siblingIndex)
                nodeB3 eq_refl) as (_ & _ & Hc & _).
  split; [reflexivity|]. split; [exact (Ha eq_refl)|]. split.
  - apply Hb; [lia | simpl; lia].
  - apply Hc; [lia | reflexivity | vm_compute; reflexivity].
Defined.

Lemma connectBestChain_side_chain_witness :
  parent nodeB3s = Some nodeB2 /\
  blockHash (emptyBlockOf nodeB2) = hash nodeB2 /\
  Tip (bestChain (chainWith siblingIndex)) = Some nodeB3 /\
  PrevBlock (emptyBlockOf nodeB3s) <> hash nodeB3 /\
  workSum nodeB3s <= workSum nodeB3 /\
  connectBestChain acceptAll 1 nodeB3s (emptyBlockOf nodeB3s) (emptyBlockOf nodeB2) 0
    (chainWith siblingIndex)
  = (chainWith siblingIndex, Ok 1).
Proof.
  assert (H1 : PrevBlock (emptyBlockOf nodeB3s) <> hash nodeB3) by (simpl; lia).
  assert (H2 : workSum nodeB3s <= workSum nodeB3) by (simpl; lia).
  split; [reflexivity|]. split; [reflexivity|]. split; [reflexivity|].
  split; [exact H1|]. split; [exact H2|].
  exact (connectBestChain_side_chain acceptAll 1 nodeB3s nodeB2 nodeB3
           (emptyBlockOf nodeB3s) (emptyBlockOf nodeB2) 0 (chainWith siblingIndex)
           eq_refl eq_refl eq_refl H1 H2).
Defined.

Lemma connectBestChain_rule_violation_witness :
  Z.land 0 1 <> 1 /\
  KnownValid (NodeStatus (index (chainWith siblingIndex)) nodeB4) = false /\
  exists b',
    connectBestChain (rejecting 104) 1 nodeB4 (emptyBlockOf nodeB4) (emptyBlockOf nodeB3) 0
      (chainWith siblingIndex)
    = (b', Err (RuleError (ErrOtherRule 1))) /\
    tipUntouched (chainWith siblingIndex) b' /\
    hasFlag (NodeStatus (index b') nodeB4) statusValidateFailed = true.
Proof.
  assert (H1 : Z.land 0 1 <> 1) by (vm_compute; discriminate).
  assert (H2 : KnownValid (NodeStatus (index (chainWith siblingIndex)) nodeB4) = false)
    by (vm_compute; reflexivity).
  split; [exact H1|]. split; [exact H2|].
  destruct (connectBestChain_rule_violation (rejecting 104) 1 nodeB4 nodeB3 nodeB3
              (emptyBlockOf nodeB4) (emptyBlockOf nodeB3) 0 (chainWith siblingIndex)
              (RuleError (ErrOtherRule 1)) eq_refl eq_refl eq_refl eq_refl H1 H2
              eq_refl eq_refl) as (b' & Hrun & Htip & Hflag & _).
  exists b'. split; [exact Hrun|]. split; [exact Htip | exact Hflag].
Defined.

(** X24: when [connectBestChain] succeeds on a block that extends the
    tip, the fork length returned is zero, the node is the new tip and
    the snapshot is its snapshot, the node is flagged [Valid], and
    [NTBlockConnected] was sent. *)
Theorem connectBestChain_extends (E : Collaborators) (BFFastAdd : Z)
  (node tip : blockNode) (blk parentBlock : Block) (flags n : Z)
  (b b' : BlockChain) :
  Tip (bestChain b) = Some tip ->
  PrevBlock blk = hash tip ->
  connectBestChain E BFFastAdd node blk parentBlock flags b = (b', Ok n) ->
  n = 0 /\
  Tip (bestChain b') = Some node /\
  bsHash (stateSnapshot b') = hash node /\
  bsHeight (stateSnapshot b') = height node /\
  KnownValid (NodeStatus (index b') node) = true /\
  exists more,
    notified b'
    = notified b ++ NTBlockConnected (blockHash blk) (blockHash parentBlock) :: more.
Proof.
  intros Htip Hprev H. unfold connectBestChain in H.
  bind_step H. apply deref_run in Hm as [-> Hp].
  destruct (negb _); [discriminate|].
  unfold bind at 1, get at 1 in H.
  bind_step H. apply deref_run in Hm as [-> Ht].
  rewrite Htip in Ht. injection Ht as <-.
  rewrite Hprev, Z.eqb_refl in H. rewrite <- Hprev in H.
  bind_step H. rename b'0 into b1, Hm into H1.
  assert (Hb1 : b1 = b).
  { destruct (negb _).
    - destruct (checkConnectBlock _ _ _ _ _ _ _ _) as [r | e |].
      + injection H1 as <- _. reflexivity.
      + unfold bind at 1, fail in H1.
        match type of H1 with
        | (match ?m ?s with _ => _ end) = _ => destruct (m s) as [? [| |]]
        end; discriminate.
      + discriminate.
    - injection H1 as <- _. reflexivity. }
  subst b1. clear H1.
  bind_step H. rename b'0 into b2, Hm into H2.
  assert (Hb2 : KnownValid (NodeStatus (index b2) node) = true /\
                bestChain b2 = bestChain b /\ notified b2 = notified b).
  { destruct (KnownValid (NodeStatus (index b) node)) eqn:Hkv; cbn [negb] in H2.
    - injection H2 as <- _. auto.
    - unfold bind at 1, setStatusFlags at 1, modify at 1 in H2.
      apply flushBlockIndexWarnOnly_run in H2 as [_ [-> | ->]]; simpl;
        (split; [apply SetStatusFlags_sets; discriminate | auto]). }
  destruct Hb2 as (Hkv & Hc2 & Hn2).
  bind_step H. rename b'0 into b3, Hm into H3.
  assert (Hb3 : b3 = b2).
  { destruct (_ || _).
    - unfold bind at 1, get at 1 in H3. bind_step H3.
      apply liftR_run in Hm as [-> _]. apply liftR_run in H3 as [-> _]. reflexivity.
    - injection H3 as <- _. reflexivity. }
  subst b3. clear H3.
  bind_step H. injection H as <- <-.
  destruct (connectBlock_run _ _ _ _ _ _ _ _ _ Hm)
    as (_ & Ht' & Hh' & Hht' & _ & _ & _ & _ & Hst & _ & [more Hn]).
  split; [reflexivity|]. split; [exact Ht'|]. split; [exact Hh'|].
  split; [exact Hht'|]. split.
  - unfold NodeStatus in Hkv |- *. rewrite Hst. exact Hkv.
  - exists more. rewrite Hn, Hn2. reflexivity.
Qed.

Lemma connectBestChain_extends_witness :
  let run := connectBestChain acceptAll 1 nodeB4 (emptyBlockOf nodeB4)
               (emptyBlockOf nodeB3) 0 (chainWith siblingIndex) in
  Tip (bestChain (chainWith siblingIndex)) = Some nodeB3 /\
  PrevBlock (emptyBlockOf nodeB4) = hash nodeB3 /\
  run = (fst run, Ok 0) /\
  Tip (bestChain (fst run)) = Some nodeB4 /\
  KnownValid (NodeStatus (index (fst run)) nodeB4) = true.
Proof.
  cbv zeta.
  set (run := connectBestChain acceptAll 1 nodeB4 (emptyBlockOf nodeB4)
                (emptyBlockOf nodeB3) 0 (chainWith siblingIndex)).
  assert (H : run = (fst run, Ok 0)) by (vm_compute; reflexivity).
  split; [reflexivity|]. split; [reflexivity|]. split; [exact H|].
  pose proof (connectBestChain_extends acceptAll 1 nodeB4 nodeB3 (emptyBlockOf nodeB4)
                (emptyBlockOf nodeB3) 0 0 (chainWith siblingIndex) (fst run)
                eq_refl eq_refl H) as (_ & Ht & _ & _ & Hv & _).
  split; [exact Ht | exact Hv].
Defined.

(** ** The chain view stays linked *)

Lemma viewLinked_snoc (c : chainView) (tip node : blockNode) :
  viewLinked c -> Tip c = Some tip ->
  parent node = Some tip -> height node = height tip + 1 ->
  viewLinked (c ++ [node]).
Proof.
  intros Hl Htip Hp Hh.
  pose proof (viewLinked_tip_height c tip Hl Htip) as Hth.
  destruct Hl as (Hht & Hlink & Hgen).
  unfold Tip in Htip. rewrite last_lookup in Htip.
  assert (Hlen : (0 < length c)%nat).
  { destruct c; [discriminate | simpl; lia]. }
  split; [|split].
  - intros i n H. apply lookup_app_Some in H as [H | [Hge H]].
    + exact (Hht _ _ H).
    + apply list_lookup_singleton_Some in H as [Hi <-]. lia.
  - intros i n m Hn Hm. apply lookup_app_Some in Hm as [Hm | [Hge Hm]].
    + rewrite lookup_app_l in Hn by (apply lookup_lt_Some in Hm; lia).
      exact (Hlink _ _ _ Hn Hm).
    + apply list_lookup_singleton_Some in Hm as [Hi <-].
      rewrite lookup_app_l in Hn by lia.
      replace i with (pred (length c)) in Hn by lia.
      rewrite Htip in Hn. injection Hn as <-. exact Hp.
  - intros n H. rewrite lookup_app_l in H by lia. exact (Hgen _ H).
Qed.

Lemma viewLinked_take (c : chainView) (k : nat) :
  viewLinked c -> viewLinked (take k c).
Proof.
  intros (Hht & Hlink & Hgen). split; [|split].
  - intros i n H. apply lookup_take_Some in H as [H _]. exact (Hht _ _ H).
  - intros i n m Hn Hm. apply lookup_take_Some in Hn as [Hn _].
    apply lookup_take_Some in Hm as [Hm _]. exact (Hlink _ _ _ Hn Hm).
  - intros n H. apply lookup_take_Some in H as [H _]. exact (Hgen _ H).
Qed.

Lemma SetTip_child (c : chainView) (tip node : blockNode) :
  viewLinked c -> Tip c = Some tip ->
  parent node = Some tip -> height node = height tip + 1 ->
  SetTip c (Some node) = c ++ [node].
Proof.
  intros Hl Htip Hp Hh.
  pose proof (viewLinked_tip_height c tip Hl Htip) as Hth.
  pose proof (Contains_tip c tip Htip Hth) as Hct.
  assert (Hcn : Contains c node = false).
  { unfold Contains, NodeByHeight.
    destruct (Z.ltb_spec (height node) 0); [reflexivity|].
    rewrite lookup_ge_None_2; [reflexivity | lia]. }
  unfold SetTip.
  rewrite (FindFork_unfold c node), Hcn, Hp, (FindFork_unfold c tip), Hct.
  rewrite (sidePath_unfold c node), Hcn, Hp, (sidePath_unfold c tip), Hct.
  rewrite take_ge by lia. reflexivity.
Qed.

Lemma SetTip_parent (c : chainView) (node p : blockNode) :
  viewLinked c -> Tip c = Some node -> parent node = Some p ->
  SetTip c (Some p) = take (length c - 1) c.
Proof.
  intros Hl Htip Hp.
  pose proof (viewLinked_tip_height c node Hl Htip) as Hth.
  destruct (viewLinked_tip_parent c node p Hl Htip Hp) as (Hh & Hcp & _).
  unfold SetTip. rewrite (FindFork_unfold c p), Hcp, (sidePath_unfold c p), Hcp.
  destruct (Contains_lookup c p Hcp) as [Hp0 _].
  rewrite app_nil_r. f_equal. lia.
Qed.

(** X25: connecting a child of the tip, one higher than the tip, to a
    linked view appends the node to the view and keeps the view linked;
    the node is then on the main chain, and when the block carries the
    hash of the node both block fetches answer with it from the cache. *)
Theorem connectBlock_viewLinked (E : Collaborators) (node tip : blockNode)
  (blk parentBlock : Block) (view v : UtxoViewpoint) (stxos : list spentTxOut)
  (b b' : BlockChain) :
  viewLinked (bestChain b) ->
  Tip (bestChain b) = Some tip ->
  parent node = Some tip ->
  height node = height tip + 1 ->
  connectBlock E node blk parentBlock view stxos b = (b', Ok v) ->
  bestChain b' = bestChain b ++ [node] /\
  viewLinked (bestChain b') /\
  Contains (bestChain b') node = true /\
  (hash node = blockHash blk ->
   fetchMainChainBlockByNode E (Some node) b' = (b', Ok blk) /\
   fetchBlockByNode E node b' = (b', Ok blk)).
Proof.
  intros Hl Htip Hp Hh H.
  destruct (connectBlock_run _ _ _ _ _ _ _ _ _ H)
    as (Hc & Ht & _ & _ & _ & _ & Hcache & _).
  rewrite (SetTip_child _ _ _ Hl Htip Hp Hh) in Hc.
  pose proof (viewLinked_snoc _ _ _ Hl Htip Hp Hh) as Hl'. rewrite <- Hc in Hl'.
  assert (Hcn : Contains (bestChain b') node = true).
  { apply Contains_tip; [exact Ht|]. exact (viewLinked_tip_height _ _ Hl' Ht). }
  split; [exact Hc|]. split; [exact Hl'|]. split; [exact Hcn|].
  intros Heq. unfold fetchMainChainBlockByNode, fetchBlockByNode, bind, deref, ret, get.
  rewrite Hcn, Heq, Hcache. split; reflexivity.
Qed.

(** X26: disconnecting the tip of a linked view removes the last entry
    of the view and keeps the view linked; the node is then no longer on
    the main chain. *)
Theorem disconnectBlock_viewLinked (E : Collaborators) (node : blockNode)
  (blk parentBlock : Block) (view v : UtxoViewpoint) (b b' : BlockChain) :
  viewLinked (bestChain b) ->
  Tip (bestChain b) = Some node ->
  disconnectBlock E node blk parentBlock view b = (b', Ok v) ->
  bestChain b' = take (length (bestChain b) - 1) (bestChain b) /\
  viewLinked (bestChain b') /\
  Contains (bestChain b') node = false.
Proof.
  intros Hl Htip H.
  destruct (disconnectBlock_run _ _ _ _ _ _ _ _ H) as (p & Hp & Hc & _).
  rewrite (SetTip_parent _ _ _ Hl Htip Hp) in Hc.
  split; [exact Hc|]. split; [rewrite Hc; apply viewLinked_take; exact Hl|].
  pose proof (viewLinked_tip_height _ _ Hl Htip) as Hth.
  rewrite Hc. unfold Contains, NodeByHeight.
  destruct (Z.ltb_spec (height node) 0); [reflexivity|].
  rewrite lookup_ge_None_2; [reflexivity|]. rewrite length_take. lia.
Qed.

(** X27: on a linked view, connecting a child of the tip and
    disconnecting it again gives back the view of the start, with a
    snapshot for the old tip. *)
Theorem connectBlock_disconnectBlock_view (E : Collaborators) (node tip : blockNode)
  (blk parentBlock : Block) (view view' v v' : UtxoViewpoint)
  (stxos : list spentTxOut) (b b1 b2 : BlockChain) :
  viewLinked (bestChain b) ->
  Tip (bestChain b) = Some tip ->
  parent node = Some tip ->
  height node = height tip + 1 ->
  connectBlock E node blk parentBlock view stxos b = (b1, Ok v) ->
  disconnectBlock E node blk parentBlock view' b1 = (b2, Ok v') ->
  bestChain b2 = bestChain b /\
  bsHash (stateSnapshot b2) = hash tip /\
  bsHeight (stateSnapshot b2) = height tip.
Proof.
  intros Hl Htip Hp Hh H1 H2.
  destruct (connectBlock_run _ _ _ _ _ _ _ _ _ H1) as (Hc1 & Ht1 & _).
  rewrite (SetTip_child _ _ _ Hl Htip Hp Hh) in Hc1.
  pose proof (viewLinked_snoc _ _ _ Hl Htip Hp Hh) as Hl1. rewrite <- Hc1 in Hl1.
  destruct (disconnectBlock_run _ _ _ _ _ _ _ _ H2)
    as (p & Hp' & Hc2 & _ & Hh2 & Hht2 & _).
  assert (p = tip) by congruence. subst p.
  rewrite (SetTip_parent _ _ _ Hl1 Ht1 Hp), Hc1 in Hc2.
  split; [|split; assumption].
  rewrite Hc2, length_app. simpl.
  replace (length (bestChain b) + 1 - 1)%nat with (length (bestChain b)) by lia.
  rewrite take_app_length. reflexivity.
Qed.

Lemma connectBlock_viewLinked_witness :
  let b := chainWith siblingIndex in
  let run := connectBlock acceptAll nodeB4 (emptyBlockOf nodeB4) (emptyBlockOf nodeB3)
               NewUtxoViewpoint [] b in
  viewLinked (bestChain b) /\
  run = (fst run, Ok NewUtxoViewpoint) /\
  bestChain (fst run) = [nodeG; nodeB1; nodeB2; nodeB3; nodeB4] /\
  viewLinked (bestChain (fst run)) /\
  fetchBlockByNode acceptAll nodeB4 (fst run) = (fst run, Ok (emptyBlockOf nodeB4)).
Proof.
  cbv zeta.
  set (b := chainWith siblingIndex).
  set (run := connectBlock acceptAll nodeB4 (emptyBlockOf nodeB4) (emptyBlockOf nodeB3)
                NewUtxoViewpoint [] b).
  assert (H : run = (fst run, Ok NewUtxoViewpoint)) by (vm_compute; reflexivity).
  split; [exact scenario2View_linked|]. split; [exact H|].
  pose proof (connectBlock_viewLinked acceptAll nodeB4 nodeB3 (emptyBlockOf nodeB4)
                (emptyBlockOf nodeB3) NewUtxoViewpoint NewUtxoViewpoint [] b (fst run)
                scenario2View_linked eq_refl eq_refl eq_refl H)
    as (Hc & Hl & _ & Hfetch).
  split; [exact Hc|]. split; [exact Hl|]. exact (proj2 (Hfetch eq_refl)).
Defined.

Lemma disconnectBlock_viewLinked_witness :
  let b := chainWith siblingIndex in
  let run := disconnectBlock acceptAll nodeB3 (emptyBlockOf nodeB3) (emptyBlockOf nodeB2)
               NewUtxoViewpoint b in
  viewLinked (bestChain b) /\
  Tip (bestChain b) = Some nodeB3 /\
  run = (fst run, Ok NewUtxoViewpoint) /\
  bestChain (fst run) = [nodeG; nodeB1; nodeB2] /\
  viewLinked (bestChain (fst run)) /\
  Contains (bestChain (fst run)) nodeB3 = false.
Proof.
  cbv zeta.
  set (b := chainWith siblingIndex).
  set (run := disconnectBlock acceptAll nodeB3 (emptyBlockOf nodeB3) (emptyBlockOf nodeB2)
                NewUtxoViewpoint b).
  assert (H : run = (fst run, Ok NewUtxoViewpoint)) by (vm_compute; reflexivity).
  split; [exact scenario2View_linked|]. split; [reflexivity|]. split; [exact H|].
  exact (disconnectBlock_viewLinked acceptAll nodeB3 (emptyBlockOf nodeB3)
           (emptyBlockOf nodeB2) NewUtxoViewpoint NewUtxoViewpoint b (fst run)
           scenario2View_linked eq_refl H).
Defined.

Lemma connectBlock_disconnectBlock_view_witness :
  let b := chainWith siblingIndex in
  let run1 := connectBlock acceptAll nodeB4 (emptyBlockOf nodeB4) (emptyBlockOf nodeB3)
                NewUtxoViewpoint [] b in
  let run2 := disconnectBlock acceptAll nodeB4 (emptyBlockOf nodeB4) (emptyBlockOf nodeB3)
                NewUtxoViewpoint (fst run1) in
  viewLinked (bestChain b) /\
  run1 = (fst run1, Ok NewUtxoViewpoint) /\
  run2 = (fst run2, Ok NewUtxoViewpoint) /\
  bestChain (fst run2) = bestChain b /\
  bsHash (stateSnapshot (fst run2)) = hash nodeB3 /\
  bsHeight (stateSnapshot (fst run2)) = height nodeB3.
Proof.
  cbv zeta.
  set (b := chainWith siblingIndex).
  set (run1 := connectBlock acceptAll nodeB4 (emptyBlockOf nodeB4) (emptyBlockOf nodeB3)
                 NewUtxoViewpoint [] b).
  set (run2 := disconnectBlock acceptAll nodeB4 (emptyBlockOf nodeB4)
                 (emptyBlockOf nodeB3) NewUtxoViewpoint (fst run1)).
  assert (H1 : run1 = (fst run1, Ok NewUtxoViewpoint)) by (vm_compute; reflexivity).
  assert (H2 : run2 = (fst run2, Ok NewUtxoViewpoint)) by (vm_compute; reflexivity).
  split; [exact scenario2View_linked|]. split; [exact H1|]. split; [exact H2|].
  exact (connectBlock_disconnectBlock_view acceptAll nodeB4 nodeB3 (emptyBlockOf nodeB4)
           (emptyBlockOf nodeB3) NewUtxoViewpoint NewUtxoViewpoint NewUtxoViewpoint
           NewUtxoViewpoint [] b (fst run1) (fst run2)
           scenario2View_linked eq_refl eq_refl eq_refl H1 H2).
Defined.

(** ** [reorganizeChain]: the view after the commit *)

Lemma detachCommit_view (E : Collaborators) (ds : detachState) (pre : list blockNode)
  (l : list blockNode) :
  forall (i : nat) (view v : UtxoViewpoint) (b b' : BlockChain),
    viewLinked (bestChain b) ->
    bestChain b = pre ++ reverse l ->
    detachCommit E i l ds view b = (b', Ok v) ->
    bestChain b' = pre.
Proof.
  induction l as [|n l IH]; intros i view v b b' Hl Hc H; cbn [detachCommit] in H.
  - injection H as <- _. rewrite Hc, app_nil_r. reflexivity.
  - bind_step H. apply deref_run in Hm as [-> _].
    bind_step H. apply deref_run in Hm as [-> _].
    bind_step H. apply deref_run in Hm as [-> _].
    destruct (negb _); [discriminate|].
    unfold bind at 1, get at 1 in H.
    bind_step H. apply liftR_run in Hm as [-> _].
    bind_step H. apply deref_run in Hm as [-> _].
    bind_step H. apply liftR_run in Hm as [-> _].
    bind_step H.
    destruct (disconnectBlock_run _ _ _ _ _ _ _ _ Hm) as (p & Hp & Hc1 & _).
    rewrite reverse_cons, app_assoc in Hc.
    assert (Htip : Tip (bestChain b) = Some n).
    { unfold Tip. rewrite Hc. apply last_snoc. }
    rewrite (SetTip_parent _ _ _ Hl Htip Hp) in Hc1.
    assert (Hc1' : bestChain b'0 = pre ++ reverse l).
    { rewrite Hc1, Hc, length_app. simpl.
      replace (length (pre ++ reverse l) + 1 - 1)%nat
        with (length (pre ++ reverse l)) by lia.
      apply take_app_length. }
    apply (IH _ _ _ _ _ ltac:(rewrite Hc1; apply viewLinked_take; exact Hl) Hc1' H).
Qed.

Lemma attachCommit_view (E : Collaborators) (forkBlock : option Block)
  (blocks : list Block) (l : list blockNode) :
  forall (i : nat) (view v : UtxoViewpoint) (b b' : BlockChain),
    viewLinked (bestChain b) ->
    linkedOnto (Tip (bestChain b)) l ->
    attachCommit E i forkBlock l blocks view b = (b', Ok v) ->
    bestChain b' = bestChain b ++ l /\ viewLinked (bestChain b').
Proof.
  induction l as [|n l IH]; intros i view v b b' Hl Hon H; cbn [attachCommit] in H.
  - injection H as <- _. rewrite app_nil_r. auto.
  - bind_step H. apply deref_run in Hm as [-> _].
    bind_step H. apply deref_run in Hm as [-> _].
    bind_step H. apply deref_run in Hm as [-> _].
    destruct (negb _); [discriminate|].
    destruct (countSpentOutputs E a a0); [|discriminate].
    bind_step H. apply liftR_run in Hm as [-> _].
    bind_step H.
    destruct (connectBlock_run _ _ _ _ _ _ _ _ _ Hm) as (Hc1 & Ht1 & _).
    destruct Hon as [(p & Htip & Hp & Hh) Hon].
    rewrite (SetTip_child _ _ _ Hl Htip Hp Hh) in Hc1.
    pose proof (viewLinked_snoc _ _ _ Hl Htip Hp Hh) as Hl1. rewrite <- Hc1 in Hl1.
    rewrite <- Ht1 in Hon.
    destruct (IH _ _ _ _ _ Hl1 Hon H) as [Hc' Hl'].
    split; [|exact Hl']. rewrite Hc', Hc1, <- app_assoc. reflexivity.
Qed.

Lemma viewLinked_app_l (pre suf : list blockNode) :
  viewLinked (pre ++ suf) -> viewLinked pre.
Proof.
  intros H. rewrite <- (take_app_length pre suf). apply viewLinked_take. exact H.
Qed.

Lemma reorganizeChain_replaces (E : Collaborators)
  (detachNodes attachNodes pre : list blockNode) (b b' : BlockChain) :
  viewLinked (bestChain b) ->
  bestChain b = pre ++ reverse detachNodes ->
  linkedOnto (Tip pre) attachNodes ->
  reorganizeChain E detachNodes attachNodes b = (b', Ok tt) ->
  bestChain b' = pre ++ attachNodes /\ viewLinked (bestChain b').
Proof.
  intros Hl Hc Hon H. unfold reorganizeChain in H.
  destruct (Nat.eqb (length detachNodes) 0 && Nat.eqb (length attachNodes) 0) eqn:Hlen.
  - injection H as <-. apply andb_prop in Hlen as [H1 H2].
    apply Nat.eqb_eq, length_zero_iff_nil in H1.
    apply Nat.eqb_eq, length_zero_iff_nil in H2. subst.
    rewrite app_nil_r in Hc |- *. split; [exact Hc | exact Hl].
  - bind_step H. destruct a as [[[[oldBest newBest] ds] forkBlock] blocks].
    pose proof (reorganizePhase1_quiet E _ _ _ _ _ Hm) as (Hc1 & _).
    apply reorganizePhase2_run in H as (b2 & Hbody & ->).
    bind_step Hbody. rename Hm0 into Hd.
    match type of Hd with _ = (?s, _) => rename s into bd end.
    bind_step Hbody. rename Hm0 into Ha.
    match type of Ha with _ = (?s, _) => rename s into ba end.
    injection Hbody as <-.
    assert (Hpre : bestChain bd = pre).
    { eapply detachCommit_view; [| |exact Hd]; simpl; rewrite Hc1;
        [exact Hl | exact Hc]. }
    assert (Hlpre : viewLinked pre).
    { rewrite Hc in Hl. exact (viewLinked_app_l _ _ Hl). }
    destruct (attachCommit_view _ _ _ _ _ _ _ _ _
                ltac:(rewrite Hpre; exact Hlpre)
                ltac:(rewrite Hpre; exact Hon) Ha) as [Hc' Hl'].
    simpl. rewrite Hc', Hpre in *. split; [reflexivity | exact Hl'].
Qed.

(** X28: when the nodes to detach are the end of a linked view, tip
    first, and the nodes to attach form a branch growing out of the entry
    below them, a [reorganizeChain] that returns without error leaves the
    view with the detached end replaced by the attached nodes, and the
    view is linked again. *)
Theorem reorganizeChain_view (E : Collaborators)
  (detachNodes attachNodes pre : list blockNode) (b b' : BlockChain) :
  viewLinked (bestChain b) ->
  bestChain b = pre ++ reverse detachNodes ->
  linkedOnto (Tip pre) attachNodes ->
  reorganizeChain E detachNodes attachNodes b = (b', Ok tt) ->
  bestChain b' = pre ++ attachNodes /\ viewLinked (bestChain b').
Proof. exact (reorganizeChain_replaces E detachNodes attachNodes pre b b'). Qed.

(** ** [connectBestChain]: the reorganization case *)

Lemma sidePath_linkedOnto (c : chainView) (f : blockNode) :
  forall (n : blockNode) (rest : list blockNode),
    FindFork c n = Some f ->
    (forall m p, m ∈ sidePath c n -> parent m = Some p -> height m = height p + 1) ->
    linkedOnto (Some n) rest ->
    linkedOnto (Some f) (reverse (sidePath c n) ++ rest).
Proof.
  induction n as [n Hn | n p Hn IH] using blockNode_parent_ind;
    intros rest Hfork Hh Hrest;
    rewrite FindFork_unfold, Hn in Hfork; rewrite sidePath_unfold, Hn in Hh |- *;
    destruct (Contains c n) eqn:Hc; try discriminate.
  - injection Hfork as <-. exact Hrest.
  - injection Hfork as <-. exact Hrest.
  - rewrite reverse_cons, <- app_assoc. apply IH; [exact Hfork | |].
    + intros m q Hm. apply Hh. right. exact Hm.
    + split; [|exact Hrest]. exists p. split; [reflexivity|]. split; [exact Hn|].
      apply Hh; [left | exact Hn].
Qed.

Lemma Tip_take_S (c : chainView) (j : nat) (f : blockNode) :
  c !! j = Some f -> Tip (take (S j) c) = Some f.
Proof.
  intros H. unfold Tip. rewrite (take_S_r c j f H). apply last_snoc.
Qed.

(** X29: when [connectBestChain] succeeds on a block that does not extend
    the tip but has more cumulative work, on a side branch without known
    invalid entry whose heights increase by one, the fork length returned
    is zero and the view is what [SetTip] to the node gives: the common
    part kept, the side branch attached, the node as tip, linked. *)
Theorem connectBestChain_reorganizes (E : Collaborators) (BFFastAdd : Z)
  (node p f tip : blockNode) (blk parentBlock : Block) (flags n : Z)
  (b b' : BlockChain) :
  viewLinked (bestChain b) ->
  Tip (bestChain b) = Some tip ->
  PrevBlock blk <> hash tip ->
  workSum tip < workSum node ->
  parent node = Some p ->
  KnownInvalid (NodeStatus (index b) p) = false ->
  FindFork (bestChain b) node = Some f ->
  Forall (fun d => KnownInvalid (NodeStatus (index b) d) = false)
         (sidePath (bestChain b) node) ->
  (forall m q, m ∈ sidePath (bestChain b) node -> parent m = Some q ->
               height m = height q + 1) ->
  connectBestChain E BFFastAdd node blk parentBlock flags b = (b', Ok n) ->
  n = 0 /\
  bestChain b' = SetTip (bestChain b) (Some node) /\
  Tip (bestChain b') = Some node /\
  viewLinked (bestChain b').
Proof.
  intros Hl Htip Hprev Hwork Hp Hpv Hfork Hok Hh H.
  unfold connectBestChain in H.
  bind_step H. apply deref_run in Hm as [-> _].
  destruct (negb _); [discriminate|].
  unfold bind at 1, get at 1 in H.
  bind_step H. apply deref_run in Hm as [-> Ht].
  rewrite Htip in Ht. injection Ht as <-.
  apply Z.eqb_neq in Hprev. rewrite Hprev in H.
  destruct (Z.leb_spec (workSum node) (workSum tip)) as [|_]; [lia|].
  unfold bind at 1, get at 1 in H.
  rewrite (getReorganizeNodes_side_branch _ _ _ _ _ Hl Hp Hfork Hpv Hok) in H.
  unfold bind at 1, deref at 1, ret at 1 in H. cbv iota beta in H.
  unfold bind at 1, modify at 1 in H. rewrite withIndex_same in H.
  bind_step H. injection H as <- <-.
  unfold reorganizeAndFlush in Hm.
  destruct (reorganizeChain E _ _ b) as [b1 r1] eqn:Hre.
  destruct r1 as [[] | e | q]; try discriminate.
  injection Hm as <-.
  destruct (Contains_lookup _ _ (FindFork_Contains _ _ _ Hfork)) as [Hf0 Hf].
  destruct (reorganizeChain_replaces E
              (reverse (drop (S (Z.to_nat (height f))) (bestChain b)))
              (reverse (sidePath (bestChain b) node))
              (take (S (Z.to_nat (height f))) (bestChain b))
              b b1 Hl) as [Hc1 Hl1].
  - rewrite reverse_involutive, take_drop. reflexivity.
  - rewrite (Tip_take_S _ _ _ Hf).
    rewrite <- (app_nil_r (reverse _)).
    apply sidePath_linkedOnto; [exact Hfork | exact Hh | exact I].
  - exact Hre.
  - assert (Hbc : bestChain (flushBlockIndexWarnOnly E b1).1 = bestChain b1).
    { destruct (flushBlockIndexWarnOnly E b1) as [b2 r2] eqn:Hfl.
      apply flushBlockIndexWarnOnly_run in Hfl as [_ [-> | ->]]; reflexivity. }
    rewrite Hbc. split; [reflexivity|].
    assert (Hset : bestChain b1 = SetTip (bestChain b) (Some node)).
    { rewrite Hc1. unfold SetTip. rewrite Hfork. reflexivity. }
    split; [exact Hset|]. split; [rewrite Hset; apply Tip_SetTip | exact Hl1].
Qed.

(** X30: for a block with more cumulative work than the tip whose parent
    is known invalid, [connectBestChain] reports success with fork length
    zero although nothing was connected: the node is flagged
    [InvalidAncestor], tip, snapshot and notifications are untouched and at
    most the flush of the index is written. *)
Theorem connectBestChain_invalid_ancestor (E : Collaborators) (BFFastAdd : Z)
  (node p tip : blockNode) (blk parentBlock : Block) (flags : Z) (b : BlockChain) :
  parent node = Some p ->
  blockHash parentBlock = hash p ->
  Tip (bestChain b) = Some tip ->
  PrevBlock blk <> hash tip ->
  workSum tip < workSum node ->
  KnownInvalid (NodeStatus (index b) p) = true ->
  exists b',
    connectBestChain E BFFastAdd node blk parentBlock flags b = (b', Ok 0) /\
    tipUntouched b b' /\
    hasFlag (NodeStatus (index b') node) statusInvalidAncestor = true /\
    (db b' = db b \/
     db b' = db b ++ [dbPutBlockIndex ({[hash node]} ∪ modified (index b))]).
Proof.
  intros Hp Hh Htip Hprev Hwork Hinv. unfold connectBestChain.
  unfold bind at 1. rewrite Hp. unfold deref at 1, ret at 1.
  rewrite Hh, Z.eqb_refl. cbn [negb].
  unfold bind at 1, get at 1. unfold bind at 1. rewrite Htip.
  unfold deref at 1, ret at 1.
  apply Z.eqb_neq in Hprev. rewrite Hprev.
  destruct (Z.leb_spec (workSum node) (workSum tip)) as [|_]; [lia|].
  unfold bind at 1, get at 1.
  unfold getReorganizeNodes. rewrite Hp, Hinv.
  unfold bind at 1, deref at 1, ret at 1. cbv iota beta.
  unfold bind at 1, modify at 1.
  set (b1 := withIndex b (SetStatusFlags (index b) node statusInvalidAncestor)).
  unfold bind at 1, reorganizeAndFlush, reorganizeChain.
  cbn [length Nat.eqb andb]. unfold ret at 1. cbv beta iota.
  destruct (flushBlockIndexWarnOnly E b1) as [b2 r2] eqn:Hf.
  apply flushBlockIndexWarnOnly_run in Hf as [-> Hb2]. simpl.
  exists b2. split; [reflexivity|].
  assert (Hflag : hasFlag (NodeStatus (index b1) node) statusInvalidAncestor = true).
  { apply SetStatusFlags_sets. discriminate. }
  destruct Hb2 as [-> | ->].
  - split; [repeat split|]. split; [exact Hflag|]. left. reflexivity.
  - split; [repeat split|]. split; [exact Hflag|]. right. reflexivity.
Qed.

Lemma sideBranch_linkedOnto : linkedOnto (Tip [nodeG; nodeB1]) [nodeB2a; nodeB3a].
Proof.
  split; [exists nodeB1; repeat split|].
  split; [exists nodeB2a; repeat split | exact I].
Qed.

Lemma reorganizeChain_view_witness :
  let run := reorganizeChain acceptAll [nodeB3; nodeB2] [nodeB2a; nodeB3a]
               scenario4Chain in
  viewLinked (bestChain scenario4Chain) /\
  bestChain scenario4Chain = [nodeG; nodeB1] ++ reverse [nodeB3; nodeB2] /\
  linkedOnto (Tip [nodeG; nodeB1]) [nodeB2a; nodeB3a] /\
  run = (fst run, Ok tt) /\
  bestChain (fst run) = [nodeG; nodeB1] ++ [nodeB2a; nodeB3a] /\
  viewLinked (bestChain (fst run)).
Proof.
  cbv zeta.
  set (run := reorganizeChain acceptAll [nodeB3; nodeB2] [nodeB2a; nodeB3a]
                scenario4Chain).
  assert (H : run = (fst run, Ok tt)) by (vm_compute; reflexivity).
  assert (Hc : bestChain scenario4Chain = [nodeG; nodeB1] ++ reverse [nodeB3; nodeB2])
    by reflexivity.
  split; [exact scenario2View_linked|]. split; [exact Hc|].
  split; [exact sideBranch_linkedOnto|]. split; [exact H|].
  exact (reorganizeChain_view acceptAll [nodeB3; nodeB2] [nodeB2a; nodeB3a]
           [nodeG; nodeB1] scenario4Chain (fst run)
           scenario2View_linked Hc sideBranch_linkedOnto H).
Defined.

Lemma sidePath_B4a : sidePath scenario2View nodeB4a = [nodeB4a; nodeB3a; nodeB2a].
Proof. vm_compute. reflexivity. Qed.

Lemma sidePath_B4a_valid :
  Forall (fun d => KnownInvalid (NodeStatus (index scenario4Chain) d) = false)
         (sidePath (bestChain scenario4Chain) nodeB4a).
Proof.
  change (bestChain scenario4Chain) with scenario2View. rewrite sidePath_B4a.
  repeat constructor; vm_compute; reflexivity.
Qed.

Lemma sidePath_B4a_heights :
  forall m q, m ∈ sidePath (bestChain scenario4Chain) nodeB4a -> parent m = Some q ->
              height m = height q + 1.
Proof.
  change (bestChain scenario4Chain) with scenario2View. rewrite sidePath_B4a.
  intros m q Hm Hq.
  repeat (apply elem_of_cons in Hm as [-> | Hm]; [injection Hq as <-; reflexivity|]).
  inversion Hm.
Qed.

Lemma connectBestChain_reorganizes_witness :
  let run := connectBestChain acceptAll 1 nodeB4a (emptyBlockOf nodeB4a)
               (emptyBlockOf nodeB3a) 0 scenario4Chain in
  viewLinked (bestChain scenario4Chain) /\
  PrevBlock (emptyBlockOf nodeB4a) <> hash nodeB3 /\
  workSum nodeB3 < workSum nodeB4a /\
  FindFork (bestChain scenario4Chain) nodeB4a = Some nodeB1 /\
  run = (fst run, Ok 0) /\
  bestChain (fst run) = SetTip (bestChain scenario4Chain) (Some nodeB4a) /\
  Tip (bestChain (fst run)) = Some nodeB4a /\
  viewLinked (bestChain (fst run)).
Proof.
  cbv zeta.
  set (run := connectBestChain acceptAll 1 nodeB4a (emptyBlockOf nodeB4a)
                (emptyBlockOf nodeB3a) 0 scenario4Chain).
  assert (H : run = (fst run, Ok 0)) by (vm_compute; reflexivity).
  assert (H1 : PrevBlock (emptyBlockOf nodeB4a) <> hash nodeB3) by (simpl; lia).
  assert (H2 : workSum nodeB3 < workSum nodeB4a) by (simpl; lia).
  assert (H3 : KnownInvalid (NodeStatus (index scenario4Chain) nodeB3a) = false)
    by (vm_compute; reflexivity).
  assert (H4 : FindFork (bestChain scenario4Chain) nodeB4a = Some nodeB1)
    by (vm_compute; reflexivity).
  split; [exact scenario2View_linked|]. split; [exact H1|]. split; [exact H2|].
  split; [exact H4|]. split; [exact H|].
  exact (proj2 (connectBestChain_reorganizes acceptAll 1 nodeB4a nodeB3a nodeB1 nodeB3
                  (emptyBlockOf nodeB4a) (emptyBlockOf nodeB3a) 0 0 scenario4Chain
                  (fst run) scenario2View_linked eq_refl H1 H2 eq_refl H3 H4
                  sidePath_B4a_valid sidePath_B4a_heights H)).
Defined.

Lemma connectBestChain_invalid_ancestor_witness :
  PrevBlock (emptyBlockOf nodeB3h) <> hash nodeB3 /\
  workSum nodeB3 < workSum nodeB3h /\
  KnownInvalid (NodeStatus (index (chainWith invalidSideIndex)) nodeB2a) = true /\
  exists b',
    connectBestChain acceptAll 1 nodeB3h (emptyBlockOf nodeB3h) (emptyBlockOf nodeB2a) 0
      (chainWith invalidSideIndex)
    = (b', Ok 0) /\
    tipUntouched (chainWith invalidSideIndex) b' /\
    hasFlag (NodeStatus (index b') nodeB3h) statusInvalidAncestor = true.
Proof.
  assert (H1 : PrevBlock (emptyBlockOf nodeB3h) <> hash nodeB3) by (simpl; lia).
  assert (H2 : workSum nodeB3 < workSum nodeB3h) by (simpl; lia).
  assert (H3 : KnownInvalid (NodeStatus (index (chainWith invalidSideIndex)) nodeB2a) = true)
    by (vm_compute; reflexivity).
  split; [exact H1|]. split; [exact H2|]. split; [exact H3|].
  destruct (connectBestChain_invalid_ancestor acceptAll 1 nodeB3h nodeB2a nodeB3
              (emptyBlockOf nodeB3h) (emptyBlockOf nodeB2a) 0 (chainWith invalidSideIndex)
              eq_refl eq_refl eq_refl H1 H2 H3) as (b' & Hrun & Htip & Hflag & _).
  exists b'. split; [exact Hrun|]. split; [exact Htip | exact Hflag].
Defined.
